(** * Meeting minutes front end: polling, summary state, recovery, pagination

    A shallow embedding of the parts of the front end that decide the
    behaviour of
    - the summary poll registry of the sidebar provider
      ([startSummaryPolling], [stopSummaryPolling]),
    - the summary hook ([processSummary], [handleStopGeneration]),
    - the transcript recovery hook ([checkForRecoverableTranscripts],
      [recoverMeeting]),
    - the paginated transcript hook ([loadTranscriptsAtOffset], [loadMore]).

    Conventions.  A promise is modelled by its settlement, [outcome]: the
    callee either resolves with a value or rejects.  The answers of the
    collaborators that are reached through IPC or through the browser stores
    are inputs of the model.  React state is explicit: every operation takes
    the state of the latest render and returns the next one, together with
    the effects it performed, in order.  An asynchronous function runs to
    its end once the calls it awaits have settled; two of them do not
    interleave. *)

From Stdlib Require Import ZArith QArith List Bool Lia Sorted Ascii.
From stdpp Require Import gmap strings list pretty.
Import ListNotations.

Local Open Scope string_scope.
Local Open Scope list_scope.

(** ** Promises and JavaScript values *)

Module Js.

(** A thrown value: an [Error] object with its message, or anything else
    (the IPC layer rejects with plain strings). *)
Inductive Thrown : Type :=
| ErrorObj (message : string)
| OtherValue (v : string).

(** [error instanceof Error ? error.message : 'Unknown error'] *)
Definition message_or_unknown (e : Thrown) : string :=
  match e with
  | ErrorObj message => message
  | OtherValue _ => "Unknown error"
  end.

(** The settlement of an awaited promise. *)
Inductive outcome (A : Type) : Type :=
| Resolved (a : A)
| Rejected (e : Thrown).
Arguments Resolved {A} a.
Arguments Rejected {A} e.

(** Truthiness of a string: only the empty string is falsy. *)
Definition truthy_str (s : string) : bool :=
  match s with EmptyString => false | _ => true end.

(** Truthiness of an optional string ([undefined] is falsy). *)
Definition truthy_ostr (o : option string) : bool :=
  match o with Some s => truthy_str s | None => false end.

(** [a || b] on optional strings with a string default. *)
Definition or_default (o : option string) (d : string) : string :=
  match o with
  | Some s => if truthy_str s then s else d
  | None => d
  end.

(** [Array.prototype.sort] is a stable sort; with a consistent comparator
    its result is the one of stable insertion.  [x] is placed in front of
    the first element it does not compare greater than. *)
Fixpoint sort_insert {A : Type} (cmp : A -> A -> Q) (x : A) (l : list A)
  : list A :=
  match l with
  | [] => [x]
  | y :: r =>
      if Qle_bool (cmp x y) 0 then x :: y :: r
      else y :: sort_insert cmp x r
  end.

Definition array_sort {A : Type} (cmp : A -> A -> Q) (l : list A) : list A :=
  foldr (sort_insert cmp) [] l.

(** Strings are sequences of bytes, the UTF-8 encoding of the JavaScript
    string.  [String.prototype.trim] strips the white space and the line
    terminators of ECMAScript: the ASCII ones (U+0009 to U+000D, U+0020) and
    U+00A0, U+1680, U+2000 to U+200A, U+2028, U+2029, U+202F, U+205F, U+3000
    and U+FEFF, which take two or three bytes. *)
Definition byte_is (a : ascii) (code : N) : bool :=
  (N_of_ascii a =? code)%N.

(** U+00A0 is [C2 A0]. *)
Definition white2 (a b : ascii) : bool :=
  byte_is a 194 && byte_is b 160.

(** U+1680 is [E1 9A 80]; U+2000 to U+200A are [E2 80 80] to [E2 80 8A];
    U+2028, U+2029 and U+202F are [E2 80 A8], [E2 80 A9] and [E2 80 AF];
    U+205F is [E2 81 9F]; U+3000 is [E3 80 80]; U+FEFF is [EF BB BF]. *)
Definition white3 (a b c : ascii) : bool :=
  (byte_is a 225 && byte_is b 154 && byte_is c 128)
  || (byte_is a 226 && byte_is b 128
      && (((128 <=? N_of_ascii c)%N && (N_of_ascii c <=? 138)%N)
          || byte_is c 168 || byte_is c 169 || byte_is c 175))
  || (byte_is a 226 && byte_is b 129 && byte_is c 159)
  || (byte_is a 227 && byte_is b 128 && byte_is c 128)
  || (byte_is a 239 && byte_is b 187 && byte_is c 191).

Fixpoint trimStart (s : string) : string :=
  match s with
  | String a r =>
      if Ascii.is_space a then trimStart r
      else
        match r with
        | String b r' =>
            if white2 a b then trimStart r'
            else
              match r' with
              | String c r'' => if white3 a b c then trimStart r'' else s
              | EmptyString => s
              end
        | EmptyString => s
        end
  | EmptyString => EmptyString
  end.

(** The same on the reversed string, where the bytes of a character come
    last byte first. *)
Fixpoint trimStartReversed (s : string) : string :=
  match s with
  | String c r =>
      if Ascii.is_space c then trimStartReversed r
      else
        match r with
        | String b r' =>
            if white2 b c then trimStartReversed r'
            else
              match r' with
              | String a r'' =>
                  if white3 a b c then trimStartReversed r'' else s
              | EmptyString => s
              end
        | EmptyString => s
        end
  | EmptyString => EmptyString
  end.

Definition trim (s : string) : string :=
  String.rev (trimStartReversed (String.rev (trimStart s))).

(** [includes] and [toLowerCase].  [toLowerCase] maps the ASCII letters:
    the callers look for ASCII words in its result, and no other character
    lowers to a letter of those words (U+0130 lowers to [i] followed by
    U+0307, which none of the words contains). *)
Definition includes (s sub : string) : bool :=
  match String.index 0 sub s with Some _ => true | None => false end.

Definition lower_ascii (a : ascii) : ascii :=
  let n := nat_of_ascii a in
  if (65 <=? n)%nat && (n <=? 90)%nat then ascii_of_nat (n + 32) else a.

Fixpoint toLowerCase (s : string) : string :=
  match s with
  | String a r => String (lower_ascii a) (toLowerCase r)
  | EmptyString => EmptyString
  end.

(** [parseInt(s)] without a radix: leading white space, a sign, a [0x]
    prefix for base sixteen, then the longest run of digits; [None] is
    [NaN]. *)
Definition digit_value (radix : Z) (a : ascii) : option Z :=
  let n := Z.of_nat (nat_of_ascii a) in
  let v :=
    if (48 <=? n)%Z && (n <=? 57)%Z then Some (n - 48)%Z
    else if (97 <=? n)%Z && (n <=? 122)%Z then Some (n - 87)%Z
    else if (65 <=? n)%Z && (n <=? 90)%Z then Some (n - 55)%Z
    else None in
  match v with
  | Some d => if (d <? radix)%Z then Some d else None
  | None => None
  end.

Fixpoint digits_prefix (radix : Z) (s : string) (acc : option Z)
  : option Z :=
  match s with
  | String a r =>
      match digit_value radix a with
      | Some d => digits_prefix radix r (Some (radix * default 0%Z acc + d)%Z)
      | None => acc
      end
  | EmptyString => acc
  end.

Definition parseInt (s : string) : option Z :=
  let s1 := trimStart s in
  let '(negative, s2) :=
    match s1 with
    | String "-"%char r => (true, r)
    | String "+"%char r => (false, r)
    | _ => (false, s1)
    end in
  let '(radix, s3) :=
    match s2 with
    | String "0"%char (String "x"%char r) => (16%Z, r)
    | String "0"%char (String "X"%char r) => (16%Z, r)
    | _ => (10%Z, s2)
    end in
  match digits_prefix radix s3 None with
  | Some v => Some (if negative : bool then (- v)%Z else v)
  | None => None
  end.

End Js.

Import Js.

(** ** usePaginatedTranscripts.ts *)

Module Pagination.

(** The fields of [Transcript] the hook reads.  The audio times are
    seconds; they are finite numbers, modelled as rationals. *)
Record Transcript : Type := mkTranscript {
  id : string;
  text : string;
  timestamp : string;
  audio_start_time : option Q;
  audio_end_time : option Q;
  confidence : option Q
}.

Record TranscriptSegmentData : Type := mkSegment {
  seg_id : string;
  seg_timestamp : Q;
  seg_endTime : option Q;
  seg_text : string;
  seg_confidence : option Q
}.

(** [t.audio_start_time ?? 0] *)
Definition start_or_zero (t : Transcript) : Q :=
  match audio_start_time t with Some q => q | None => 0%Q end.

Definition convertTranscriptsToSegments (ts : list Transcript)
  : list TranscriptSegmentData :=
  map (fun t => {| seg_id := id t;
                   seg_timestamp := start_or_zero t;
                   seg_endTime := audio_end_time t;
                   seg_text := text t;
                   seg_confidence := confidence t |}) ts.

(** The comparator handed to [Array.prototype.sort]. *)
Definition compareFn (a b : Transcript) : Q :=
  (start_or_zero a - start_or_zero b)%Q.

(** The updater passed to [setTranscripts] when [append] is true. *)
Definition appendPage (prev newTranscripts : list Transcript)
  : list Transcript :=
  let existingIds : gset string := list_to_set (map id prev) in
  let uniqueNew :=
    filter (fun t => id t ∉ existingIds) newTranscripts in
  array_sort compareFn (prev ++ uniqueNew).

(** The state of the hook that [loadTranscriptsAtOffset] writes. *)
Record PageState : Type := mkPageState {
  transcripts : list Transcript;
  hasMore : bool;
  totalCount : nat;
  offsetRef : nat;
  error : option string
}.

Record PaginatedTranscriptsResponse : Type := mkResponse {
  r_transcripts : list Transcript;
  r_total_count : nat;
  r_has_more : bool
}.

(** [loadTranscriptsAtOffset(offset, append)] once the IPC call has
    settled with [resp]. *)
Definition loadTranscriptsAtOffset (offset : nat) (append : bool)
  (resp : outcome PaginatedTranscriptsResponse) (st : PageState)
  : PageState :=
  match resp with
  | Resolved response =>
      let newTranscripts := r_transcripts response in
      {| transcripts :=
           if append then appendPage (transcripts st) newTranscripts
           else newTranscripts;
         hasMore := r_has_more response;
         totalCount := r_total_count response;
         offsetRef := offset + length newTranscripts;
         error := error st |}
  | Rejected _ =>
      {| transcripts := transcripts st;
         hasMore := hasMore st;
         totalCount := totalCount st;
         offsetRef := offsetRef st;
         error := Some "Failed to load transcripts" |}
  end.

(** [loadMore]: nothing happens unless more pages are announced; otherwise
    a read at the current offset, appended.  (The debounce and the
    loading flags only ever skip a call.) *)
Definition loadMore (resp : outcome PaginatedTranscriptsResponse)
  (st : PageState) : PageState :=
  if negb (hasMore st) then st
  else loadTranscriptsAtOffset (offsetRef st) true resp st.

(** The list after a sequence of appended pages. *)
Definition appendPages (prev : list Transcript)
  (pages : list (list Transcript)) : list Transcript :=
  foldl appendPage prev pages.

(** The [segments] value of the hook. *)
Definition segments (st : PageState) : list TranscriptSegmentData :=
  convertTranscriptsToSegments (transcripts st).

Definition by_start (a b : TranscriptSegmentData) : Prop :=
  (seg_timestamp a <= seg_timestamp b)%Q.

End Pagination.

(** ** The summary API as the front end reads it *)

Module Api.

(** The [blocks] property of a section object, when the key is there. *)
Inductive BlocksField : Type :=
| BArray (blocks : list (option string))
    (* an array of blocks, each with its [content] if it has one *)
| BOther (truthy : bool).
    (* any other value; a truthy one is not an empty array *)

(** A property value of the legacy summary object. *)
Inductive JValue : Type :=
| JNull
| JScalar
    (* string, number, boolean, array: has no [blocks] property *)
| JSection (title : option string) (blocks : option BlocksField).

(** [pollingResult.data]: its own enumerable properties in insertion order,
    [MeetingName], [markdown] and [_section_order] set apart. *)
Record SummaryData : Type := mkSummaryData {
  MeetingName : option string;
  markdown : option string;
  _section_order : option (list string);
  properties : list (string * JValue)
}.

(** The value [api_get_summary] resolves with. *)
Record SummaryResponse : Type := mkSummaryResponse {
  status : string;
  data : option SummaryData;
  error : option string;
  meetingName : option string
}.

End Api.

(** ** SidebarProvider: the summary poll registry *)

Module Polling.
Import Api.

Definition MAX_POLLS : nat := 200.


(** What a live interval closes over: the meeting and its [pollCount]. *)
Record Interval : Type := mkInterval {
  i_meetingId : string;
  pollCount : nat
}.

(** The provider and the timers of the window.  [activeSummaryPolls] is
    the React state; [rendered] is its value at the latest render, which is
    what the callbacks and the effect of that render closed over; [updated]
    tells that the state has been set since.  [intervals] are the timers
    that have been set and not cleared; handles are the positive numbers
    [setInterval] returns. *)
Record PollSys : Type := mkPollSys {
  activeSummaryPolls : gmap string positive;
  rendered : gmap string positive;
  updated : bool;
  intervals : gmap positive Interval;
  nextHandle : positive
}.

Definition initial : PollSys :=
  {| activeSummaryPolls := ∅; rendered := ∅; updated := false;
     intervals := ∅; nextHandle := 1%positive |}.

(** What one firing of an interval does to the outside. *)
Inductive PollEvent : Type :=
| ApiGetSummary (h : positive) (meetingId : string)
| OnUpdate (h : positive) (result : SummaryResponse).

Definition timeoutMessage : string :=
  "要約生成が15分でタイムアウトしました。再度お試しいただくか、モデル設定を確認してください。".

Definition errorResult (msg : string) : SummaryResponse :=
  {| status := "error"; data := None; error := Some msg;
     meetingName := None |}.

Definition timeoutResult : SummaryResponse := errorResult timeoutMessage.

(** [setActiveSummaryPolls(prev => f(prev))]; every updater of the
    provider returns a new [Map]. *)
Definition setActiveSummaryPolls
  (f : gmap string positive -> gmap string positive) (st : PollSys)
  : PollSys :=
  {| activeSummaryPolls := f (activeSummaryPolls st);
     rendered := rendered st; updated := true;
     intervals := intervals st; nextHandle := nextHandle st |}.

Definition clearInterval (h : positive) (st : PollSys) : PollSys :=
  {| activeSummaryPolls := activeSummaryPolls st;
     rendered := rendered st; updated := updated st;
     intervals := delete h (intervals st); nextHandle := nextHandle st |}.

(** [setInterval]: the handle it returns is [nextHandle] of the state it
    is called in. *)
Definition setInterval (iv : Interval) (st : PollSys) : PollSys :=
  {| activeSummaryPolls := activeSummaryPolls st;
     rendered := rendered st; updated := updated st;
     intervals := <[nextHandle st := iv]> (intervals st);
     nextHandle := Pos.succ (nextHandle st) |}.

(** The provider has an effect with the dependency [activeSummaryPolls]
    whose cleanup clears every interval of the map it closed over.  React
    runs that cleanup not only on unmount but at every render in which the
    dependency has changed: the intervals of the previous map are cleared
    then. *)
Definition cleanupIntervals (previous : gmap string positive)
  (tm : gmap positive Interval) : gmap positive Interval :=
  filter (fun kv => kv.1 ∉ (map_img previous : gset positive)) tm.

(** The render that follows a state update. *)
Definition render (st : PollSys) : PollSys :=
  if updated st then
    {| activeSummaryPolls := activeSummaryPolls st;
       rendered := activeSummaryPolls st; updated := false;
       intervals := cleanupIntervals (rendered st) (intervals st);
       nextHandle := nextHandle st |}
  else st.

(** [startSummaryPolling] as called from a closure that saw the registry
    [seen]: the callback is recreated at every render, so a caller holds the
    one of the render it closed over. *)
Definition startSummaryPollingFrom (seen : gmap string positive)
  (meetingId processId : string) (st : PollSys) : PollSys :=
  let st1 :=
    match seen !! meetingId with
    | Some existing => clearInterval existing st
    | None => st
    end in
  let pollInterval := nextHandle st1 in
  let st2 :=
    setInterval {| i_meetingId := meetingId; pollCount := 0 |} st1 in
  setActiveSummaryPolls (fun prev => <[meetingId := pollInterval]> prev) st2.

(** The call from the latest render. *)
Definition startSummaryPolling (meetingId processId : string) (st : PollSys)
  : PollSys :=
  startSummaryPollingFrom (rendered st) meetingId processId st.

(** [clearInterval(h)] followed by the updater that deletes
    [meetingId]. *)
Definition clearAndRemove (h : positive) (meetingId : string) (st : PollSys)
  : PollSys :=
  setActiveSummaryPolls (fun prev => delete meetingId prev)
    (clearInterval h st).

(** [stopSummaryPolling] as called from a closure that saw the registry
    [seen]. *)
Definition stopSummaryPollingFrom (seen : gmap string positive)
  (meetingId : string) (st : PollSys) : PollSys :=
  match seen !! meetingId with
  | Some pollInterval => clearAndRemove pollInterval meetingId st
  | None => st
  end.

(** The call from the latest render. *)
Definition stopSummaryPolling (meetingId : string) (st : PollSys) : PollSys :=
  stopSummaryPollingFrom (rendered st) meetingId st.

(** The statuses on which the callback of the interval stops polling
    whatever the count. *)
Definition stops_polling (s : string) : bool :=
  String.eqb s "completed" || String.eqb s "error"
  || String.eqb s "failed" || String.eqb s "cancelled".

(** [pollCount++] in the closure of interval [h]. *)
Definition setPollCount (h : positive) (iv : Interval) (count : nat)
  (st : PollSys) : PollSys :=
  {| activeSummaryPolls := activeSummaryPolls st;
     rendered := rendered st; updated := updated st;
     intervals :=
       <[h := {| i_meetingId := i_meetingId iv; pollCount := count |}]>
         (intervals st);
     nextHandle := nextHandle st |}.

(** One firing of interval [h]; [api] is how the [api_get_summary] call
    settles if this firing makes it (the command resolves with a response
    object).  A cleared interval does not fire. *)
Definition tick (h : positive) (api : outcome SummaryResponse) (st : PollSys)
  : PollSys * list PollEvent :=
  match intervals st !! h with
  | None => (st, [])
  | Some iv =>
      let meetingId := i_meetingId iv in
      let count := S (pollCount iv) in
      if (MAX_POLLS <=? count)%nat then
        (clearAndRemove h meetingId (setPollCount h iv count st),
         [OnUpdate h timeoutResult])
      else
        match api with
        | Resolved result =>
            let evs := [ApiGetSummary h meetingId; OnUpdate h result] in
            if stops_polling (status result) then
              (clearAndRemove h meetingId (setPollCount h iv count st), evs)
            else if String.eqb (status result) "idle" && (1 <? count)%nat
            then
              (clearAndRemove h meetingId (setPollCount h iv count st), evs)
            else (setPollCount h iv count st, evs)
        | Rejected e =>
            (clearAndRemove h meetingId (setPollCount h iv count st),
             [ApiGetSummary h meetingId;
              OnUpdate h (errorResult (message_or_unknown e))])
        end
  end.

(** A firing and the render that follows it, if it set the state. *)
Definition firing (h : positive) (api : outcome SummaryResponse)
  (st : PollSys) : PollSys * list PollEvent :=
  let '(st1, evs) := tick h api st in (render st1, evs).

(** Consecutive firings of one interval. *)
Fixpoint ticks (h : positive) (apis : list (outcome SummaryResponse))
  (st : PollSys) : PollSys * list PollEvent :=
  match apis with
  | [] => (st, [])
  | api :: rest =>
      let '(st1, evs1) := firing h api st in
      let '(st2, evs2) := ticks h rest st1 in
      (st2, evs1 ++ evs2)
  end.

(** The operations on the registry: starts and stops from the latest or
    from an earlier render, and firings of intervals; each is followed by the
    render it causes. *)
Inductive Op : Type :=
| OpStart (meetingId processId : string)
| OpStartFrom (seen : gmap string positive) (meetingId processId : string)
| OpStop (meetingId : string)
| OpStopFrom (seen : gmap string positive) (meetingId : string)
| OpTick (h : positive) (api : outcome SummaryResponse).

Definition step (op : Op) (st : PollSys) : PollSys :=
  render
    match op with
    | OpStart m p => startSummaryPolling m p st
    | OpStartFrom seen m p => startSummaryPollingFrom seen m p st
    | OpStop m => stopSummaryPolling m st
    | OpStopFrom seen m => stopSummaryPollingFrom seen m st
    | OpTick h api => (tick h api st).1
    end.

Inductive reachable : PollSys -> Prop :=
| reach_initial : reachable initial
| reach_step op st : reachable st -> reachable (step op st).

(** Between two operations the state is rendered, every live interval is
    the one registered for its meeting, and the handles in use are below the
    next one. *)
Definition consistent (st : PollSys) : Prop :=
  updated st = false
  /\ rendered st = activeSummaryPolls st
  /\ (forall h iv,
        intervals st !! h = Some iv ->
        activeSummaryPolls st !! i_meetingId iv = Some h)
  /\ (forall m h,
        activeSummaryPolls st !! m = Some h -> (h < nextHandle st)%positive).

(** Does a firing that brings the count to [count] and whose call settles
    as [api] end the loop? *)
Definition terminates (count : nat) (api : outcome SummaryResponse) : bool :=
  (MAX_POLLS <=? count)%nat
  || match api with
     | Resolved result =>
         stops_polling (status result)
         || (String.eqb (status result) "idle" && (1 <? count)%nat)
     | Rejected _ => true
     end.




Definition isPoll (ev : PollEvent) : bool :=
  match ev with
  | ApiGetSummary _ _ => true
  | OnUpdate _ _ => false
  end.

End Polling.

(** ** useSummaryGeneration.ts *)

Module SummaryGeneration.
Import Api.

Inductive SummaryStatus : Type :=
| Idle | Processing | Summarizing | Regenerating | Completed | Error.

Record FormattedBlock : Type := mkFormattedBlock {
  fb_color : string;
  fb_content : string
}.

Record FormattedSection : Type := mkFormattedSection {
  s_title : string;
  s_blocks : list FormattedBlock
}.

(** The value handed to [setAiSummary]. *)
Inductive Summary : Type :=
| StoredSummary (d : SummaryData)
| MarkdownSummary (md : string)
| LegacySummary (sections : list (string * FormattedSection)).

(** The React state the hook writes: its own, and the summary and the
    title of the parent it writes through [setAiSummary] and
    [updateMeetingTitle]. *)
Record UiState : Type := mkUiState {
  summaryStatus : SummaryStatus;
  summaryError : option string;
  originalTranscript : string;
  aiSummary : option Summary;
  meetingTitle : string
}.

Record Props : Type := mkProps {
  meetingId : string;
  provider : string;
  model : string;
  selectedTemplate : string;
  onOpenModelSettings : bool;   (* is the callback given? *)
  onMeetingUpdated : bool       (* is the callback given? *)
}.

(** What the hook does to the outside, in order.  The tracking calls of
    [Analytics] are awaited; they are taken to resolve. *)
Inductive Effect : Type :=
| Invoke (command meeting : string)
| ToastInfo (title description : string)
| ToastSuccess (title description : string)
| ToastError (title description : string)
| TrackStarted
| TrackCustomPrompt
| TrackCompleted (success : bool) (errorMessage : option string)
| CallOpenModelSettings
| CallOnMeetingUpdated
| ConsoleError (what : string).

(** The result of running a piece of the hook: the state it leaves, the
    effects it performed, and the exception it ended with, if any. *)
Record Run : Type := mkRun {
  after : UiState;
  effects : list Effect;
  thrown : option Thrown
}.

Definition setSummaryStatus (s : SummaryStatus) (st : UiState) : UiState :=
  {| summaryStatus := s; summaryError := summaryError st;
     originalTranscript := originalTranscript st;
     aiSummary := aiSummary st; meetingTitle := meetingTitle st |}.

Definition setSummaryError (e : option string) (st : UiState) : UiState :=
  {| summaryStatus := summaryStatus st; summaryError := e;
     originalTranscript := originalTranscript st;
     aiSummary := aiSummary st; meetingTitle := meetingTitle st |}.

Definition setOriginalTranscript (t : string) (st : UiState) : UiState :=
  {| summaryStatus := summaryStatus st; summaryError := summaryError st;
     originalTranscript := t;
     aiSummary := aiSummary st; meetingTitle := meetingTitle st |}.

Definition setAiSummary (s : option Summary) (st : UiState) : UiState :=
  {| summaryStatus := summaryStatus st; summaryError := summaryError st;
     originalTranscript := originalTranscript st;
     aiSummary := s; meetingTitle := meetingTitle st |}.

Definition updateMeetingTitle (t : string) (st : UiState) : UiState :=
  {| summaryStatus := summaryStatus st; summaryError := summaryError st;
     originalTranscript := originalTranscript st;
     aiSummary := aiSummary st; meetingTitle := t |}.

(** 要約の{再生成|生成}に失敗しました *)
Definition failureTitle (isRegeneration : bool) : string :=
  "要約の" +:+ (if isRegeneration then "再生成" else "生成")
  +:+ "に失敗しました".

Definition restoredSuffix : string := "。以前の要約を復元しました。".

Definition connectionRefusedHelp : string :=
  "LLMサービスに接続できません。Ollamaまたは設定済みのLLMプロバイダーが起動していることを確認してください。".

Definition emptyContentMessage : string :=
  "要約の生成は完了しましたが、空のコンテンツが返されました。".

Definition successTitle : string := "要約の生成が完了しました！".
Definition successDescription : string := "会議の要約が準備できました".

(** [existingSummary?.data], when it is truthy. *)
Definition reloaded_data (reload : outcome (option SummaryResponse))
  : option SummaryData :=
  match reload with
  | Resolved (Some existingSummary) => data existingSummary
  | Resolved None => None
  | Rejected _ => None
  end.

(** What a reload tells about the summary the database holds for the
    meeting: the summary, that there is none, or nothing (the call was
    rejected). *)
Inductive StoredInfo : Type :=
| HasSummary (d : SummaryData)
| NoSummary
| Unknown.

Definition storedInfo (reload : outcome (option SummaryResponse))
  : StoredInfo :=
  match reload with
  | Resolved _ =>
      match reloaded_data reload with
      | Some d => HasSummary d
      | None => NoSummary
      end
  | Rejected _ => Unknown
  end.

(** The branch of the polling callback for [status === 'cancelled']. *)
Definition onCancelled (props : Props)
  (reload : outcome (option SummaryResponse)) (st : UiState) : Run :=
  let call := Invoke "api_get_summary" (meetingId props) in
  match reload with
  | Resolved existingSummary =>
      match reloaded_data (Resolved existingSummary) with
      | Some d =>
          {| after := setSummaryError None
               (setSummaryStatus Completed
                  (setAiSummary (Some (StoredSummary d)) st));
             effects := [call]; thrown := None |}
      | None =>
          {| after := setSummaryError None (setSummaryStatus Idle st);
             effects := [call]; thrown := None |}
      end
  | Rejected _ =>
      {| after := setSummaryError None (setSummaryStatus Idle st);
         effects :=
           [call; ConsoleError "Failed to reload summary after cancellation:"];
         thrown := None |}
  end.

Definition dquote : string := String "034"%char EmptyString.

(** [isModelRequiredError] *)
Definition isModelRequiredError (errorMessage : string) : bool :=
  includes errorMessage "model is required"
  || includes errorMessage
       (dquote +:+ "model" +:+ dquote +:+ ":" +:+ dquote +:+ "required"
        +:+ dquote)
  || (includes (toLowerCase errorMessage) "model"
      && includes (toLowerCase errorMessage) "required").

(** The ordinary error handling of the callback, after a restoration was
    not attempted or did not succeed. *)
Definition reportFailure (props : Props) (isRegeneration : bool)
  (errorMessage : string) (before : list Effect) (st : UiState) : Run :=
  {| after := setSummaryStatus Error (setSummaryError (Some errorMessage) st);
     effects :=
       before
       ++ [ToastError (failureTitle isRegeneration)
             (if includes errorMessage "Connection refused"
              then connectionRefusedHelp else errorMessage)]
       ++ (if isModelRequiredError errorMessage && onOpenModelSettings props
           then [CallOpenModelSettings] else [])
       ++ [TrackCompleted false (Some errorMessage)];
     thrown := None |}.

(** The branch of the polling callback for a status of ['error'] or
    ['failed']. *)
Definition onFailed (props : Props) (isRegeneration : bool)
  (reload : outcome (option SummaryResponse))
  (pollingResult : SummaryResponse) (st : UiState) : Run :=
  let errorMessage :=
    or_default (error pollingResult) (failureTitle isRegeneration) in
  let logged := ConsoleError "Backend returned error:" in
  let call := Invoke "api_get_summary" (meetingId props) in
  if isRegeneration then
    match reload with
    | Resolved existingSummary =>
        match reloaded_data (Resolved existingSummary) with
        | Some d =>
            {| after := setSummaryError None
                 (setSummaryStatus Completed
                    (setAiSummary (Some (StoredSummary d)) st));
               effects :=
                 [logged; call;
                  ToastError "要約の再生成に失敗しました"
                    (errorMessage +:+ restoredSuffix);
                  TrackCompleted false (Some errorMessage)];
               thrown := None |}
        | None =>
            reportFailure props isRegeneration errorMessage [logged; call] st
        end
    | Rejected _ =>
        reportFailure props isRegeneration errorMessage
          [logged; call; ConsoleError "Failed to reload summary after error:"]
          st
    end
  else reportFailure props isRegeneration errorMessage [logged] st.

(** [Object.entries(pollingResult.data)] without [MeetingName]: a
    [markdown] string and a [_section_order] array, when the keys are there,
    are values without a [blocks] property. *)
Definition summarySections (d : SummaryData) : list (string * JValue) :=
  match markdown d with Some _ => [("markdown", JScalar)] | None => [] end
  ++ match _section_order d with
     | Some _ => [("_section_order", JScalar)]
     | None => []
     end
  ++ properties d.

(** [!section.blocks || section.blocks.length === 0]; reading a property
    of [null] throws. *)
Definition noBlocks (section : JValue) : option bool :=
  match section with
  | JNull => None
  | JScalar => Some true
  | JSection _ None => Some true
  | JSection _ (Some (BArray blocks)) => Some (length blocks =? 0)%nat
  | JSection _ (Some (BOther truthy)) => Some (negb truthy)
  end.

(** A section object without blocks or with an empty list of blocks. *)
Definition isVacuousSection (section : JValue) : bool :=
  match section with
  | JSection _ None => true
  | JSection _ (Some (BArray [])) => true
  | _ => false
  end.

(** [summarySections.every(...)]: stops at the first section with blocks,
    throws at a [null] section reached before that. *)
Fixpoint every_noBlocks (sections : list (string * JValue)) : option bool :=
  match sections with
  | [] => Some true
  | (_, section) :: rest =>
      match noBlocks section with
      | None => None
      | Some true => every_noBlocks rest
      | Some false => Some false
      end
  end.

(** [summaryData[key]], where [summaryData] is the data without
    [MeetingName]. *)
Fixpoint lookup_property (key : string) (ps : list (string * JValue))
  : option JValue :=
  match ps with
  | [] => None
  | (k, v) :: rest =>
      if String.eqb k key then Some v else lookup_property key rest
  end.

(** [formattedSummary[key] = section]: a key that is already there keeps
    its place. *)
Fixpoint assign {A : Type} (key : string) (v : A) (o : list (string * A))
  : list (string * A) :=
  match o with
  | [] => [(key, v)]
  | (k, w) :: rest =>
      if String.eqb k key then (k, v) :: rest
      else (k, w) :: assign key v rest
  end.

(** [block?.content?.trim() || ''] with the colour reset. *)
Definition formatBlock (content : option string) : FormattedBlock :=
  {| fb_color := "default";
     fb_content := match content with Some c => trim c | None => "" end |}.

(** One turn of the loop over [sectionKeys]. *)
Definition formatSection (d : SummaryData) (key : string)
  (formattedSummary : list (string * FormattedSection))
  : list (string * FormattedSection) :=
  match lookup_property key (summarySections d) with
  | Some (JSection (Some title) (Some blocks)) =>
      assign key
        {| s_title := if truthy_str title then title else key;
           s_blocks :=
             match blocks with
             | BArray bs => map formatBlock bs
             | BOther _ => []
             end |}
        formattedSummary
  | _ => formattedSummary
  end.

Definition formatLegacy (d : SummaryData)
  : list (string * FormattedSection) :=
  let sectionKeys :=
    match _section_order d with
    | Some order => order
    | None => map fst (summarySections d)
    end in
  foldl (fun acc key => formatSection d key acc) [] sectionKeys.

(** The branch of the polling callback for a completed result that
    carries data. *)
Definition onCompleted (props : Props) (pollingResult : SummaryResponse)
  (d : SummaryData) (st : UiState) : Run :=
  let meetingName :=
    if truthy_ostr (MeetingName d) then MeetingName d
    else meetingName pollingResult in
  let named := truthy_ostr meetingName in
  let st1 :=
    if named then updateMeetingTitle (default "" meetingName) st else st in
  let refresh :=
    if named && onMeetingUpdated props then [CallOnMeetingUpdated] else [] in
  if truthy_ostr (markdown d) then
    {| after := setSummaryStatus Completed
         (setAiSummary (Some (MarkdownSummary (default "" (markdown d)))) st1);
       effects :=
         [ToastSuccess successTitle successDescription]
         ++ refresh ++ [TrackCompleted true None];
       thrown := None |}
  else
    match every_noBlocks (summarySections d) with
    | None =>
        {| after := st1; effects := [];
           thrown := Some (ErrorObj "TypeError") |}
    | Some true =>
        {| after := setSummaryStatus Error
             (setSummaryError (Some emptyContentMessage) st1);
           effects :=
             [ConsoleError "Summary completed but all sections empty";
              TrackCompleted false (Some "Empty summary generated")];
           thrown := None |}
    | Some false =>
        {| after := setSummaryStatus Completed
             (setAiSummary (Some (LegacySummary (formatLegacy d))) st1);
           effects :=
             [ToastSuccess successTitle successDescription;
              TrackCompleted true None] ++ refresh;
           thrown := None |}
    end.

(** The callback [processSummary] hands to [startSummaryPolling].
    [reload] is how the [api_get_summary] call of the callback settles, if
    the callback makes it. *)
Definition onUpdate (props : Props) (isRegeneration : bool)
  (reload : outcome (option SummaryResponse))
  (pollingResult : SummaryResponse) (st : UiState) : Run :=
  if String.eqb (status pollingResult) "cancelled" then
    onCancelled props reload st
  else if String.eqb (status pollingResult) "error"
          || String.eqb (status pollingResult) "failed" then
    onFailed props isRegeneration reload pollingResult st
  else
    match data pollingResult with
    | Some d =>
        if String.eqb (status pollingResult) "completed"
        then onCompleted props pollingResult d st
        else {| after := st; effects := []; thrown := None |}
    | None => {| after := st; effects := []; thrown := None |}
    end.

(** The hook together with the provider it polls through, each operation
    followed by the render of the provider it causes.  [runs] keeps, for
    every interval handle, the [isRegeneration] its callback closes over. *)
Record App : Type := mkApp {
  ui : UiState;
  polls : Polling.PollSys;
  runs : gmap positive bool
}.

Definition noTranscriptMessage : string :=
  "文字起こしテキストがありません。先にテキストを追加してください。".

(** The [catch] of [processSummary]. *)
Definition processFailed (isRegeneration : bool) (e : Thrown)
  (before : list Effect) (st : UiState) : UiState * list Effect :=
  let errorMessage := message_or_unknown e in
  (setSummaryStatus Error (setSummaryError (Some errorMessage) st),
   before
   ++ [ConsoleError
         ("Failed to "
          +:+ (if isRegeneration then "regenerate" else "generate")
          +:+ " summary:");
       ToastError (failureTitle isRegeneration) errorMessage;
       TrackCompleted false (Some errorMessage)]).

(** [processSummary]; [backend] is how [api_process_transcript] settles,
    with the process id. *)
Definition processSummary (props : Props)
  (transcriptText customPrompt : string) (isRegeneration : bool)
  (backend : outcome string) (app : App) : App * list Effect :=
  let st0 :=
    setSummaryError None
      (setSummaryStatus (if isRegeneration then Regenerating else Processing)
         (ui app)) in
  if negb (truthy_str (trim transcriptText)) then
    let '(st, evs) :=
      processFailed isRegeneration (ErrorObj noTranscriptMessage) [] st0 in
    ({| ui := st; polls := polls app; runs := runs app |}, evs)
  else
    let st1 :=
      if isRegeneration then st0 else setOriginalTranscript transcriptText st0
    in
    let started :=
      [TrackStarted]
      ++ (if truthy_str (trim customPrompt) then [TrackCustomPrompt] else [])
      ++ [ToastInfo
            ("要約を" +:+ (if isRegeneration then "再生成" else "生成")
             +:+ "中...")
            (provider props +:+ "/" +:+ model props +:+ " を使用");
          Invoke "api_process_transcript" (meetingId props)] in
    match backend with
    | Resolved process_id =>
        ({| ui := st1;
            polls :=
              Polling.step (Polling.OpStart (meetingId props) process_id)
                (polls app);
            runs :=
              <[Polling.nextHandle (polls app) := isRegeneration]> (runs app)
         |}, started)
    | Rejected e =>
        let '(st, evs) := processFailed isRegeneration e started st1 in
        ({| ui := st; polls := polls app; runs := runs app |}, evs)
    end.

(** [handleRegenerateSummary] *)
Definition handleRegenerateSummary (props : Props) (backend : outcome string)
  (app : App) : App * list Effect :=
  if negb (truthy_str (trim (originalTranscript (ui app)))) then
    (app, [ConsoleError "No original transcript available for regeneration"])
  else
    processSummary props (originalTranscript (ui app)) "" true backend app.

(** [handleStopGeneration]; [cancel] is how [api_cancel_summary]
    settles.  The [stopSummaryPolling] it calls after that await is the one
    of the render the handler was created in, which saw the registry
    [seen]. *)
Definition handleStopGeneration (props : Props)
  (seen : gmap string positive) (cancel : outcome unit)
  (app : App) : App * list Effect :=
  let request := Invoke "api_cancel_summary" (meetingId props) in
  let attempted :=
    match cancel with
    | Resolved _ => [request]
    | Rejected _ =>
        [request; ConsoleError "Failed to cancel summary generation:"]
    end in
  ({| ui := setSummaryError None (setSummaryStatus Idle (ui app));
      polls :=
        Polling.step (Polling.OpStopFrom seen (meetingId props)) (polls app);
      runs := runs app |},
   attempted
   ++ [ToastInfo "要約の生成を停止しました" "いつでも新しい要約を生成できます"]).

(** One firing of interval [h] seen from the hook: the provider polls
    ([api]) and hands what it reports to the callback registered with [h],
    whose own reload settles as [reload]. *)
Definition deliver (props : Props) (reload : outcome (option SummaryResponse))
  (isRegeneration : bool) (ev : Polling.PollEvent) (r : Run) : Run :=
  match ev with
  | Polling.ApiGetSummary _ m =>
      {| after := after r;
         effects := effects r ++ [Invoke "api_get_summary" m];
         thrown := thrown r |}
  | Polling.OnUpdate _ result =>
      let r' := onUpdate props isRegeneration reload result (after r) in
      {| after := after r';
         effects := effects r ++ effects r';
         thrown := thrown r' |}
  end.

Definition fire (props : Props) (h : positive)
  (api : outcome SummaryResponse)
  (reload : outcome (option SummaryResponse)) (app : App) : App * Run :=
  let '(polls', evs) := Polling.firing h api (polls app) in
  let isRegeneration := default false (runs app !! h) in
  let r :=
    foldl (fun r ev => deliver props reload isRegeneration ev r)
      {| after := ui app; effects := []; thrown := None |} evs in
  ({| ui := after r; polls := polls'; runs := runs app |}, r).

End SummaryGeneration.

(** ** useTranscriptRecovery *)

Module Recovery.

(** [MeetingMetadata] of the checkpoint store; times are milliseconds
    since the epoch. *)
Record MeetingMetadata : Type := mkMeetingMetadata {
  meetingId : string;
  title : string;
  startTime : Z;
  lastUpdated : Z;
  transcriptCount : nat;
  folderPath : option string
}.

Record StoredTranscript : Type := mkStoredTranscript {
  id : option Z;
  text : string;
  timestamp : string;
  sequenceId : option Z;
  confidence : option Q;
  chunk_start_time : option Q;
  is_partial : option bool;
  audio_start_time : option Q;
  audio_end_time : option Q;
  duration : option Q
}.

Record AudioRecoveryStatus : Type := mkAudioRecoveryStatus {
  ar_status : string;
  chunk_count : nat;
  estimated_duration_seconds : Q;
  audio_file_path : option string;
  message : string
}.

(** The hook state. *)
Record HookState : Type := mkHookState {
  recoverableMeetings : list MeetingMetadata;
  isLoading : bool;
  isRecovering : bool
}.

Definition setFolderPath (p : option string) (m : MeetingMetadata)
  : MeetingMetadata :=
  {| meetingId := meetingId m; title := title m; startTime := startTime m;
     lastUpdated := lastUpdated m; transcriptCount := transcriptCount m;
     folderPath := p |}.

(** *** checkForRecoverableTranscripts *)

Definition SAVED_FLAG_MS : Z := 5 * 60 * 1000.
Definition STOP_WINDOW_MS : Z := 2 * 60 * 1000.
Definition RETENTION_MS : Z := 7 * 24 * 60 * 60 * 1000.
Definition MIN_AGE_MS : Z := 15 * 1000.

(** What the scan reads: the clock ([Date.now()], taken once for the
    scan), the sessions of the checkpoint store and the answer of
    [has_audio_checkpoints] for a folder. *)
Record ScanEnv : Type := mkScanEnv {
  now : Z;
  getAllMeetings : outcome (list MeetingMetadata);
  has_audio_checkpoints : string -> outcome bool
}.

(** [ts] is set and [Date.now() - parseInt(ts) > limit]. *)
Definition olderThan (limit now : Z) (ts : option string) : bool :=
  match ts with
  | Some t =>
      truthy_str t
      && match parseInt t with
         | Some n => (limit <? now - n)%Z
         | None => false
         end
  | None => false
  end.

(** [justStoppedTimestamp ? Date.now() - parseInt(ts) < 2 min : false] *)
Definition recentStopWindow (now : Z) (ts : option string) : bool :=
  match ts with
  | Some t =>
      truthy_str t
      && match parseInt t with
         | Some n => (now - n <? STOP_WINDOW_MS)%Z
         | None => false
         end
  | None => false
  end.

(** The removal of stale markers from [sessionStorage]. *)
Definition cleanMarkers (now : Z) (ss : gmap string string)
  : gmap string string :=
  let ss1 :=
    if olderThan SAVED_FLAG_MS now (ss !! "just_saved_meeting_timestamp")
    then delete "just_saved_meeting_timestamp"
           (delete "just_saved_meeting_id" ss)
    else ss in
  if olderThan STOP_WINDOW_MS now (ss !! "just_stopped_meeting_timestamp")
  then delete "just_stopped_meeting_timestamp"
         (delete "just_stopped_meeting_key" ss1)
  else ss1.

(** The first test of the filter: the meeting that was just saved. *)
Definition justSaved (ss : gmap string string) (m : MeetingMetadata) : bool :=
  match ss !! "just_saved_meeting_id" with
  | Some justSavedMeetingId =>
      truthy_str justSavedMeetingId
      && String.eqb (meetingId m) justSavedMeetingId
  | None => false
  end.

(** The second test: a stop is in progress and the meeting is younger
    than two minutes. *)
Definition stopInProgress (now : Z) (ss : gmap string string)
  (m : MeetingMetadata) : bool :=
  recentStopWindow now (ss !! "just_stopped_meeting_timestamp")
  && truthy_ostr (ss !! "just_stopped_meeting_key")
  && (now - lastUpdated m <? STOP_WINDOW_MS)%Z.

(** The predicate of [meetings.filter]. *)
Definition keepMeeting (now : Z) (ss : gmap string string)
  (m : MeetingMetadata) : bool :=
  if justSaved ss m then false
  else if stopInProgress now ss m then false
  else
    let cutoffTime := (now - RETENTION_MS)%Z in
    let secondsAgo := (now - MIN_AGE_MS)%Z in
    let isWithinRetention := (cutoffTime <? lastUpdated m)%Z in
    let isOldEnough := (lastUpdated m <? secondsAgo)%Z in
    isWithinRetention && isOldEnough.

(** The audio check of one candidate. *)
Definition withAudioStatus (check : string -> outcome bool)
  (meeting : MeetingMetadata) : MeetingMetadata :=
  match folderPath meeting with
  | Some p =>
      if truthy_str p then
        match check p with
        | Resolved hasAudio =>
            setFolderPath (if hasAudio then Some p else None) meeting
        | Rejected _ => setFolderPath None meeting
        end
      else meeting
  | None => meeting
  end.

(** The folders [has_audio_checkpoints] is invoked with, in order. *)
Definition audioChecks (candidates : list MeetingMetadata) : list string :=
  omap (fun m =>
          match folderPath m with
          | Some p => if truthy_str p then Some p else None
          | None => None
          end) candidates.

(** The candidates that pass the filter. *)
Definition recentMeetings (now : Z) (ss : gmap string string)
  (meetings : list MeetingMetadata) : list MeetingMetadata :=
  List.filter (keepMeeting now ss) meetings.

Record ScanResult : Type := mkScanResult {
  scanned : HookState;
  storage : gmap string string;
  checked : list string
}.

Definition checkForRecoverableTranscripts (env : ScanEnv)
  (ss : gmap string string) (st : HookState) : ScanResult :=
  match getAllMeetings env with
  | Resolved meetings =>
      let candidates := recentMeetings (now env) ss meetings in
      {| scanned :=
           {| recoverableMeetings :=
                map (withAudioStatus (has_audio_checkpoints env)) candidates;
              isLoading := false;
              isRecovering := isRecovering st |};
         storage := cleanMarkers (now env) ss;
         checked := audioChecks candidates |}
  | Rejected _ =>
      {| scanned :=
           {| recoverableMeetings := [];
              isLoading := false;
              isRecovering := isRecovering st |};
         storage := ss;
         checked := [] |}
  end.

(** A session is listed when the scan leaves an entry with its key and
    its time of last update. *)
Definition listed (m : MeetingMetadata) (r : ScanResult) : bool :=
  existsb (fun m' => String.eqb (meetingId m') (meetingId m)
                     && (lastUpdated m' =? lastUpdated m)%Z)
    (recoverableMeetings (scanned r)).

(** *** recoverMeeting *)

Record FormattedTranscript : Type := mkFormattedTranscript {
  f_id : string;
  f_text : string;
  f_timestamp : string;
  f_sequence_id : Z;
  f_chunk_start_time : option Q;
  f_is_partial : bool;
  f_confidence : option Q;
  f_audio_start_time : option Q;
  f_audio_end_time : option Q;
  f_duration : option Q
}.

(** The calls a recovery makes to its collaborators. *)
Inductive Call : Type :=
| GetMeetingMetadata (meeting : string)
| GetTranscripts (meeting : string)
| GetMeetingFolderPath
| RecoverAudioFromCheckpoints (folder : string)
| SaveMeeting (title : string) (transcripts : list FormattedTranscript)
    (folder : option string)
| MarkMeetingSaved (meeting : string)
| CleanupCheckpoints (folder : string).

(** How the calls of one recovery settle. *)
Record RecoverEnv : Type := mkRecoverEnv {
  clock : Z;
  getMeetingMetadata : outcome (option MeetingMetadata);
  getTranscripts : outcome (list StoredTranscript);
  get_meeting_folder_path : outcome string;
  recover_audio_from_checkpoints : outcome AudioRecoveryStatus;
  saveMeeting : outcome string;
  markMeetingSaved : outcome unit;
  cleanup_checkpoints : outcome unit
}.

(** The hook state, the two stores and the calls made so far. *)
Record World : Type := mkWorld {
  hook : HookState;
  markedSaved : gset string;
  permanent : list (string * list FormattedTranscript * option string);
  calls : list Call
}.

(** Modelled from the spec: the body of [indexedDBService.markMeetingSaved]
    is not part of the sources; [mark_saved(session_id)] removes the session
    from future recovery candidacy, recorded here as membership in
    [markedSaved]. *)
Definition mark_saved (meeting : string) (w : World) : World :=
  {| hook := hook w; markedSaved := {[meeting]} ∪ markedSaved w;
     permanent := permanent w; calls := calls w |}.

(** Modelled from the spec: the body of [storageService.saveMeeting] is not
    part of the sources; a save that resolves has committed the meeting to
    permanent storage. *)
Definition commit (title : string) (ts : list FormattedTranscript)
  (folder : option string) (w : World) : World :=
  {| hook := hook w; markedSaved := markedSaved w;
     permanent := permanent w ++ [(title, ts, folder)]; calls := calls w |}.

(** Asynchronous code over the world: a state and exception monad. *)
Definition Async (A : Type) : Type := World -> outcome A * World.

Definition pure {A : Type} (a : A) : Async A := fun w => (Resolved a, w).

Definition throw {A : Type} (e : Thrown) : Async A :=
  fun w => (Rejected e, w).

Definition andThen {A B : Type} (m : Async A) (k : A -> Async B) : Async B :=
  fun w =>
    match m w with
    | (Resolved a, w1) => k a w1
    | (Rejected e, w1) => (Rejected e, w1)
    end.

Definition tryCatch {A : Type} (m : Async A) (handler : Thrown -> Async A)
  : Async A :=
  fun w =>
    match m w with
    | (Resolved a, w1) => (Resolved a, w1)
    | (Rejected e, w1) => handler e w1
    end.

Definition finally {A : Type} (m : Async A) (f : World -> World) : Async A :=
  fun w => let '(r, w1) := m w in (r, f w1).

Definition update (f : World -> World) : Async unit :=
  fun w => (Resolved tt, f w).

(** [await] of a call that settles as [o]. *)
Definition await {A : Type} (c : Call) (o : outcome A) : Async A :=
  fun w =>
    (o, {| hook := hook w; markedSaved := markedSaved w;
           permanent := permanent w; calls := calls w ++ [c] |}).

Notation "'let*' x ':=' m 'in' k" := (andThen m (fun x => k))
  (at level 10, x binder, k at level 200, only parsing).

Definition setIsRecovering (b : bool) (w : World) : World :=
  {| hook := {| recoverableMeetings := recoverableMeetings (hook w);
                isLoading := isLoading (hook w);
                isRecovering := b |};
     markedSaved := markedSaved w; permanent := permanent w;
     calls := calls w |}.

Definition removeRecoverable (meeting : string) (w : World) : World :=
  {| hook := {| recoverableMeetings :=
                  List.filter
                    (fun m => negb (String.eqb (meetingId m) meeting))
                    (recoverableMeetings (hook w));
                isLoading := isLoading (hook w);
                isRecovering := isRecovering (hook w) |};
     markedSaved := markedSaved w; permanent := permanent w;
     calls := calls w |}.

(** [(a.sequenceId || 0) - (b.sequenceId || 0)] *)
Definition bySequenceId (a b : StoredTranscript) : Q :=
  inject_Z (default 0%Z (sequenceId a) - default 0%Z (sequenceId b)).

Definition loadMeetingTranscripts (env : RecoverEnv) (meeting : string)
  : Async (list StoredTranscript) :=
  tryCatch
    (let* transcripts := await (GetTranscripts meeting) (getTranscripts env) in
     pure (array_sort bySequenceId transcripts))
    (fun _ => pure []).

(** Step 5 of the recovery for the transcript at [index]. *)
Definition formatTranscript (clock : Z) (index : nat) (t : StoredTranscript)
  : FormattedTranscript :=
  {| f_id :=
       match id t with
       | Some n => pretty n
       | None => pretty clock +:+ "-" +:+ pretty index
       end;
     f_text := text t;
     f_timestamp := timestamp t;
     f_sequence_id :=
       match sequenceId t with
       | Some n => if (n =? 0)%Z then Z.of_nat index else n
       | None => Z.of_nat index
       end;
     f_chunk_start_time := chunk_start_time t;
     f_is_partial := default false (is_partial t);
     f_confidence := confidence t;
     f_audio_start_time := audio_start_time t;
     f_audio_end_time := audio_end_time t;
     f_duration := duration t |}.

Record RecoverResult : Type := mkRecoverResult {
  success : bool;
  audioRecoveryStatus : option AudioRecoveryStatus;
  savedMeetingId : string
}.

Definition noAudio (status msg : string) : AudioRecoveryStatus :=
  {| ar_status := status; chunk_count := 0;
     estimated_duration_seconds := 0%Q; audio_file_path := None;
     message := msg |}.

Definition truthy_path (p : option string) : option string :=
  match p with
  | Some s => if truthy_str s then Some s else None
  | None => None
  end.

(** The [try] block of [recoverMeeting]. *)
Definition recoverSteps (env : RecoverEnv) (meeting : string)
  : Async RecoverResult :=
  let* found :=
    await (GetMeetingMetadata meeting) (getMeetingMetadata env) in
  match found with
  | None => throw (ErrorObj "Meeting metadata not found")
  | Some metadata =>
      let* transcripts := loadMeetingTranscripts env meeting in
      if (length transcripts =? 0)%nat then
        throw (ErrorObj "No transcripts found for this meeting")
      else
        let* folder :=
          match truthy_path (folderPath metadata) with
          | Some p => pure (Some p)
          | None =>
              tryCatch
                (let* p :=
                   await GetMeetingFolderPath (get_meeting_folder_path env) in
                 pure (Some p))
                (fun _ => pure None)
          end in
        let* audio :=
          match truthy_path folder with
          | Some p =>
              tryCatch
                (await (RecoverAudioFromCheckpoints p)
                   (recover_audio_from_checkpoints env))
                (fun e => pure (noAudio "failed" (message_or_unknown e)))
          | None => pure (noAudio "none" "No folder path available")
          end in
        let formattedTranscripts :=
          imap (formatTranscript (clock env)) transcripts in
        let* saved :=
          await (SaveMeeting (title metadata) formattedTranscripts folder)
            (saveMeeting env) in
        let* _ := update (commit (title metadata) formattedTranscripts folder)
        in
        let* _ := await (MarkMeetingSaved meeting) (markMeetingSaved env) in
        let* _ := update (mark_saved meeting) in
        let* _ :=
          match truthy_path folder with
          | Some p =>
              tryCatch
                (await (CleanupCheckpoints p) (cleanup_checkpoints env))
                (fun _ => pure tt)
          | None => pure tt
          end in
        let* _ := update (removeRecoverable meeting) in
        pure {| success := true; audioRecoveryStatus := Some audio;
                savedMeetingId := saved |}
  end.

Definition recoverMeeting (env : RecoverEnv) (meeting : string)
  : Async RecoverResult :=
  let* _ := update (setIsRecovering true) in
  finally
    (tryCatch (recoverSteps env meeting) (fun e => throw e))
    (setIsRecovering false).

(** The calls a run added to the world. *)
Definition newCalls (before after : World) : list Call :=
  drop (length (calls before)) (calls after).

(** In a sequence of calls, is every [MarkMeetingSaved] preceded by a
    [SaveMeeting]?  [saved] tells whether one has been seen. *)
Fixpoint markedOnlyAfterSave (saved : bool) (cs : list Call) : bool :=
  match cs with
  | [] => true
  | SaveMeeting _ _ _ :: rest => markedOnlyAfterSave true rest
  | MarkMeetingSaved _ :: rest => saved && markedOnlyAfterSave saved rest
  | _ :: rest => markedOnlyAfterSave saved rest
  end.

Definition isMarkMeetingSaved (c : Call) : bool :=
  match c with MarkMeetingSaved _ => true | _ => false end.

(** The checkpoint-store and storage calls of a run that can succeed. *)
Definition healthy (env : RecoverEnv) : Prop :=
  (exists metadata, getMeetingMetadata env = Resolved (Some metadata))
  /\ (exists t ts, getTranscripts env = Resolved (t :: ts))
  /\ (exists sid, saveMeeting env = Resolved sid)
  /\ markMeetingSaved env = Resolved tt.

End Recovery.


(** * Further parts of the front end

    The callers and the neighbours of the functions above: the entry point
    of the summary generation ([handleGenerateSummary]), the auto-generation
    check and the legacy formatting of the meeting page, the first page of
    the paginated transcripts, and the title and summary handlers of
    [useMeetingData]. *)

From Stdlib Require Import Qround.

(** ** What is observed of a run *)

Module Observations.
Import Api.

Definition isInvoke (ev : SummaryGeneration.Effect) : bool :=
  match ev with
  | SummaryGeneration.Invoke _ _ => true
  | _ => false
  end.

Definition isSaveMeeting (c : Recovery.Call) : bool :=
  match c with Recovery.SaveMeeting _ _ _ => true | _ => false end.

Definition isCleanupCheckpoints (c : Recovery.Call) : bool :=
  match c with Recovery.CleanupCheckpoints _ => true | _ => false end.

(** The sequence number a stored transcript is sorted by:
    [sequenceId || 0]. *)
Definition sequence_or_zero (t : Recovery.StoredTranscript) : Z :=
  default 0%Z (Recovery.sequenceId t).

Definition isDigit (a : ascii) : bool :=
  let n := nat_of_ascii a in (48 <=? n)%nat && (n <=? 57)%nat.

Fixpoint allDigits (s : string) : bool :=
  match s with
  | String a r => isDigit a && allDigits r
  | EmptyString => true
  end.

(** An ASCII byte that is no white space: [trim] strips no character it
    belongs to. *)
Definition isInk (a : ascii) : bool :=
  (N_of_ascii a <? 128)%N && negb (Ascii.is_space a).

(** Does the string hold such a byte? *)
Fixpoint hasInk (s : string) : bool :=
  match s with
  | String a r => isInk a || hasInk r
  | EmptyString => false
  end.

(** What the loop of the legacy formatting maintains: every key once, and
    each formatted section made from a section object of the data that has
    a title and blocks. *)
Definition wellFormatted (d : SummaryData)
  (o : list (string * SummaryGeneration.FormattedSection)) : Prop :=
  NoDup (map fst o)
  /\ forall key s,
       In (key, s) o ->
       exists title blocks,
         SummaryGeneration.lookup_property key
           (SummaryGeneration.summarySections d)
         = Some (JSection (Some title) (Some blocks))
         /\ SummaryGeneration.s_title s
            = (if truthy_str title then title else key)
         /\ Forall (fun b => SummaryGeneration.fb_color b = "default")
              (SummaryGeneration.s_blocks s)
         /\ length (SummaryGeneration.s_blocks s)
            = match blocks with
              | BArray bs => length bs
              | BOther _ => 0
              end.

End Observations.

(** ** The paginated transcripts of a meeting, from the first page on *)

Module PaginationHook.
Import Pagination.

(** [reset] *)
Definition reset (st : PageState) : PageState :=
  {| transcripts := []; hasMore := false; totalCount := 0; offsetRef := 0;
     error := None |}.

(** [loadMetadata], as far as it writes what [PageState] holds: a rejected
    read sets the error. *)
Definition loadMetadata {A : Type} (metadata : outcome A) (st : PageState)
  : PageState :=
  match metadata with
  | Resolved _ => st
  | Rejected _ =>
      {| transcripts := transcripts st; hasMore := hasMore st;
         totalCount := totalCount st; offsetRef := offsetRef st;
         error := Some "Failed to load meeting details" |}
  end.

(** The effect that runs when the hook is given a meeting: [reset], then
    [loadInitial], which reads the metadata and the first page, not
    appended. *)
Definition loadInitial {A : Type} (metadata : outcome A)
  (resp : outcome PaginatedTranscriptsResponse) (st : PageState)
  : PageState :=
  loadTranscriptsAtOffset 0 false resp (loadMetadata metadata (reset st)).

(** The calls of [loadMore] that follow, each with the answer its read
    gets if it is made. *)
Definition loadMores (resps : list (outcome PaginatedTranscriptsResponse))
  (st : PageState) : PageState :=
  foldl (fun s resp => loadMore resp s) st resps.

End PaginationHook.

(** ** The meeting page: auto-generation and the stored legacy summary *)

Module MeetingPage.
Import Api.

(** The arguments of [api_save_model_config], which is also what
    [api_get_model_config] resolves with. *)
Record ModelConfig : Type := mkModelConfig {
  mc_provider : string;
  mc_model : string;
  whisperModel : string;
  apiKey : option string;
  ollamaEndpoint : option string
}.

Inductive PageCall : Type :=
| ApiGetModelConfig
| GetOllamaModels
| ApiSaveModelConfig (config : ModelConfig).

Record AutoGen : Type := mkAutoGen {
  shouldAutoGenerate : bool;
  hasCheckedAutoGen : bool
}.

(** [checkForGemmaModel]; [models] is how [get_ollama_models] settles, with
    the [name] of every model it lists ([None]: the value is not an
    array). *)
Definition checkForGemmaModel
  (models : outcome (option (list (option string)))) : bool :=
  match models with
  | Resolved (Some ms) =>
      existsb (fun name =>
                 match name with
                 | Some n => String.eqb n "gemma3:1b"
                 | None => false
                 end) ms
  | Resolved None => false
  | Rejected _ => false
  end.

Definition setHasCheckedAutoGen (b : bool) (st : AutoGen) : AutoGen :=
  {| shouldAutoGenerate := shouldAutoGenerate st; hasCheckedAutoGen := b |}.

Definition setShouldAutoGenerate (b : bool) (st : AutoGen) : AutoGen :=
  {| shouldAutoGenerate := b; hasCheckedAutoGen := hasCheckedAutoGen st |}.

(** The configuration the fallback saves. *)
Definition fallbackConfig : ModelConfig :=
  {| mc_provider := "ollama"; mc_model := ""; whisperModel := "large-v3";
     apiKey := None; ollamaEndpoint := None |}.

(** [currentConfig && currentConfig.model] *)
Definition hasModel (currentConfig : option ModelConfig) : bool :=
  match currentConfig with
  | Some c => truthy_str (mc_model c)
  | None => false
  end.

(** [setupAutoGeneration]; [source] is the query parameter of the page,
    the three outcomes are how [api_get_model_config], [get_ollama_models]
    and [api_save_model_config] settle if they are called. *)
Definition setupAutoGeneration (source : option string)
  (isAutoSummary : bool) (currentConfig : outcome (option ModelConfig))
  (models : outcome (option (list (option string))))
  (save : outcome unit) (st : AutoGen) : AutoGen * list PageCall :=
  if hasCheckedAutoGen st then (st, [])
  else if negb (bool_decide (source = Some "recording")) then
    (setHasCheckedAutoGen true st, [])
  else if negb isAutoSummary then (setHasCheckedAutoGen true st, [])
  else
    match currentConfig with
    | Resolved config =>
        if hasModel config then
          (setHasCheckedAutoGen true (setShouldAutoGenerate true st),
           [ApiGetModelConfig])
        else if checkForGemmaModel models then
          match save with
          | Resolved _ =>
              (setHasCheckedAutoGen true (setShouldAutoGenerate true st),
               [ApiGetModelConfig; GetOllamaModels;
                ApiSaveModelConfig fallbackConfig])
          | Rejected _ =>
              (setHasCheckedAutoGen true st,
               [ApiGetModelConfig; GetOllamaModels;
                ApiSaveModelConfig fallbackConfig])
          end
        else
          (setHasCheckedAutoGen true st, [ApiGetModelConfig; GetOllamaModels])
    | Rejected _ => (setHasCheckedAutoGen true st, [ApiGetModelConfig])
    end.

Definition isSave (c : PageCall) : bool :=
  match c with ApiSaveModelConfig _ => true | _ => false end.

Definition isModelListing (c : PageCall) : bool :=
  match c with GetOllamaModels => true | _ => false end.

(** [restSummaryData]: the stored data without [MeetingName] and
    [_section_order]. *)
Definition restSummaryData (d : SummaryData) : list (string * JValue) :=
  match markdown d with Some _ => [("markdown", JScalar)] | None => [] end
  ++ properties d.

(** One turn of the loop of [fetchMeetingSummary] over [sectionKeys]. *)
Definition formatSectionPage (d : SummaryData) (key : string)
  (formattedSummary : list (string * SummaryGeneration.FormattedSection))
  : list (string * SummaryGeneration.FormattedSection) :=
  match SummaryGeneration.lookup_property key (restSummaryData d) with
  | Some (JSection (Some title) (Some blocks)) =>
      SummaryGeneration.assign key
        {| SummaryGeneration.s_title :=
             if truthy_str title then title else key;
           SummaryGeneration.s_blocks :=
             match blocks with
             | BArray bs => map SummaryGeneration.formatBlock bs
             | BOther _ => []
             end |}
        formattedSummary
  | _ => formattedSummary
  end.

(** The legacy formatting of [fetchMeetingSummary]. *)
Definition formatLegacyPage (d : SummaryData)
  : list (string * SummaryGeneration.FormattedSection) :=
  let sectionKeys :=
    match _section_order d with
    | Some order => order
    | None => map fst (restSummaryData d)
    end in
  foldl (fun acc key => formatSectionPage d key acc) [] sectionKeys.

End MeetingPage.

(** ** Generating a summary from all the transcripts of a meeting *)

Module Generate.
Import Api SummaryGeneration.

Inductive ToastKind : Type := TInfo | TSuccess | TError.

(** What [handleGenerateSummary] does to the outside, in order: its own
    reads, notices and logged errors, and the effects of
    [processSummary]. *)
Inductive Step : Type :=
| AskTranscripts (limit : nat)
    (* api_get_meeting_transcripts at offset 0 *)
| AskOllamaModels
| AskModelReady (modelName : string)
| AskModelInfo (modelName : string)
| Notice (kind : ToastKind) (title : string) (description : option string)
| OpenModelSettings
| LogError (what : string)
| Hook (e : Effect).

(** The [audio_start_time] of a transcript as the backend sends it: the
    key may be missing, the value may be [null], or it is a number (finite
    and below 2^46 in magnitude, where the division by sixty on doubles
    floors as the exact one and a number prints in decimal). *)
Inductive Seconds : Type :=
| Undefined
| Null
| Number (seconds : Q).

(** The fields of [Transcript] the generation reads. *)
Record Transcript : Type := mkTranscript {
  audio_start_time : Seconds;
  timestamp : string;
  text : string
}.

(** What [api_get_meeting_transcripts] resolves with, as far as it is
    read. *)
Record TranscriptsResponse : Type := mkTranscriptsResponse {
  transcripts : list Transcript;
  total_count : nat
}.

(** [BuiltInModelInfo.status] *)
Inductive BuiltInStatus : Type :=
| Downloading (progress : string)
| NotDownloaded
| Corrupted
| StatusError (Error : option string)
| OtherStatus.

(** How the calls of one run settle, each if it is made. *)
Record Env : Type := mkEnv {
  isModelConfigLoading : bool;
  firstPage : outcome TranscriptsResponse;
  allData : outcome TranscriptsResponse;
  ollamaModels : outcome (option (list (option string)));
  isOllamaNotInstalledError : string -> bool;
  isModelReady : outcome bool;
  modelInfo : outcome (option BuiltInStatus);
  backend : outcome string
}.

(** [error instanceof Error ? error.message : String(error)] *)
Definition message_or_string (e : Thrown) : string :=
  match e with
  | ErrorObj message => message
  | OtherValue v => v
  end.

(** [fetchAllTranscripts]: a read of one row for the total, then one read
    of that many rows. *)
Definition fetchAllTranscripts (failure : string) (env : Env)
  : list Transcript * list Step :=
  let failed :=
    [LogError "Error fetching all transcripts:"; Notice TError failure None]
  in
  match firstPage env with
  | Resolved first =>
      let totalCount := total_count first in
      if (totalCount =? 0)%nat then ([], [AskTranscripts 1])
      else
        match allData env with
        | Resolved all =>
            (transcripts all, [AskTranscripts 1; AskTranscripts totalCount])
        | Rejected _ =>
            ([], [AskTranscripts 1; AskTranscripts totalCount] ++ failed)
        end
  | Rejected _ => ([], AskTranscripts 1 :: failed)
  end.

(** [s.padStart(2, '0')] *)
Definition padStart2 (s : string) : string :=
  match String.length s with
  | 0 => "00"
  | 1 => "0" +:+ s
  | _ => s
  end.

(** [`[${mins...}:${secs...}]`] for [totalSecs = Math.floor(seconds)]: the
    quotient is floored and [%] takes the sign of the dividend. *)
Definition stamp (totalSecs : Z) : string :=
  let mins := (totalSecs / 60)%Z in
  let secs := Z.rem totalSecs 60 in
  "[" +:+ padStart2 (pretty mins) +:+ ":" +:+ padStart2 (pretty secs)
  +:+ "]".

(** [formatTime]: only [undefined] falls back to the wall-clock
    timestamp; [Math.floor(null)] is [0]. *)
Definition formatTime (seconds : Seconds) (fallbackTimestamp : string)
  : string :=
  match seconds with
  | Undefined => fallbackTimestamp
  | Null => stamp 0
  | Number s => stamp (Qfloor s)
  end.

Definition newline : string := String "010"%char EmptyString.

Definition fullTranscript (allTranscripts : list Transcript) : string :=
  String.concat newline
    (map (fun t =>
            formatTime (audio_start_time t) (timestamp t) +:+ " " +:+ text t)
       allTranscripts).

Definition openSettings (props : Props) : list Step :=
  if onOpenModelSettings props then [OpenModelSettings] else [].

(** The check of the Ollama provider: the steps made and whether the run
    goes on. *)
Definition ollamaCheck (props : Props) (env : Env) : list Step * bool :=
  if String.eqb (provider props) "ollama" then
    match ollamaModels env with
    | Resolved (Some (_ :: _)) => ([AskOllamaModels], true)
    | Resolved _ =>
        ([AskOllamaModels;
          Notice TError
            "Ollamaモデルが見つかりません。モデル設定からgemma3:1bをダウンロードしてください。"
            None],
         false)
    | Rejected e =>
        ([AskOllamaModels;
          LogError "Error checking Ollama models:";
          if isOllamaNotInstalledError env (message_or_string e) then
            Notice TError "Ollamaがインストールされていません"
              (Some "ローカルモデルを使用するには、Ollamaをダウンロードしてインストールしてください。")
          else
            Notice TError
              "Ollamaモデルの確認に失敗しました。Ollamaが起動していることを確認し、設定からモデルをダウンロードしてください。"
              None],
         false)
    end
  else ([], true).

(** What is shown for a built-in model that is not ready. *)
Definition notReady (props : Props) (info : option BuiltInStatus)
  : list Step :=
  let selectedModel := model props in
  match info with
  | Some (Downloading progress) =>
      [Notice TInfo "モデルダウンロード中"
         (Some (selectedModel +:+ " をダウンロード中です（" +:+ progress
                +:+ "%）。完了までお待ちください。"))]
  | Some NotDownloaded =>
      Notice TError "ビルトインAIモデルがダウンロードされていません"
        (Some (selectedModel
               +:+ " のダウンロードが必要です。モデル設定からダウンロードしてください。"))
      :: openSettings props
  | Some Corrupted =>
      Notice TError "ビルトインAIモデルが利用できません"
        (Some ("モデルファイルが破損しています" +:+ "。モデル設定を確認してください。"))
      :: openSettings props
  | Some (StatusError message) =>
      Notice TError "ビルトインAIモデルが利用できません"
        (Some (or_default message "モデルファイルにエラーがあります"
               +:+ "。モデル設定を確認してください。"))
      :: openSettings props
  | _ =>
      Notice TError "ビルトインAIモデルの準備ができていません"
        (Some "設定でモデルがダウンロードされていることを確認してください")
      :: openSettings props
  end.

Definition validationFailed (e : Thrown) : list Step :=
  [LogError "Error validating built-in AI model:";
   Notice TError "ビルトインAIモデルの検証に失敗しました"
     (Some (message_or_string e))].

(** The check of the built-in provider. *)
Definition builtinCheck (props : Props) (env : Env) : list Step * bool :=
  if String.eqb (provider props) "builtin-ai" then
    let selectedModel := model props in
    if negb (truthy_str selectedModel) then
      (Notice TError "ビルトインAIモデルが選択されていません"
         (Some "設定でモデルを選択してください")
       :: openSettings props,
       false)
    else
      match isModelReady env with
      | Resolved true => ([AskModelReady selectedModel], true)
      | Resolved false =>
          match modelInfo env with
          | Resolved info =>
              ([AskModelReady selectedModel; AskModelInfo selectedModel]
               ++ notReady props info,
               false)
          | Rejected e =>
              ([AskModelReady selectedModel; AskModelInfo selectedModel]
               ++ validationFailed e,
               false)
          end
      | Rejected e =>
          (AskModelReady selectedModel :: validationFailed e, false)
      end
  else ([], true).

(** [handleGenerateSummary] *)
Definition handleGenerateSummary (props : Props) (env : Env)
  (customPrompt : string) (app : App) : App * list Step :=
  if isModelConfigLoading env then
    (app,
     [Notice TInfo "モデル設定を読み込み中です。しばらくお待ちください..." None])
  else
    let '(allTranscripts, fetched) :=
      fetchAllTranscripts "要約生成用の文字起こしの取得に失敗しました" env in
    if (length allTranscripts =? 0)%nat then
      (app,
       fetched
       ++ [Notice TError "要約に使用できる文字起こしがありません" None])
    else
      let '(asked1, go1) := ollamaCheck props env in
      if negb go1 then (app, fetched ++ asked1)
      else
        let '(asked2, go2) := builtinCheck props env in
        if negb go2 then (app, fetched ++ asked1 ++ asked2)
        else
          let '(app', evs) :=
            processSummary props (fullTranscript allTranscripts) customPrompt
              false (backend env) app in
          (app', fetched ++ asked1 ++ asked2 ++ map Hook evs).

Definition isHook (s : Step) : bool :=
  match s with Hook _ => true | _ => false end.

Definition isProcessRequest (s : Step) : bool :=
  match s with
  | Hook (Invoke command _) => String.eqb command "api_process_transcript"
  | _ => false
  end.

End Generate.

(** ** Title and summary of the meeting on display *)

Module MeetingData.
Import Api SummaryGeneration.

(** An entry of the meeting list of the sidebar. *)
Record CurrentMeeting : Type := mkCurrentMeeting {
  cm_id : string;
  cm_title : string
}.

(** The state [useMeetingData] reads and writes: its own and the meeting
    list and current meeting of the sidebar. *)
Record DataState : Type := mkDataState {
  d_meetingTitle : string;
  isTitleDirty : bool;
  isSaving : bool;
  d_error : string;
  d_aiSummary : option Summary;
  sidebarMeetings : list CurrentMeeting;
  currentMeeting : option CurrentMeeting
}.

(** A section of the legacy payload: [{title: section.title, blocks:
    section.blocks}]. *)
Inductive SectionOut : Type :=
| FromFormatted (title : string) (blocks : list FormattedBlock)
| FromStored (title : option string) (blocks : option BlocksField).

(** The [summary] argument of [api_save_meeting_summary]. *)
Inductive Payload : Type :=
| AsIs (summary : Summary)
| Wrapped (MeetingName : string) (sections : list SectionOut).

Inductive DataEffect : Type :=
| SaveTitle (meeting title : string)
| SaveSummary (meeting : string) (payload : Payload)
| EditorSave
| SavedToast
| SaveFailedToast (description : string).

Definition setTitleAndDirty (t : string) (dirty : bool) (st : DataState)
  : DataState :=
  {| d_meetingTitle := t; isTitleDirty := dirty; isSaving := isSaving st;
     d_error := d_error st; d_aiSummary := d_aiSummary st;
     sidebarMeetings := sidebarMeetings st;
     currentMeeting := currentMeeting st |}.

Definition setIsSaving (b : bool) (st : DataState) : DataState :=
  {| d_meetingTitle := d_meetingTitle st; isTitleDirty := isTitleDirty st;
     isSaving := b; d_error := d_error st; d_aiSummary := d_aiSummary st;
     sidebarMeetings := sidebarMeetings st;
     currentMeeting := currentMeeting st |}.

Definition setError (e : string) (st : DataState) : DataState :=
  {| d_meetingTitle := d_meetingTitle st; isTitleDirty := isTitleDirty st;
     isSaving := isSaving st; d_error := e; d_aiSummary := d_aiSummary st;
     sidebarMeetings := sidebarMeetings st;
     currentMeeting := currentMeeting st |}.

(** [sidebarMeetings.map(m => m.id === meeting.id ? {id: m.id, title} : m)]
    handed to [setMeetings], and [setCurrentMeeting]. *)
Definition renameInSidebar (meeting title : string) (st : DataState)
  : DataState :=
  {| d_meetingTitle := d_meetingTitle st; isTitleDirty := isTitleDirty st;
     isSaving := isSaving st; d_error := d_error st;
     d_aiSummary := d_aiSummary st;
     sidebarMeetings :=
       map (fun m =>
              if String.eqb (cm_id m) meeting
              then {| cm_id := cm_id m; cm_title := title |} else m)
         (sidebarMeetings st);
     currentMeeting := Some {| cm_id := meeting; cm_title := title |} |}.

(** [handleTitleChange] *)
Definition handleTitleChange (newTitle : string) (st : DataState)
  : DataState :=
  setTitleAndDirty newTitle true st.


(** The message kept of a failed save. *)
Definition saveError (what : string) (e : Thrown) : string :=
  match e with
  | ErrorObj message => message
  | OtherValue _ => "Failed to save " +:+ what +:+ ": Unknown error"
  end.

(** [handleSaveMeetingTitle]; the boolean is what it resolves with. *)
Definition handleSaveMeetingTitle (meeting : string) (save : outcome unit)
  (st : DataState) : bool * DataState * list DataEffect :=
  let request := SaveTitle meeting (d_meetingTitle st) in
  match save with
  | Resolved _ =>
      (true,
       renameInSidebar meeting (d_meetingTitle st)
         (setTitleAndDirty (d_meetingTitle st) false st),
       [request])
  | Rejected e => (false, setError (saveError "meeting title" e) st, [request])
  end.

Definition hasKey {A : Type} (key : string) (o : list (string * A)) : bool :=
  existsb (fun kv => String.eqb kv.1 key) o.

(** ['markdown' in summary || 'summary_json' in summary] *)
Definition isNewFormat (summary : Summary) : bool :=
  match summary with
  | MarkdownSummary _ => true
  | StoredSummary d =>
      match markdown d with Some _ => true | None => false end
      || hasKey "summary_json" (properties d)
  | LegacySummary sections =>
      hasKey "markdown" sections || hasKey "summary_json" sections
  end.

(** [{title: section.title, blocks: section.blocks}] of a stored value;
    reading a property of [null] throws. *)
Definition sectionOfStored (v : JValue) : option SectionOut :=
  match v with
  | JNull => None
  | JScalar => Some (FromStored None None)
  | JSection title blocks => Some (FromStored title blocks)
  end.

Fixpoint sectionsOfStored (vs : list JValue) : option (list SectionOut) :=
  match vs with
  | [] => Some []
  | v :: rest =>
      match sectionOfStored v with
      | None => None
      | Some s =>
          match sectionsOfStored rest with
          | None => None
          | Some out => Some (s :: out)
          end
      end
  end.

(** [Object.entries(summary).map(...)] of the legacy branch; [None] when
    the mapping throws.  ([SummaryData] does not keep the place of
    [MeetingName] among the other keys; it is put first.) *)
Definition legacySections (summary : Summary) : option (list SectionOut) :=
  match summary with
  | LegacySummary sections =>
      Some (map (fun kv => FromFormatted (s_title kv.2) (s_blocks kv.2))
              sections)
  | StoredSummary d =>
      sectionsOfStored
        (match MeetingName d with Some _ => [JScalar] | None => [] end
         ++ map snd (summarySections d))
  | MarkdownSummary _ => Some [FromStored None None]
  end.

(** [handleSaveSummary] *)
Definition handleSaveSummary (meeting : string) (summary : Summary)
  (save : outcome unit) (st : DataState) : DataState * list DataEffect :=
  let formattedSummary :=
    if isNewFormat summary then Some (AsIs summary)
    else
      match legacySections summary with
      | Some sections => Some (Wrapped (d_meetingTitle st) sections)
      | None => None
      end in
  match formattedSummary with
  | None => (setError "TypeError" st, [])
  | Some payload =>
      match save with
      | Resolved _ => (st, [SaveSummary meeting payload])
      | Rejected e =>
          (setError (saveError "meeting summary" e) st,
           [SaveSummary meeting payload])
      end
  end.

(** [String(error)] *)
Definition string_of_thrown (e : Thrown) : string :=
  match e with
  | ErrorObj message => "Error: " +:+ message
  | OtherValue v => v
  end.

(** [saveAllChanges]; [editor] is the summary editor, if it is mounted:
    whether it is dirty and how its [saveSummary] settles. *)
Definition saveAllChanges (meeting : string) (titleSave : outcome unit)
  (editor : option (bool * outcome unit)) (summarySave : outcome unit)
  (st : DataState) : DataState * list DataEffect :=
  let st0 := setIsSaving true st in
  let '(st1, evs1) :=
    if isTitleDirty st then
      let '(_, s, evs) := handleSaveMeetingTitle meeting titleSave st0 in
      (s, evs)
    else (st0, []) in
  let editorDirty :=
    match editor with Some (dirty, _) => dirty | None => false end in
  let '(st2, evs2, failed) :=
    if editorDirty then
      match editor with
      | Some (_, Rejected e) => (st1, [EditorSave], Some e)
      | _ => (st1, [EditorSave], None)
      end
    else
      match d_aiSummary st with
      | Some summary =>
          let '(s, evs) :=
            handleSaveSummary meeting summary summarySave st1 in
          (s, evs, None)
      | None => (st1, [], None)
      end in
  (setIsSaving false st2,
   evs1 ++ evs2
   ++ [match failed with
       | Some e => SaveFailedToast (string_of_thrown e)
       | None => SavedToast
       end]).

Definition isSaveTitle (ev : DataEffect) : bool :=
  match ev with SaveTitle _ _ => true | _ => false end.

End MeetingData.

(** ** Concrete inputs *)

Module Examples.

(** Two distinct reads of one stored segment, and a later segment. *)
Definition seg_a : Pagination.Transcript :=
  Pagination.mkTranscript "seg-37" "hello" "10:00:01" (Some (3 # 1)) None None.

Definition seg_b : Pagination.Transcript :=
  Pagination.mkTranscript "seg-38" "world" "10:00:02" (Some (1 # 2)) None None.

Definition seg_c : Pagination.Transcript :=
  Pagination.mkTranscript "seg-39" "again" "10:00:03" None None None.

(** A backend that keeps answering that the job is running. *)
Definition still_processing : Api.SummaryResponse :=
  Api.mkSummaryResponse "processing" None None None.

(** The registry after one poll has been started for meeting [m-1]. *)
Definition one_poll : Polling.PollSys :=
  Polling.step (Polling.OpStart "m-1" "p-1") Polling.initial.

(** The summary hook of meeting [m-1]. *)
Definition props1 : SummaryGeneration.Props :=
  SummaryGeneration.mkProps "m-1" "ollama" "gemma3:1b" "standard" true true.

(** The summary the database holds for [m-1]. *)
Definition prior : Api.SummaryData :=
  Api.mkSummaryData (Some "Weekly sync") (Some "# Decisions") None [].

Definition prior_answer : Api.SummaryResponse :=
  Api.mkSummaryResponse "completed" (Some prior) None None.

(** The hook while a regeneration runs, the prior summary on display. *)
Definition regenerating : SummaryGeneration.UiState :=
  SummaryGeneration.mkUiState SummaryGeneration.Regenerating None
    "[00:01] hello"
    (Some (SummaryGeneration.StoredSummary prior)) "Weekly sync".

Definition failed_answer : Api.SummaryResponse :=
  Api.mkSummaryResponse "failed" None (Some "LLM unreachable") None.

Definition cancelled_answer : Api.SummaryResponse :=
  Api.mkSummaryResponse "cancelled" None None None.

(** A completed legacy result whose two sections are empty. *)
Definition vacuous : Api.SummaryData :=
  Api.mkSummaryData None None (Some ["Agenda"; "Actions"])
    [("Agenda", Api.JSection (Some "Agenda") (Some (Api.BArray [])));
     ("Actions", Api.JSection (Some "Actions") None)].

Definition vacuous_answer : Api.SummaryResponse :=
  Api.mkSummaryResponse "completed" (Some vacuous) None None.

(** The application with the regeneration of [m-1] being polled. *)
Definition regenerating_app : SummaryGeneration.App :=
  SummaryGeneration.mkApp regenerating one_poll {[ 1%positive := true ]}.

(** A recovery scan at [scan_now] over one checkpoint that is a minute
    old, while a stop was flagged thirty seconds ago. *)
Definition scan_now : Z := 1700000000000.

Definition minute_old : Recovery.MeetingMetadata :=
  Recovery.mkMeetingMetadata "rec-1" "Standup" (scan_now - 600000)
    (scan_now - 60000) 12 (Some "/recordings/standup").

Definition stop_markers : gmap string string :=
  {[ "just_stopped_meeting_key" := "rec-0";
     "just_stopped_meeting_timestamp" := "1699999970000" ]}.

Definition scan_env : Recovery.ScanEnv :=
  Recovery.mkScanEnv scan_now (Resolved [minute_old])
    (fun _ => Resolved false).

Definition fresh_hook : Recovery.HookState :=
  Recovery.mkHookState [] true false.

(** A checkpoint store where the save of the recovered meeting fails. *)
Definition stored_line : Recovery.StoredTranscript :=
  Recovery.mkStoredTranscript (Some 7%Z) "hello" "10:00:01" (Some 1%Z)
    None None None None None None.

Definition save_fails : Recovery.RecoverEnv :=
  Recovery.mkRecoverEnv scan_now (Resolved (Some minute_old))
    (Resolved [stored_line]) (Rejected (OtherValue "no recording"))
    (Rejected (ErrorObj "no chunks")) (Rejected (ErrorObj "database locked"))
    (Resolved tt) (Resolved tt).

Definition listing : Recovery.World :=
  Recovery.mkWorld (Recovery.mkHookState [minute_old] false false) ∅ [] [].

End Examples.

(** Further inputs. *)
Module MoreExamples.
Import Api.

(** A backend that has no job for the meeting. *)
Definition idle_answer : SummaryResponse :=
  mkSummaryResponse "idle" None None None.

(** A backend that reports completion without handing over the data. *)
Definition completed_empty : SummaryResponse :=
  mkSummaryResponse "completed" None None None.

(** Session storage at [Examples.scan_now] with a just-saved marker for
    [rec-1] that is ten minutes old. *)
Definition stale_saved_markers : gmap string string :=
  {[ "just_saved_meeting_id" := "rec-1";
     "just_saved_meeting_timestamp" := "1699999400000" ]}.

(** A recovery of [rec-1] where the audio recovery and the cleanup of the
    checkpoints are rejected. *)
Definition cleanup_fails : Recovery.RecoverEnv :=
  Recovery.mkRecoverEnv Examples.scan_now
    (Resolved (Some Examples.minute_old))
    (Resolved [Examples.stored_line]) (Rejected (OtherValue "no recording"))
    (Rejected (ErrorObj "no chunks")) (Resolved "saved-1")
    (Resolved tt) (Rejected (ErrorObj "busy")).

(** A recovery of [rec-1] where the checkpoint store refuses the mark. *)
Definition mark_fails : Recovery.RecoverEnv :=
  Recovery.mkRecoverEnv Examples.scan_now
    (Resolved (Some Examples.minute_old))
    (Resolved [Examples.stored_line]) (Rejected (OtherValue "no recording"))
    (Rejected (ErrorObj "no chunks")) (Resolved "saved-1")
    (Rejected (ErrorObj "store closed")) (Resolved tt).

(** A stored transcript without id and without sequence number. *)
Definition unnumbered_line : Recovery.StoredTranscript :=
  Recovery.mkStoredTranscript None "world" "10:00:02" None
    None None None None None None.

(** A legacy summary with an explicit order that names one section twice
    and a key that is no section. *)
Definition legacy : SummaryData :=
  mkSummaryData (Some "Weekly sync") None
    (Some ["Actions"; "Agenda"; "Actions"; "_section_order"])
    [("Agenda",
      JSection (Some "") (Some (BArray [Some " budget "; None])));
     ("Actions", JSection (Some "Next steps") (Some (BOther true)))].

(** Three transcripts as the generation reads them: with an audio time,
    with a [null] audio time and a text that is an ideographic space, and
    without the key. *)
Definition line_a : Generate.Transcript :=
  Generate.mkTranscript (Generate.Number (125 # 2)) "10:00:01" "hello".

Definition line_null : Generate.Transcript :=
  Generate.mkTranscript Generate.Null "10:00:02" "　".

Definition line_old : Generate.Transcript :=
  Generate.mkTranscript Generate.Undefined "10:00:03" "again".

(** A run of the generation for [m-1] in which every call goes through:
    one transcript, one Ollama model. *)
Definition ready_env : Generate.Env :=
  Generate.mkEnv false
    (Resolved (Generate.mkTranscriptsResponse [line_a] 1))
    (Resolved (Generate.mkTranscriptsResponse [line_a] 1))
    (Resolved (Some [Some "gemma3:1b"])) (fun _ => false)
    (Resolved true) (Resolved None) (Resolved "p-1").

(** The page of [m-1] after the user has typed a new title. *)
Definition edited : MeetingData.DataState :=
  MeetingData.mkDataState "Weekly sync (May)" true false ""
    (Some (SummaryGeneration.MarkdownSummary "# Decisions"))
    [MeetingData.mkCurrentMeeting "m-0" "Kickoff";
     MeetingData.mkCurrentMeeting "m-1" "Weekly sync"]
    (Some (MeetingData.mkCurrentMeeting "m-1" "Weekly sync")).

(** A completed legacy result whose only section has a block and no
    title. *)
Definition titleless : SummaryData :=
  mkSummaryData None None None
    [("Agenda", JSection None (Some (BArray [Some "budget"])))].

Definition titleless_answer : SummaryResponse :=
  mkSummaryResponse "completed" (Some titleless) None None.

End MoreExamples.

(** * Properties *)

(** ** Stable insertion sort *)

Section SortFacts.
Context {A : Type} (key : A -> Q).

Let cmp (a b : A) : Q := (key a - key b)%Q.
Let le (a b : A) : Prop := (key a <= key b)%Q.

Lemma cmp_le (a b : A) : Qle_bool (cmp a b) 0 = true <-> le a b.
Proof.
  unfold cmp, le. rewrite Qle_bool_iff.
  rewrite <- (Qplus_le_l (key a - key b) 0 (key b)).
  assert (E1 : (key a - key b + key b == key a)%Q) by ring.
  assert (E2 : (0 + key b == key b)%Q) by ring.
  rewrite E1, E2. reflexivity.
Qed.

Lemma cmp_gt (a b : A) : Qle_bool (cmp a b) 0 = false -> le b a.
Proof.
  intros H. unfold le. destruct (Qlt_le_dec (key b) (key a)) as [Hlt|Hle].
  - apply Qlt_le_weak, Hlt.
  - apply cmp_le in Hle. congruence.
Qed.

Lemma sort_insert_perm (x : A) (l : list A) :
  sort_insert cmp x l ≡ₚ x :: l.
Proof.
  induction l as [|y r IH]; simpl; [done|].
  destruct (Qle_bool (cmp x y) 0); [done|].
  rewrite IH. apply Permutation_swap.
Qed.

Lemma array_sort_perm (l : list A) : array_sort cmp l ≡ₚ l.
Proof.
  induction l as [|x l IH]; simpl; [done|].
  rewrite sort_insert_perm. by rewrite IH.
Qed.

Lemma sort_insert_hdrel (x a : A) (l : list A) :
  le a x -> HdRel le a l -> HdRel le a (sort_insert cmp x l).
Proof.
  intros Hax Hal. destruct l as [|y r]; simpl; [by constructor|].
  destruct (Qle_bool (cmp x y) 0); constructor; [done|].
  by inversion Hal.
Qed.

Lemma sort_insert_sorted (x : A) (l : list A) :
  Sorted le l -> Sorted le (sort_insert cmp x l).
Proof.
  induction 1 as [|y r Hr IH Hhd]; simpl; [by repeat constructor|].
  destruct (Qle_bool (cmp x y) 0) eqn:E.
  - apply cmp_le in E. repeat constructor; done.
  - apply cmp_gt in E. constructor; [done|].
    by apply sort_insert_hdrel.
Qed.

Lemma array_sort_sorted (l : list A) : Sorted le (array_sort cmp l).
Proof.
  induction l as [|x l IH]; simpl; [constructor|].
  by apply sort_insert_sorted.
Qed.

Lemma le_transitive : Transitive le.
Proof. intros a b c. unfold le. apply Qle_trans. Qed.

Lemma array_sort_strongly_sorted (l : list A) :
  StronglySorted le (array_sort cmp l).
Proof.
  apply Sorted_StronglySorted; [apply le_transitive | apply array_sort_sorted].
Qed.

End SortFacts.

Lemma sort_insert_length {A : Type} (cmp : A -> A -> Q) (x : A) (l : list A) :
  length (sort_insert cmp x l) = S (length l).
Proof.
  induction l as [|y r IH]; simpl; [done|].
  destruct (Qle_bool (cmp x y) 0); simpl; [done|]. by rewrite IH.
Qed.

Lemma array_sort_length {A : Type} (cmp : A -> A -> Q) (l : list A) :
  length (array_sort cmp l) = length l.
Proof.
  induction l as [|x l IH]; simpl; [done|].
  by rewrite sort_insert_length, IH.
Qed.

(** ** Paginated transcripts *)

Module PaginationProofs.
Import Pagination.

Lemma segments_ids (l : list Transcript) :
  map seg_id (convertTranscriptsToSegments l) = map id l.
Proof. induction l as [|t l IH]; simpl; [done|]. by rewrite IH. Qed.

Lemma segments_sorted (l : list Transcript) :
  StronglySorted (fun a b => (start_or_zero a <= start_or_zero b)%Q) l ->
  StronglySorted by_start (convertTranscriptsToSegments l).
Proof.
  induction 1 as [|t l Hl IH Hall]; simpl; constructor; [done|].
  apply Forall_forall. intros s Hs.
  apply list_elem_of_In, in_map_iff in Hs as (u & <- & Hu).
  rewrite Forall_forall in Hall. apply (Hall u), list_elem_of_In, Hu.
Qed.

Lemma appendPage_sorted (prev page : list Transcript) :
  StronglySorted (fun a b => (start_or_zero a <= start_or_zero b)%Q)
    (appendPage prev page).
Proof. apply (array_sort_strongly_sorted start_or_zero). Qed.

Lemma appendPage_perm (prev page : list Transcript) :
  appendPage prev page
  ≡ₚ prev ++ filter (fun t => id t ∉ (list_to_set (map id prev) : gset string))
               page.
Proof. apply (array_sort_perm start_or_zero). Qed.

Lemma filter_ids_nodup (P : Transcript -> Prop) `{!forall t, Decision (P t)}
  (page : list Transcript) :
  NoDup (map id page) -> NoDup (map id (filter P page)).
Proof.
  intros Hpage. change (NoDup (id <$> filter P page)).
  eapply sublist_NoDup; [exact Hpage|].
  change (map id page) with (id <$> page).
  apply fmap_sublist, sublist_filter.
Qed.

Lemma appendPage_nodup (prev page : list Transcript) :
  NoDup (map id prev) -> NoDup (map id page) ->
  NoDup (map id (appendPage prev page)).
Proof.
  intros Hprev Hpage.
  change (NoDup (id <$> appendPage prev page)).
  rewrite appendPage_perm, fmap_app. apply NoDup_app. split; [done|]. split.
  - intros x Hx Hx'. apply list_elem_of_fmap in Hx' as (t & -> & Ht).
    apply list_elem_of_filter in Ht as [Hnew _]. apply Hnew.
    by apply elem_of_list_to_set.
  - by apply filter_ids_nodup.
Qed.

Lemma appendPages_nodup (pages : list (list Transcript)) :
  forall prev,
    NoDup (map id prev) -> Forall (fun p => NoDup (map id p)) pages ->
    NoDup (map id (appendPages prev pages)).
Proof.
  induction pages as [|p ps IH]; intros prev Hprev Hall; simpl; [done|].
  inversion Hall; subst. apply IH; [|done]. by apply appendPage_nodup.
Qed.

Lemma appendPages_sorted (pages : list (list Transcript)) :
  forall prev,
    StronglySorted (fun a b => (start_or_zero a <= start_or_zero b)%Q) prev ->
    StronglySorted (fun a b => (start_or_zero a <= start_or_zero b)%Q)
      (appendPages prev pages).
Proof.
  induction pages as [|p ps IH]; intros prev Hprev; simpl; [done|].
  apply IH, appendPage_sorted.
Qed.

(** A [loadMore] whose read resolves appends the page it read. *)
Lemma loadMore_appends (st : PageState) (r : PaginatedTranscriptsResponse) :
  hasMore st = true ->
  transcripts (loadMore (Resolved r) st)
  = appendPage (transcripts st) (r_transcripts r).
Proof. intros H. unfold loadMore. by rewrite H. Qed.

(** C4, as stated, fails: the deduplication only compares an arriving page
    with the list that is already there.  A page that carries one id twice,
    or an existing list that does, keeps both entries. *)
Lemma loadMore_keeps_repeated_id :
  ~ NoDup (map seg_id
             (convertTranscriptsToSegments
                (appendPages [] [[Examples.seg_a; Examples.seg_a]])))
  /\ ~ NoDup (map seg_id
                (convertTranscriptsToSegments
                   (appendPages [Examples.seg_a; Examples.seg_a]
                      [[Examples.seg_b]]))).
Proof.
  split; apply (bool_decide_unpack _); vm_compute; exact I.
Qed.

(** C4 (amended): for every sequence of one or more [loadMore] pages appended
    to an existing transcript list, where neither the existing list nor any
    single page holds the same id twice, the resulting segments are sorted in
    nondecreasing order of audio-relative start time and no two of them share
    an id, whatever the order of the pages and however they overlap with each
    other and with the existing list.  This is what every [loadMore] of the
    hook whose read resolves leaves in [segments]. *)
Theorem loadMore_sorted_without_repeats
  (prev page : list Transcript) (pages : list (list Transcript)) :
  NoDup (map id prev) ->
  Forall (fun p => NoDup (map id p)) (page :: pages) ->
  (StronglySorted by_start
     (convertTranscriptsToSegments (appendPages prev (page :: pages)))
   /\ NoDup (map seg_id
               (convertTranscriptsToSegments
                  (appendPages prev (page :: pages)))))
  /\ (forall st r,
        transcripts st = prev -> r_transcripts r = page ->
        hasMore st = true ->
        StronglySorted by_start (segments (loadMore (Resolved r) st))
        /\ NoDup (map seg_id (segments (loadMore (Resolved r) st)))).
Proof.
  intros Hprev Hpages. split; [split|].
  - apply segments_sorted. simpl. apply appendPages_sorted, appendPage_sorted.
  - rewrite segments_ids. by apply appendPages_nodup.
  - intros st r Hst Hr Hmore. unfold segments.
    rewrite (loadMore_appends st r Hmore), Hst, Hr. split.
    + apply segments_sorted, appendPage_sorted.
    + rewrite segments_ids. apply appendPage_nodup; [done|].
      by inversion Hpages.
Qed.

Lemma loadMore_sorted_without_repeats_witness :
  StronglySorted by_start
    (convertTranscriptsToSegments
       (appendPages [Examples.seg_a]
          [[Examples.seg_b; Examples.seg_a]; [Examples.seg_c; Examples.seg_b]]))
  /\ NoDup (map seg_id
              (convertTranscriptsToSegments
                 (appendPages [Examples.seg_a]
                    [[Examples.seg_b; Examples.seg_a];
                     [Examples.seg_c; Examples.seg_b]]))).
Proof.
  apply (loadMore_sorted_without_repeats [Examples.seg_a]
           [Examples.seg_b; Examples.seg_a]
           [[Examples.seg_c; Examples.seg_b]]).
  - apply (bool_decide_unpack _). vm_compute. exact I.
  - apply (bool_decide_unpack _). vm_compute. exact I.
Defined.

End PaginationProofs.

(** ** The poll registry *)

Module PollingProofs.
Import Api Polling.

Lemma lookup_cleanupIntervals previous (tm : gmap positive Interval) h iv :
  cleanupIntervals previous tm !! h = Some iv <->
  tm !! h = Some iv /\ forall m, previous !! m <> Some h.
Proof.
  unfold cleanupIntervals. rewrite map_lookup_filter_Some. simpl.
  by rewrite not_elem_of_map_img.
Qed.

(** The cleanup of a consistent state clears whatever was live in it. *)
Lemma cleanup_clears_registered (st : PollSys) (tm : gmap positive Interval) :
  consistent st -> tm ⊆ intervals st ->
  cleanupIntervals (rendered st) tm = ∅.
Proof.
  intros (_ & Hrend & Hlive & _) Hsub. rewrite Hrend.
  apply map_empty. intros h.
  destruct (cleanupIntervals _ tm !! h) as [iv|] eqn:E; [|done].
  apply lookup_cleanupIntervals in E as [E Hfree].
  eapply lookup_weaken in E; [|exact Hsub].
  by destruct (Hfree _ (Hlive h iv E)).
Qed.


Lemma render_clearAndRemove (h : positive) (m : string) (st st0 : PollSys) :
  consistent st0 ->
  activeSummaryPolls st = activeSummaryPolls st0 ->
  rendered st = rendered st0 ->
  nextHandle st = nextHandle st0 ->
  delete h (intervals st) ⊆ intervals st0 ->
  render (clearAndRemove h m st)
  = {| activeSummaryPolls := delete m (activeSummaryPolls st0);
       rendered := delete m (activeSummaryPolls st0);
       updated := false; intervals := ∅;
       nextHandle := nextHandle st0 |}.
Proof.
  intros Hst0 HP HR HN Hsub. unfold render, clearAndRemove. simpl.
  rewrite HP, HR, HN. f_equal.
  by apply cleanup_clears_registered.
Qed.

Lemma unregistered_consistent (m : string) (st : PollSys) :
  consistent st ->
  consistent
    {| activeSummaryPolls := delete m (activeSummaryPolls st);
       rendered := delete m (activeSummaryPolls st);
       updated := false; intervals := ∅; nextHandle := nextHandle st |}.
Proof.
  intros (_ & _ & _ & Hbelow). split; [done|]. split; [done|]. split.
  - intros h iv E. simpl in E. by rewrite lookup_empty in E.
  - intros m' h'. simpl. intros [_ E]%lookup_delete_Some.
    by apply (Hbelow m').
Qed.

(** After a start and its render only the new interval is live: the effect
    cleanup has cleared every interval of the previous registry, those of
    other meetings included. *)
Lemma step_start (seen : gmap string positive) (m p : string) (st : PollSys) :
  consistent st ->
  render (startSummaryPollingFrom seen m p st)
  = {| activeSummaryPolls := <[m := nextHandle st]> (activeSummaryPolls st);
       rendered := <[m := nextHandle st]> (activeSummaryPolls st);
       updated := false;
       intervals :=
         {[ nextHandle st := {| i_meetingId := m; pollCount := 0 |} ]};
       nextHandle := Pos.succ (nextHandle st) |}.
Proof.
  intros Hst. pose proof Hst as (_ & Hrend & Hlive & Hbelow).
  unfold render, startSummaryPollingFrom.
  set (st1 := match seen !! m with
              | Some existing => clearInterval existing st
              | None => st
              end).
  assert (H1 : activeSummaryPolls st1 = activeSummaryPolls st
               /\ rendered st1 = rendered st
               /\ nextHandle st1 = nextHandle st
               /\ intervals st1 ⊆ intervals st).
  { unfold st1. destruct (seen !! m); simpl; repeat split; try done.
    apply delete_subseteq. }
  destruct H1 as (HP & HR & HN & Hsub). simpl. rewrite HP, HR, HN. f_equal.
  apply map_eq. intros h. apply option_eq. intros iv.
  rewrite lookup_cleanupIntervals, lookup_singleton_Some, lookup_insert_Some.
  rewrite Hrend. split.
  - intros [[[<- <-]|[Hne Hh]] Hfree]; [done|].
    eapply lookup_weaken in Hh; [|exact Hsub].
    by destruct (Hfree _ (Hlive h iv Hh)).
  - intros [<- <-]. split; [by left|].
    intros m' Hm'. pose proof (Hbelow m' _ Hm'). lia.
Qed.

Lemma start_consistent (seen : gmap string positive) (m p : string)
  (st : PollSys) :
  consistent st -> consistent (render (startSummaryPollingFrom seen m p st)).
Proof.
  intros Hst. rewrite (step_start seen m p st Hst).
  destruct Hst as (_ & _ & _ & Hbelow).
  split; [done|]. split; [done|]. split.
  - intros h iv. simpl. intros [<- <-]%lookup_singleton_Some. simpl.
    apply lookup_insert_eq.
  - intros m' h. simpl. intros E%lookup_insert_Some.
    destruct E as [[_ <-]|[_ E]]; [lia|].
    pose proof (Hbelow m' h E). lia.
Qed.

Lemma step_stop (seen : gmap string positive) (m : string) (st : PollSys)
  (h : positive) :
  consistent st -> seen !! m = Some h ->
  render (stopSummaryPollingFrom seen m st)
  = {| activeSummaryPolls := delete m (activeSummaryPolls st);
       rendered := delete m (activeSummaryPolls st);
       updated := false; intervals := ∅; nextHandle := nextHandle st |}.
Proof.
  intros Hst E. unfold stopSummaryPollingFrom. rewrite E.
  apply (render_clearAndRemove h m st st Hst); try done.
  apply delete_subseteq.
Qed.

Lemma render_consistent (st : PollSys) : consistent st -> render st = st.
Proof. intros (Hupd & _). unfold render. by rewrite Hupd. Qed.

Lemma stop_consistent (seen : gmap string positive) (m : string)
  (st : PollSys) :
  consistent st -> consistent (render (stopSummaryPollingFrom seen m st)).
Proof.
  intros Hst. destruct (seen !! m) as [h|] eqn:E.
  - rewrite (step_stop seen m st h Hst E). by apply unregistered_consistent.
  - unfold stopSummaryPollingFrom. rewrite E.
    by rewrite (render_consistent st Hst).
Qed.

Lemma setPollCount_subseteq (h : positive) (iv : Interval) (count : nat)
  (st : PollSys) :
  delete h (intervals (setPollCount h iv count st)) ⊆ intervals st.
Proof. simpl. rewrite delete_insert_eq. apply delete_subseteq. Qed.

(** A firing that ends the loop, and its render. *)
Lemma step_ending_tick (h : positive) api (st : PollSys) (iv : Interval) :
  consistent st ->
  intervals st !! h = Some iv ->
  terminates (S (pollCount iv)) api = true ->
  render (tick h api st).1
  = {| activeSummaryPolls := delete (i_meetingId iv) (activeSummaryPolls st);
       rendered := delete (i_meetingId iv) (activeSummaryPolls st);
       updated := false; intervals := ∅; nextHandle := nextHandle st |}.
Proof.
  intros Hst Hh Hterm.
  assert (Hend : (tick h api st).1
                 = clearAndRemove h (i_meetingId iv)
                     (setPollCount h iv (S (pollCount iv)) st)).
  { unfold tick. rewrite Hh. unfold terminates in Hterm.
    destruct (MAX_POLLS <=? S (pollCount iv))%nat; [done|].
    destruct api as [result|e]; [|done]. simpl in Hterm.
    destruct (stops_polling (status result)); [done|]. simpl in Hterm.
    by rewrite Hterm. }
  rewrite Hend.
  apply (render_clearAndRemove h _ _ st Hst); try done.
  apply setPollCount_subseteq.
Qed.

(** A firing that does not end the loop only counts. *)
Lemma continuing_tick (h : positive) api (st : PollSys) (iv : Interval) :
  intervals st !! h = Some iv ->
  terminates (S (pollCount iv)) api = false ->
  (tick h api st).1 = setPollCount h iv (S (pollCount iv)) st.
Proof.
  intros Hh Hterm. unfold tick. rewrite Hh. unfold terminates in Hterm.
  apply orb_false_iff in Hterm as [Hmax Hterm]. rewrite Hmax.
  destruct api as [result|e]; [|done].
  apply orb_false_iff in Hterm as [Hstop Hidle]. by rewrite Hstop, Hidle.
Qed.

Lemma setPollCount_consistent (h : positive) (iv : Interval) (count : nat)
  (st : PollSys) :
  consistent st -> intervals st !! h = Some iv ->
  consistent (setPollCount h iv count st).
Proof.
  intros (Hupd & Hrend & Hlive & Hbelow) Hh.
  split; [done|]. split; [done|]. split; [|done].
  intros h' iv'. simpl. destruct (decide (h' = h)) as [->|Hne].
  - rewrite lookup_insert_eq. intros [= <-]. simpl. by apply Hlive.
  - rewrite lookup_insert_ne by done. apply Hlive.
Qed.

Lemma tick_consistent (h : positive) api (st : PollSys) :
  consistent st -> consistent (render (tick h api st).1).
Proof.
  intros Hst. destruct (intervals st !! h) as [iv|] eqn:Hh.
  - destruct (terminates (S (pollCount iv)) api) eqn:Hterm.
    + rewrite (step_ending_tick h api st iv Hst Hh Hterm).
      by apply unregistered_consistent.
    + rewrite (continuing_tick h api st iv Hh Hterm).
      pose proof (setPollCount_consistent h iv (S (pollCount iv)) st Hst Hh)
        as Hc.
      by rewrite (render_consistent _ Hc).
  - unfold tick. rewrite Hh. cbn [fst].
    by rewrite (render_consistent st Hst).
Qed.

Lemma reachable_consistent (st : PollSys) : reachable st -> consistent st.
Proof.
  induction 1 as [|op st Hreach IH].
  - split; [done|]. split; [done|].
    split; intros ? ? E; simpl in E; by rewrite lookup_empty in E.
  - destruct op; unfold step, startSummaryPolling, stopSummaryPolling;
      auto using start_consistent, stop_consistent, tick_consistent.
Qed.

Lemma ends_loop_terminates (count : nat) (api : outcome SummaryResponse) :
  (exists e, api = Rejected e)
  \/ (exists r,
        api = Resolved r
        /\ (status r = "completed" \/ status r = "error"
            \/ status r = "failed" \/ status r = "cancelled"
            \/ (status r = "idle" /\ 1 <= count)))
  \/ MAX_POLLS <= S count ->
  terminates (S count) api = true.
Proof.
  unfold terminates, stops_polling.
  intros [[e ->]|[(r & -> & Hs)|Hmax]].
  - apply orb_true_r.
  - apply orb_true_iff. right.
    destruct Hs as [->|[->|[->|[->|[-> Hc]]]]]; try reflexivity.
    simpl. apply Nat.ltb_lt. lia.
  - apply orb_true_iff. left. by apply Nat.leb_le.
Qed.




(** The effect cleanup at work: a poll started for a second meeting clears
    the interval of the first, whose registry entry stays until the next
    start or stop for it. *)
Lemma second_meeting_clears_first :
  let st := step (OpStart "m-2" "p-2") Examples.one_poll in
  intervals Examples.one_poll !! 1%positive
  = Some {| i_meetingId := "m-1"; pollCount := 0 |}
  /\ intervals st !! 1%positive = None
  /\ activeSummaryPolls st !! "m-1" = Some 1%positive
  /\ intervals st !! 2%positive
     = Some {| i_meetingId := "m-2"; pollCount := 0 |}.
Proof. vm_compute. repeat split. Qed.

(** *** The poll limit *)

Lemma firing_dead (h : positive) api (st : PollSys) :
  updated st = false -> intervals st !! h = None ->
  firing h api st = (st, []).
Proof.
  intros Hupd E. unfold firing, tick, render. by rewrite E, Hupd.
Qed.

Lemma ticks_dead (h : positive) apis (st : PollSys) :
  updated st = false -> intervals st !! h = None ->
  ticks h apis st = (st, []).
Proof.
  intros Hupd E. induction apis as [|api rest IH]; simpl; [done|].
  by rewrite firing_dead, IH.
Qed.







End PollingProofs.

(** ** The summary hook *)

Module SummaryProofs.
Import Api SummaryGeneration.

Lemma storedInfo_has (reload : outcome (option SummaryResponse))
  (d : SummaryData) :
  storedInfo reload = HasSummary d ->
  exists x, reload = Resolved x /\ reloaded_data (Resolved x) = Some d.
Proof.
  destruct reload as [x|e]; [|done]. unfold storedInfo.
  destruct (reloaded_data (Resolved x)) as [d'|] eqn:E; [|done].
  intros [= <-]. by exists x.
Qed.

Lemma failed_status (pollingResult : SummaryResponse) :
  status pollingResult = "error" \/ status pollingResult = "failed" ->
  String.eqb (status pollingResult) "cancelled" = false
  /\ (String.eqb (status pollingResult) "error"
      || String.eqb (status pollingResult) "failed") = true.
Proof. intros [-> | ->]; by split. Qed.

(** The restoring path of the error branch. *)
Lemma onFailed_restores (props : Props)
  (reload : outcome (option SummaryResponse))
  (pollingResult : SummaryResponse) (st : UiState) (d : SummaryData) :
  storedInfo reload = HasSummary d ->
  onFailed props true reload pollingResult st
  = {| after := setSummaryError None
         (setSummaryStatus Completed
            (setAiSummary (Some (StoredSummary d)) st));
       effects :=
         [ConsoleError "Backend returned error:";
          Invoke "api_get_summary" (meetingId props);
          ToastError "要約の再生成に失敗しました"
            (or_default (error pollingResult) (failureTitle true)
             +:+ restoredSuffix);
          TrackCompleted false
            (Some (or_default (error pollingResult) (failureTitle true)))];
       thrown := None |}.
Proof.
  intros (x & -> & Hd)%storedInfo_has. unfold onFailed. by rewrite Hd.
Qed.

(** Without a summary from the reload the error branch ends in the
    ordinary error state. *)
Lemma onFailed_reports (props : Props) (isRegeneration : bool)
  (reload : outcome (option SummaryResponse))
  (pollingResult : SummaryResponse) (st : UiState) :
  isRegeneration = false \/ reloaded_data reload = None ->
  let r := onFailed props isRegeneration reload pollingResult st in
  summaryStatus (after r) = Error
  /\ summaryError (after r)
     = Some (or_default (error pollingResult) (failureTitle isRegeneration))
  /\ aiSummary (after r) = aiSummary st
  /\ meetingTitle (after r) = meetingTitle st
  /\ thrown r = None.
Proof.
  intros Hno. unfold onFailed. destruct isRegeneration.
  - destruct Hno as [|Hno]; [done|].
    destruct reload as [existing|e]; [rewrite Hno|]; done.
  - done.
Qed.

(** A regeneration that gets its process id registers a poll whose
    callback closes over [isRegeneration = true]. *)
Lemma regeneration_registers (props : Props) (pid : string) (app : App) :
  Polling.consistent (polls app) ->
  truthy_str (trim (originalTranscript (ui app))) = true ->
  let app1 := (handleRegenerateSummary props (Resolved pid) app).1 in
  let h := Polling.nextHandle (polls app) in
  runs app1 !! h = Some true
  /\ Polling.intervals (polls app1) !! h
     = Some {| Polling.i_meetingId := meetingId props;
               Polling.pollCount := 0 |}
  /\ summaryStatus (ui app1) = Regenerating.
Proof.
  intros Hst Htext app1 h. unfold app1, h, handleRegenerateSummary.
  rewrite Htext. cbn [negb]. unfold processSummary. rewrite Htext.
  cbn [negb fst runs polls ui]. split; [apply lookup_insert_eq|]. split.
  - unfold Polling.step, Polling.startSummaryPolling.
    rewrite (PollingProofs.step_start _ _ _ _ Hst).
    apply lookup_singleton_eq.
  - reflexivity.
Qed.

(** C1, as stated, fails: with the prior summary on display and in the
    database, a regeneration that fails while the reload call itself is
    rejected ends in status ['error'] with the error in the state; the
    summary is not reloaded and the status is not ['completed']. *)
Lemma regeneration_reload_rejected_goes_error :
  let reload : outcome (option SummaryResponse) :=
    Rejected (OtherValue "ipc channel closed") in
  let r := onUpdate Examples.props1 true reload Examples.failed_answer
             Examples.regenerating in
  aiSummary Examples.regenerating = Some (StoredSummary Examples.prior)
  /\ summaryStatus (after r) = Error
  /\ summaryError (after r) = Some "LLM unreachable"
  /\ summaryStatus (after r) <> Completed.
Proof. repeat split. discriminate. Qed.

(** C1 (amended): when the callback of a regeneration is handed a status
    of ['error'] or ['failed'] and the reload through [api_get_summary]
    answers with the stored summary, that summary is displayed, the status is
    ['completed'], the error is cleared and shown only in a toast; the only
    command sent to the backend is the read, so nothing stored is touched.
    The same holds when the status reaches the callback through a firing of
    the poll interval of a regeneration, and [handleRegenerateSummary]
    registers such an interval.  When the reload answers without a summary or
    is rejected, the status is ['error'] with the message and the summary on
    display stays as it was. *)
Theorem regeneration_failure_restores (props : Props)
  (reload : outcome (option SummaryResponse))
  (pollingResult : SummaryResponse) (d : SummaryData) :
  status pollingResult = "error" \/ status pollingResult = "failed" ->
  storedInfo reload = HasSummary d ->
  (forall st,
      let r := onUpdate props true reload pollingResult st in
      aiSummary (after r) = Some (StoredSummary d)
      /\ summaryStatus (after r) = Completed
      /\ summaryError (after r) = None
      /\ effects r
         = [ConsoleError "Backend returned error:";
            Invoke "api_get_summary" (meetingId props);
            ToastError "要約の再生成に失敗しました"
              (or_default (error pollingResult) (failureTitle true)
               +:+ restoredSuffix);
            TrackCompleted false
              (Some (or_default (error pollingResult) (failureTitle true)))]
      /\ thrown r = None)
  /\ (forall app h iv,
        runs app !! h = Some true ->
        Polling.intervals (polls app) !! h = Some iv ->
        S (Polling.pollCount iv) < Polling.MAX_POLLS ->
        let app' := (fire props h (Resolved pollingResult) reload app).1 in
        aiSummary (ui app') = Some (StoredSummary d)
        /\ summaryStatus (ui app') = Completed
        /\ summaryError (ui app') = None)
  /\ (forall app pid,
        Polling.reachable (polls app) ->
        truthy_str (trim (originalTranscript (ui app))) = true ->
        let app1 := (handleRegenerateSummary props (Resolved pid) app).1 in
        let h := Polling.nextHandle (polls app) in
        runs app1 !! h = Some true
        /\ Polling.intervals (polls app1) !! h
           = Some {| Polling.i_meetingId := meetingId props;
                     Polling.pollCount := 0 |})
  /\ (forall other st,
        storedInfo other = NoSummary \/ storedInfo other = Unknown ->
        let r := onUpdate props true other pollingResult st in
        summaryStatus (after r) = Error
        /\ summaryError (after r)
           = Some (or_default (error pollingResult) (failureTitle true))
        /\ aiSummary (after r) = aiSummary st).
Proof.
  intros Hstatus Hstored.
  destruct (failed_status pollingResult Hstatus) as [Hc Hf].
  split; [|split; [|split]].
  - intros st r. unfold r, onUpdate. rewrite Hc, Hf.
    by rewrite (onFailed_restores props reload pollingResult st d Hstored).
  - intros app h iv Hrun Hh Hcount app'.
    unfold app', fire, Polling.firing, Polling.tick.
    rewrite Hh, Hrun.
    assert (Hmax : (Polling.MAX_POLLS <=? S (Polling.pollCount iv))%nat
                   = false) by (apply Nat.leb_gt; lia).
    rewrite Hmax.
    assert (Hstop : Polling.stops_polling (status pollingResult) = true)
      by (destruct Hstatus as [-> | ->]; reflexivity).
    rewrite Hstop. cbn [foldl deliver fst after effects ui default].
    unfold onUpdate. rewrite Hc, Hf.
    by rewrite (onFailed_restores props reload pollingResult _ d Hstored).
  - intros app pid Hreach Htext app1 h.
    destruct (regeneration_registers props pid app
                (PollingProofs.reachable_consistent _ Hreach) Htext)
      as (H1 & H2 & _).
    by split.
  - intros other st Hother r. unfold r, onUpdate. rewrite Hc, Hf.
    assert (Hno : reloaded_data other = None).
    { unfold storedInfo in Hother. destruct other as [x|e]; [|done].
      destruct (reloaded_data (Resolved x)); [|done].
      by destruct Hother. }
    destruct (onFailed_reports props true other pollingResult st
                (or_intror Hno)) as (H1 & H2 & H3 & _).
    by repeat split.
Qed.

Lemma regeneration_failure_restores_witness :
  let r := onUpdate Examples.props1 true
             (Resolved (Some Examples.prior_answer)) Examples.failed_answer
             Examples.regenerating in
  aiSummary (after r) = Some (StoredSummary Examples.prior)
  /\ summaryStatus (after r) = Completed
  /\ summaryError (after r) = None.
Proof.
  destruct (regeneration_failure_restores Examples.props1
              (Resolved (Some Examples.prior_answer)) Examples.failed_answer
              Examples.prior) as (Hcb & _ & _).
  - right. reflexivity.
  - reflexivity.
  - destruct (Hcb Examples.regenerating) as (H1 & H2 & H3 & _).
    repeat split; assumption.
Defined.

(** C5, as stated, fails: the status also returns to ['idle'] when the
    reload call itself is rejected, in which case nothing is known about the
    stored summary and the one on display stays as it was. *)
Lemma cancelled_reload_rejected_goes_idle :
  let reload : outcome (option SummaryResponse) :=
    Rejected (OtherValue "ipc channel closed") in
  let r := onUpdate Examples.props1 true reload Examples.cancelled_answer
             Examples.regenerating in
  summaryStatus (after r) = Idle
  /\ storedInfo reload = Unknown
  /\ storedInfo reload <> NoSummary.
Proof. repeat split. discriminate. Qed.

(** C5 (amended): when the callback is handed the status ['cancelled'] it
    reloads the summary; if the reload answers with the stored summary, that
    summary is displayed with status ['completed'] and a cleared error, and
    the only command sent to the backend is the read; the status returns to
    ['idle'] exactly when the reload answers without a summary or is
    rejected, and the error is cleared in every case. *)
Theorem cancelled_restores_or_idles (props : Props) (isRegeneration : bool)
  (reload : outcome (option SummaryResponse))
  (pollingResult : SummaryResponse) (st : UiState) :
  status pollingResult = "cancelled" ->
  let r := onUpdate props isRegeneration reload pollingResult st in
  (forall d,
      storedInfo reload = HasSummary d ->
      aiSummary (after r) = Some (StoredSummary d)
      /\ summaryStatus (after r) = Completed
      /\ effects r = [Invoke "api_get_summary" (meetingId props)])
  /\ (summaryStatus (after r) = Idle <->
      storedInfo reload = NoSummary \/ storedInfo reload = Unknown)
  /\ (storedInfo reload = NoSummary \/ storedInfo reload = Unknown ->
      aiSummary (after r) = aiSummary st)
  /\ summaryError (after r) = None
  /\ thrown r = None.
Proof.
  intros Hs r. unfold r, onUpdate. rewrite Hs. cbn [String.eqb].
  change (String.eqb "cancelled" "cancelled") with true. cbn iota.
  unfold onCancelled, storedInfo.
  destruct reload as [x|e].
  - destruct (reloaded_data (Resolved x)) as [d'|] eqn:E; simpl.
    + split; [by intros d [= <-]|].
      split; [split; [done | by intros [?|?]]|].
      split; [by intros [?|?] | done].
    + split; [done|]. split; [split; [by left | done]|]. done.
  - simpl. split; [done|]. split; [split; [by right | done]|]. done.
Qed.

Lemma cancelled_restores_or_idles_witness :
  let r := onUpdate Examples.props1 true
             (Resolved (Some Examples.prior_answer)) Examples.cancelled_answer
             Examples.regenerating in
  summaryError (after r) = None /\ thrown r = None.
Proof.
  destruct (cancelled_restores_or_idles Examples.props1 true
              (Resolved (Some Examples.prior_answer))
              Examples.cancelled_answer Examples.regenerating)
    as (_ & _ & _ & H4 & H5).
  - reflexivity.
  - split; assumption.
Defined.

Lemma every_noBlocks_scalars (d : SummaryData) :
  every_noBlocks (summarySections d) = every_noBlocks (properties d).
Proof.
  unfold summarySections.
  destruct (markdown d), (_section_order d); reflexivity.
Qed.

Lemma every_noBlocks_vacuous (sections : list (string * JValue)) :
  forallb (fun kv => isVacuousSection kv.2) sections = true ->
  every_noBlocks sections = Some true.
Proof.
  induction sections as [|[k v] rest IH]; simpl; [done|].
  intros [Hv Hrest]%andb_true_iff. rewrite <- (IH Hrest).
  destruct v as [| |t [[[|b bs]|truthy]|]]; done.
Qed.

(** C9: a result that completes with data and without markdown, all of
    whose sections have no blocks or an empty list of blocks, sets the status
    to ['error'] with the message for empty content; no summary is set and
    the completion is tracked as a failure. *)
Theorem vacuous_legacy_result_is_error (props : Props)
  (isRegeneration : bool) (reload : outcome (option SummaryResponse))
  (pollingResult : SummaryResponse) (d : SummaryData) (st : UiState) :
  status pollingResult = "completed" ->
  data pollingResult = Some d ->
  truthy_ostr (markdown d) = false ->
  forallb (fun kv => isVacuousSection kv.2) (properties d) = true ->
  let r := onUpdate props isRegeneration reload pollingResult st in
  summaryStatus (after r) = Error
  /\ summaryError (after r) = Some emptyContentMessage
  /\ aiSummary (after r) = aiSummary st
  /\ effects r
     = [ConsoleError "Summary completed but all sections empty";
        TrackCompleted false (Some "Empty summary generated")]
  /\ thrown r = None.
Proof.
  intros Hs Hd Hmd Hvac r. unfold r, onUpdate. rewrite Hs, Hd.
  change (String.eqb "completed" "cancelled") with false.
  change (String.eqb "completed" "error") with false.
  change (String.eqb "completed" "failed") with false.
  change (String.eqb "completed" "completed") with true. cbn iota.
  cbn [orb]. unfold onCompleted. rewrite Hmd.
  rewrite every_noBlocks_scalars, (every_noBlocks_vacuous _ Hvac).
  repeat split.
  simpl. by destruct (truthy_ostr (if truthy_ostr (MeetingName d) then _ else _)).
Qed.

Lemma vacuous_legacy_result_is_error_witness :
  summaryStatus
    (after (onUpdate Examples.props1 false (Rejected (OtherValue "unused"))
              Examples.vacuous_answer Examples.regenerating)) = Error.
Proof.
  apply (vacuous_legacy_result_is_error Examples.props1 false
           (Rejected (OtherValue "unused")) Examples.vacuous_answer
           Examples.vacuous Examples.regenerating); reflexivity.
Defined.

(** What [handleStopGeneration] does whatever becomes of the
    cancellation: the request is sent first, the status is ['idle'] and the
    error cleared.  The poll is stopped when the render the handler was
    created in had the meeting registered; otherwise the registry and the
    intervals stay as they were. *)
Lemma stop_generation_idles (props : Props) (seen : gmap string positive)
  (cancel : outcome unit) (app : App) :
  Polling.reachable (polls app) ->
  let r := handleStopGeneration props seen cancel app in
  summaryStatus (ui r.1) = Idle
  /\ summaryError (ui r.1) = None
  /\ head r.2 = Some (Invoke "api_cancel_summary" (meetingId props))
  /\ (is_Some (seen !! meetingId props) ->
      Polling.activeSummaryPolls (polls r.1) !! meetingId props = None
      /\ Polling.intervals (polls r.1) = ∅)
  /\ (seen !! meetingId props = None -> polls r.1 = polls app).
Proof.
  intros Hreach r.
  pose proof (PollingProofs.reachable_consistent _ Hreach) as Hst.
  unfold r, handleStopGeneration. cbn [fst snd ui polls].
  split; [done|]. split; [done|]. split; [by destruct cancel|].
  unfold Polling.step. split.
  - intros [h E]. rewrite (PollingProofs.step_stop seen _ _ h Hst E). simpl.
    split; [apply lookup_delete_eq|done].
  - intros E. unfold Polling.stopSummaryPollingFrom. rewrite E.
    by apply PollingProofs.render_consistent.
Qed.

(** C10: the code misses what the claim says when the handler runs from a
    render that preceded the registration of the poll (the stop was pressed
    while [api_process_transcript] was in flight, or the registration came
    during the await of [api_cancel_summary]): the [stopSummaryPolling] it
    calls finds no entry and does nothing.  The status is ['idle'] and the
    error cleared, but the meeting stays registered with its interval live,
    and the next firing polls the backend and moves the status on. *)
Theorem stop_before_registration_keeps_polling :
  let stopped :=
    (handleStopGeneration Examples.props1 ∅
       (Rejected (ErrorObj "backend not running"))
       Examples.regenerating_app).1 in
  let later :=
    fire Examples.props1 1%positive (Resolved Examples.prior_answer)
      (Resolved None) stopped in
  Polling.rendered (polls Examples.regenerating_app) !! "m-1"
  = Some 1%positive
  /\ summaryStatus (ui stopped) = Idle
  /\ summaryError (ui stopped) = None
  /\ Polling.activeSummaryPolls (polls stopped) !! "m-1" = Some 1%positive
  /\ Polling.intervals (polls stopped) !! 1%positive
     = Some {| Polling.i_meetingId := "m-1"; Polling.pollCount := 0 |}
  /\ effects later.2
     = [Invoke "api_get_summary" "m-1";
        ToastSuccess successTitle successDescription;
        CallOnMeetingUpdated; TrackCompleted true None]
  /\ summaryStatus (ui later.1) = Completed.
Proof. vm_compute. repeat split. Qed.

End SummaryProofs.

(** ** Transcript recovery *)

Module RecoveryProofs.
Import Recovery.

(** *** The scan *)

Lemma withAudioStatus_key check (m : MeetingMetadata) :
  meetingId (withAudioStatus check m) = meetingId m
  /\ lastUpdated (withAudioStatus check m) = lastUpdated m.
Proof.
  unfold withAudioStatus. destruct (folderPath m) as [p|]; [|done].
  destruct (truthy_str p); [|done]. by destruct (check p).
Qed.

Lemma keepMeeting_key now ss (m m' : MeetingMetadata) :
  meetingId m' = meetingId m -> lastUpdated m' = lastUpdated m ->
  keepMeeting now ss m' = keepMeeting now ss m.
Proof.
  intros Hid Hlu. unfold keepMeeting, justSaved, stopInProgress.
  by rewrite Hid, Hlu.
Qed.

Lemma listed_iff_keep (env : ScanEnv) ss st meetings (m : MeetingMetadata) :
  getAllMeetings env = Resolved meetings -> In m meetings ->
  listed m (checkForRecoverableTranscripts env ss st)
  = keepMeeting (now env) ss m.
Proof.
  intros Hget Hin. unfold listed, checkForRecoverableTranscripts.
  rewrite Hget. cbn [scanned recoverableMeetings].
  apply eq_true_iff_eq. rewrite existsb_exists. split.
  - intros (w & Hw & Heq). apply in_map_iff in Hw as (m' & <- & Hm').
    apply filter_In in Hm' as [_ Hkeep].
    apply andb_true_iff in Heq as [Hid Hlu].
    apply String.eqb_eq in Hid. apply Z.eqb_eq in Hlu.
    destruct (withAudioStatus_key (has_audio_checkpoints env) m') as [E1 E2].
    rewrite E1 in Hid. rewrite E2 in Hlu.
    by rewrite <- (keepMeeting_key _ _ m m' Hid Hlu).
  - intros Hkeep. exists (withAudioStatus (has_audio_checkpoints env) m).
    split.
    + apply in_map, filter_In. by split.
    + destruct (withAudioStatus_key (has_audio_checkpoints env) m) as [-> ->].
      by rewrite String.eqb_refl, Z.eqb_refl.
Qed.

Lemma keepMeeting_spec now ss (m : MeetingMetadata) :
  keepMeeting now ss m = true <->
  (now - RETENTION_MS < lastUpdated m < now - MIN_AGE_MS)%Z
  /\ justSaved ss m = false /\ stopInProgress now ss m = false.
Proof.
  unfold keepMeeting.
  destruct (justSaved ss m); [intuition discriminate|].
  destruct (stopInProgress now ss m); [intuition discriminate|].
  rewrite andb_true_iff, !Z.ltb_lt. intuition.
Qed.

(** C2, as stated, fails on its last example: a checkpoint between the two
    bounds with no just-saved marker is still left out while a stop is
    flagged as in progress and the checkpoint is younger than two minutes. *)
Lemma between_bounds_not_listed :
  let r := checkForRecoverableTranscripts Examples.scan_env
             Examples.stop_markers Examples.fresh_hook in
  (Examples.scan_now - RETENTION_MS < lastUpdated Examples.minute_old
   < Examples.scan_now - MIN_AGE_MS)%Z
  /\ Examples.stop_markers !! "just_saved_meeting_id" = None
  /\ listed Examples.minute_old r = false.
Proof. vm_compute. repeat split. Qed.

(** C2 (amended): a stored session is listed exactly when
    [now - 7 days < lastUpdated < now - 15 s], it is not the just-saved
    meeting, and it is not younger than two minutes while a stop is flagged
    as in progress.  In particular a checkpoint ten seconds old is never
    listed, one older than eight days is never listed, and one strictly
    between the bounds with no just-saved marker and outside the stop window
    is listed. *)
Theorem recoverable_exactly_when (env : ScanEnv) (ss : gmap string string)
  (st : HookState) (meetings : list MeetingMetadata) (m : MeetingMetadata) :
  getAllMeetings env = Resolved meetings -> In m meetings ->
  let r := checkForRecoverableTranscripts env ss st in
  let age := (now env - lastUpdated m)%Z in
  (listed m r = true <->
   (now env - RETENTION_MS < lastUpdated m < now env - MIN_AGE_MS)%Z
   /\ justSaved ss m = false /\ stopInProgress (now env) ss m = false)
  /\ (age = 10 * 1000 -> listed m r = false)%Z
  /\ (8 * 24 * 60 * 60 * 1000 < age -> listed m r = false)%Z
  /\ ((MIN_AGE_MS < age < RETENTION_MS)%Z ->
      ss !! "just_saved_meeting_id" = None ->
      stopInProgress (now env) ss m = false ->
      listed m r = true).
Proof.
  intros Hget Hin r age. unfold r.
  rewrite (listed_iff_keep env ss st meetings m Hget Hin).
  split; [apply keepMeeting_spec|].
  unfold age, MIN_AGE_MS, RETENTION_MS. repeat split.
  - intros Hage. apply not_true_is_false.
    intros [Hb _]%keepMeeting_spec. unfold MIN_AGE_MS in Hb. lia.
  - intros Hage. apply not_true_is_false.
    intros [Hb _]%keepMeeting_spec. unfold RETENTION_MS in Hb. lia.
  - intros Hage Hsaved Hstop. apply keepMeeting_spec.
    unfold MIN_AGE_MS, RETENTION_MS, justSaved. rewrite Hsaved.
    repeat split; try done; lia.
Qed.

Lemma recoverable_exactly_when_witness :
  listed Examples.minute_old
    (checkForRecoverableTranscripts Examples.scan_env ∅ Examples.fresh_hook)
  = true.
Proof.
  apply (recoverable_exactly_when Examples.scan_env ∅ Examples.fresh_hook
           [Examples.minute_old] Examples.minute_old).
  - reflexivity.
  - left. reflexivity.
  - vm_compute. split; reflexivity.
  - reflexivity.
  - vm_compute. reflexivity.
Defined.

Lemma audioChecks_in (candidates : list MeetingMetadata)
  (c : MeetingMetadata) (p : string) :
  In c candidates -> folderPath c = Some p -> p <> "" ->
  In p (audioChecks candidates).
Proof.
  intros Hin Hp Hne. unfold audioChecks. apply list_elem_of_In.
  apply list_elem_of_omap. exists c. split; [by apply list_elem_of_In|].
  rewrite Hp. by destruct p.
Qed.

(** The entry the scan lists for a candidate: the candidate itself, but
    for the folder path. *)
Lemma withAudioStatus_fields check (c : MeetingMetadata) :
  meetingId (withAudioStatus check c) = meetingId c
  /\ title (withAudioStatus check c) = title c
  /\ startTime (withAudioStatus check c) = startTime c
  /\ lastUpdated (withAudioStatus check c) = lastUpdated c
  /\ transcriptCount (withAudioStatus check c) = transcriptCount c.
Proof.
  unfold withAudioStatus. destruct (folderPath c) as [p|]; [|done].
  destruct (truthy_str p); [|done]. by destruct (check p) as [[|]|].
Qed.

Lemma withAudioStatus_folder check (c : MeetingMetadata) (p : string) :
  folderPath c = Some p -> p <> "" ->
  folderPath (withAudioStatus check c)
  = match check p with
    | Resolved true => Some p
    | Resolved false => None
    | Rejected _ => None
    end.
Proof.
  intros Hp Hne. unfold withAudioStatus. rewrite Hp.
  destruct p as [|a p']; [done|]. cbn [truthy_str].
  by destruct (check _) as [[|]|].
Qed.

(** C8: every candidate of the scan stays in the list, in order, whatever
    the audio check says: the list has one entry per candidate, at the
    candidate's place, with the candidate's id, title, times and transcript
    count.  For a candidate with a recorded folder path
    [has_audio_checkpoints] is invoked on that path, and the folder path of
    its entry is that path when the check answers true and is cleared when
    the check answers false or is rejected; the entry of a candidate without
    folder path has none. *)
Theorem audio_absence_is_reported (env : ScanEnv) (ss : gmap string string)
  (st : HookState) (meetings : list MeetingMetadata) :
  getAllMeetings env = Resolved meetings ->
  let r := checkForRecoverableTranscripts env ss st in
  let candidates := recentMeetings (now env) ss meetings in
  map meetingId (recoverableMeetings (scanned r)) = map meetingId candidates
  /\ (forall c p,
        In c candidates -> folderPath c = Some p -> p <> "" ->
        In p (checked r)
        /\ In (setFolderPath
                 (match has_audio_checkpoints env p with
                  | Resolved true => Some p
                  | Resolved false => None
                  | Rejected _ => None
                  end) c)
              (recoverableMeetings (scanned r)))
  /\ (forall c,
        In c candidates -> folderPath c = None ->
        In c (recoverableMeetings (scanned r)))
  /\ length (recoverableMeetings (scanned r)) = length candidates
  /\ (forall i c,
        nth_error candidates i = Some c ->
        exists entry,
          nth_error (recoverableMeetings (scanned r)) i = Some entry
          /\ meetingId entry = meetingId c
          /\ title entry = title c
          /\ startTime entry = startTime c
          /\ lastUpdated entry = lastUpdated c
          /\ transcriptCount entry = transcriptCount c
          /\ (folderPath c = None -> folderPath entry = None)
          /\ (forall p,
                folderPath c = Some p -> p <> "" ->
                (has_audio_checkpoints env p = Resolved true ->
                 folderPath entry = Some p)
                /\ (has_audio_checkpoints env p = Resolved false ->
                    folderPath entry = None)
                /\ (forall e,
                      has_audio_checkpoints env p = Rejected e ->
                      folderPath entry = None))).
Proof.
  intros Hget r candidates. unfold r, checkForRecoverableTranscripts.
  rewrite Hget. cbn [scanned recoverableMeetings checked].
  fold candidates. split; [|split; [|split; [|split]]].
  - rewrite map_map. apply map_ext. intros c.
    apply (withAudioStatus_key (has_audio_checkpoints env) c).
  - intros c p Hin Hp Hne. split; [by apply (audioChecks_in _ c)|].
    apply in_map_iff. exists c. split; [|done].
    unfold withAudioStatus. rewrite Hp.
    destruct p as [|a p']; [done|]. cbn [truthy_str].
    by destruct (has_audio_checkpoints env _) as [[|]|].
  - intros c Hin Hp. apply in_map_iff. exists c. split; [|done].
    unfold withAudioStatus. by rewrite Hp.
  - apply length_map.
  - intros i c Hi.
    exists (withAudioStatus (has_audio_checkpoints env) c).
    split; [by apply map_nth_error|].
    destruct (withAudioStatus_fields (has_audio_checkpoints env) c)
      as (H1 & H2 & H3 & H4 & H5).
    repeat (split; [assumption|]). split.
    + intros Hnone. unfold withAudioStatus. by rewrite Hnone.
    + intros p Hp Hne.
      rewrite (withAudioStatus_folder _ c p Hp Hne).
      split; [by intros ->|]. split; [by intros ->|]. by intros e ->.
Qed.

Lemma audio_absence_is_reported_witness :
  map meetingId
    (recoverableMeetings
       (scanned (checkForRecoverableTranscripts Examples.scan_env ∅
                   Examples.fresh_hook)))
  = map meetingId
      (recentMeetings Examples.scan_now ∅ [Examples.minute_old]).
Proof.
  apply (audio_absence_is_reported Examples.scan_env ∅ Examples.fresh_hook
           [Examples.minute_old]).
  reflexivity.
Defined.

(** *** recoverMeeting *)

Ltac reduce_world :=
  cbn beta iota zeta delta [fst snd hook markedSaved permanent calls
    setIsRecovering removeRecoverable commit mark_saved
    recoverableMeetings isLoading isRecovering length Nat.eqb].

Ltac run_recovery :=
  unfold recoverMeeting, recoverSteps, loadMeetingTranscripts, andThen,
    tryCatch, finally, await, update, pure, throw;
  reduce_world.

Ltac split_tests :=
  repeat match goal with
         | |- context [if ?b then _ else _] => destruct b eqn:?; reduce_world
         | |- context [truthy_path ?p] =>
             destruct (truthy_path p) eqn:?; reduce_world
         end.

Ltac new_calls :=
  unfold newCalls; reduce_world; rewrite <- ?app_assoc, ?drop_app_length;
  cbn [app existsb isMarkMeetingSaved orb andb markedOnlyAfterSave].

Lemma recoverMeeting_succeeds (env : RecoverEnv) (meeting : string)
  (w : World) :
  healthy env ->
  (exists res,
      (recoverMeeting env meeting w).1 = Resolved res /\ success res = true)
  /\ meeting ∈ markedSaved (recoverMeeting env meeting w).2
  /\ existsb isMarkMeetingSaved
       (newCalls w (recoverMeeting env meeting w).2) = true.
Proof.
  intros ((metadata & Emeta) & (t & ts & Ets) & (sid & Esave) & Emark).
  run_recovery. rewrite Emeta, Ets, Esave, Emark. reduce_world.
  pose proof (array_sort_length bySequenceId (t :: ts)) as Hlen.
  destruct (array_sort bySequenceId (t :: ts)) as [|t' ts'] eqn:Esort;
    [done|]. reduce_world.
  destruct (get_meeting_folder_path env) as [fp|?];
    destruct (recover_audio_from_checkpoints env) as [audio|?];
    destruct (cleanup_checkpoints env) as [[]|?];
    reduce_world; split_tests; new_calls;
    (split; [eexists; split; reflexivity|]);
    (split; [set_solver|]); reflexivity.
Qed.

Lemma recoverMeeting_guarded (env : RecoverEnv) (meeting : string)
  (w : World) :
  let run := recoverMeeting env meeting w in
  let new := newCalls w run.2 in
  markedOnlyAfterSave false new = true
  /\ (existsb isMarkMeetingSaved new = true ->
      exists sid,
        saveMeeting env = Resolved sid
        /\ length (permanent run.2) = S (length (permanent w)))
  /\ ((exists e, getMeetingMetadata env = Rejected e)
      \/ getMeetingMetadata env = Resolved None
      \/ (exists e, getTranscripts env = Rejected e)
      \/ getTranscripts env = Resolved []
      \/ (exists e, saveMeeting env = Rejected e) ->
      (exists e, run.1 = Rejected e)
      /\ existsb isMarkMeetingSaved new = false
      /\ markedSaved run.2 = markedSaved w
      /\ permanent run.2 = permanent w
      /\ recoverableMeetings (hook run.2) = recoverableMeetings (hook w)
      /\ isRecovering (hook run.2) = false).
Proof.
  intros run new. unfold new, run. clear run new.
  run_recovery.
  destruct (getMeetingMetadata env) as [[metadata|]|?] eqn:Emeta;
    reduce_world;
    [ destruct (getTranscripts env) as [ts|?] eqn:Ets; reduce_world;
      [ destruct (length (array_sort bySequenceId ts) =? 0)%nat eqn:Elen;
        reduce_world;
        [ | destruct (saveMeeting env) as [sid|?] eqn:Esave;
            destruct (markMeetingSaved env) as [[]|?] eqn:Emark;
            destruct (get_meeting_folder_path env) as [fp|?] eqn:Efp;
            destruct (recover_audio_from_checkpoints env)
              as [audio|?] eqn:Eaudio;
            destruct (cleanup_checkpoints env) as [[]|?] eqn:Eclean;
            reduce_world; split_tests ]
      | ]
    | | ];
    new_calls.
  all: split; [reflexivity|].
  all: split;
    [ first [ discriminate
            | intros _; eexists; split; [reflexivity|];
              rewrite length_app; cbn [length]; lia ] |].
  all: intros [[? ?]|[?|[[? ?]|[Hts|[? ?]]]]]; try discriminate.
  all: try (injection Hts as ->; cbv in Elen; discriminate Elen).
  all: split; [eexists; reflexivity|]; repeat split; reflexivity.
Qed.

(** C7: in the calls of a recovery, [markMeetingSaved] comes only after
    [saveMeeting], and only when that save resolved and the meeting was
    committed; when the metadata cannot be loaded or is missing, the
    transcripts cannot be loaded or are empty, or the save is rejected, the
    recovery is rejected, the checkpoint is not marked saved, nothing is
    committed, the meeting stays in the recoverable list, and a later attempt
    whose calls go through succeeds. *)
Theorem checkpoint_marked_only_after_commit (env : RecoverEnv)
  (meeting : string) (w : World) :
  let run := recoverMeeting env meeting w in
  let new := newCalls w run.2 in
  markedOnlyAfterSave false new = true
  /\ (existsb isMarkMeetingSaved new = true ->
      exists sid,
        saveMeeting env = Resolved sid
        /\ length (permanent run.2) = S (length (permanent w)))
  /\ ((exists e, getMeetingMetadata env = Rejected e)
      \/ getMeetingMetadata env = Resolved None
      \/ (exists e, getTranscripts env = Rejected e)
      \/ getTranscripts env = Resolved []
      \/ (exists e, saveMeeting env = Rejected e) ->
      (exists e, run.1 = Rejected e)
      /\ existsb isMarkMeetingSaved new = false
      /\ markedSaved run.2 = markedSaved w
      /\ permanent run.2 = permanent w
      /\ recoverableMeetings (hook run.2) = recoverableMeetings (hook w)
      /\ isRecovering (hook run.2) = false
      /\ forall retry,
           healthy retry ->
           (exists res,
               (recoverMeeting retry meeting run.2).1 = Resolved res
               /\ success res = true)
           /\ meeting ∈ markedSaved (recoverMeeting retry meeting run.2).2).
Proof.
  intros run new.
  destruct (recoverMeeting_guarded env meeting w) as (Horder & Hmark & Hfail).
  split; [exact Horder|]. split; [exact Hmark|].
  intros Hcause. destruct (Hfail Hcause) as (H1 & H2 & H3 & H4 & H5 & H6).
  repeat (split; [assumption|]).
  intros retry Hretry.
  destruct (recoverMeeting_succeeds retry meeting run.2 Hretry)
    as (Hres & Hin & _).
  by split.
Qed.

Lemma checkpoint_marked_only_after_commit_witness :
  let run := recoverMeeting Examples.save_fails "rec-1" Examples.listing in
  (exists e, run.1 = Rejected e)
  /\ markedSaved run.2 = ∅
  /\ recoverableMeetings (hook run.2) = [Examples.minute_old].
Proof.
  destruct (checkpoint_marked_only_after_commit Examples.save_fails "rec-1"
              Examples.listing) as (_ & _ & Hfail).
  destruct Hfail as (H1 & _ & H3 & _ & H5 & _).
  - right. right. right. right. eexists. reflexivity.
  - repeat split; assumption.
Defined.

End RecoveryProofs.

(** * Further properties *)

(** ** The poll registry, continued *)

Module PollingMore.
Import Api Polling.

(** X1: across all meetings at most one poll interval is live: every registry
    change is followed by a render whose effect cleanup clears the intervals
    of the previous registry. *)
Theorem at_most_one_live_interval (st : PollSys) :
  reachable st ->
  intervals st = ∅ \/ exists h iv, intervals st = {[ h := iv ]}.
Proof.
  induction 1 as [|op st Hreach IH]; [by left|].
  pose proof (PollingProofs.reachable_consistent st Hreach) as Hst.
  assert (Hstay : intervals st = ∅
                  \/ exists h iv, intervals st = {[ h := iv ]}) by exact IH.
  assert (Hstop : forall seen m,
             intervals (render (stopSummaryPollingFrom seen m st)) = ∅
             \/ exists h iv,
                  intervals (render (stopSummaryPollingFrom seen m st))
                  = {[ h := iv ]}).
  { intros seen m. destruct (seen !! m) as [h|] eqn:E.
    - rewrite (PollingProofs.step_stop seen m st h Hst E). by left.
    - unfold stopSummaryPollingFrom. rewrite E.
      by rewrite (PollingProofs.render_consistent st Hst). }
  destruct op as [m p|seen m p|m|seen m|h api];
    unfold step, startSummaryPolling, stopSummaryPolling.
  - rewrite (PollingProofs.step_start _ m p st Hst). right. eauto.
  - rewrite (PollingProofs.step_start seen m p st Hst). right. eauto.
  - apply Hstop.
  - apply Hstop.
  - destruct (intervals st !! h) as [iv|] eqn:Hh.
    + destruct (terminates (S (pollCount iv)) api) eqn:Hterm.
      * rewrite (PollingProofs.step_ending_tick h api st iv Hst Hh Hterm).
        by left.
      * rewrite (PollingProofs.continuing_tick h api st iv Hh Hterm).
        rewrite (PollingProofs.render_consistent _
                   (PollingProofs.setPollCount_consistent h iv _ st Hst Hh)).
        right. simpl. destruct Hstay as [E|(h' & iv' & E)].
        { rewrite E in Hh. by rewrite lookup_empty in Hh. }
        rewrite E in Hh. apply lookup_singleton_Some in Hh as [<- <-].
        rewrite E. exists h', {| i_meetingId := i_meetingId iv';
                                pollCount := S (pollCount iv') |}.
        apply insert_singleton_eq.
    + unfold tick. rewrite Hh. cbn [fst].
      by rewrite (PollingProofs.render_consistent st Hst).
Qed.

Lemma at_most_one_live_interval_witness :
  intervals Examples.one_poll = ∅
  \/ exists h iv, intervals Examples.one_poll = {[ h := iv ]}.
Proof.
  apply at_most_one_live_interval.
  apply (reach_step (OpStart "m-1" "p-1")), reach_initial.
Defined.

(** Events of one firing of a live interval: at the limit only the timeout
    report, otherwise one poll and one report. *)
Lemma tick_events (h : positive) api (st : PollSys) (iv : Interval) :
  intervals st !! h = Some iv ->
  exists r,
    (tick h api st).2
    = if (MAX_POLLS <=? S (pollCount iv))%nat
      then [OnUpdate h timeoutResult]
      else [ApiGetSummary h (i_meetingId iv); OnUpdate h r].
Proof.
  intros Hh. unfold tick. rewrite Hh.
  destruct (MAX_POLLS <=? S (pollCount iv))%nat; [by exists timeoutResult|].
  destruct api as [r|e]; [exists r|by eexists].
  destruct (stops_polling (status r)); [done|].
  by destruct (String.eqb (status r) "idle" && (1 <? S (pollCount iv))%nat).
Qed.

Lemma ticks_bounded (h : positive) apis :
  forall st : PollSys,
    consistent st ->
    let evs := (ticks h apis st).2 in
    length (List.filter isPoll evs)
    <= match intervals st !! h with
       | Some iv => MAX_POLLS - 1 - pollCount iv
       | None => 0
       end
    /\ length (List.filter (fun ev => negb (isPoll ev)) evs)
       <= S (length (List.filter isPoll evs)).
Proof.
  induction apis as [|api rest IH]; intros st Hst; [simpl; lia|].
  pose proof Hst as (Hupd & _).
  destruct (intervals st !! h) as [iv|] eqn:Hh.
  - cbn [ticks]. unfold firing.
    destruct (tick_events h api st iv Hh) as (r & Hevs).
    destruct (tick h api st) as [st1 evs1] eqn:Htick.
    cbn [snd] in Hevs.
    assert (Hst1 : st1 = (tick h api st).1) by by rewrite Htick.
    destruct (terminates (S (pollCount iv)) api) eqn:Hterm.
    + pose proof (PollingProofs.step_ending_tick h api st iv Hst Hh Hterm)
        as Hend.
      rewrite <- Hst1 in Hend. rewrite Hend.
      rewrite PollingProofs.ticks_dead by done.
      cbn [snd]. rewrite app_nil_r. subst evs1.
      destruct (MAX_POLLS <=? S (pollCount iv))%nat eqn:Hmax; simpl.
      * lia.
      * apply Nat.leb_gt in Hmax. unfold MAX_POLLS in *. lia.
    + pose proof (PollingProofs.continuing_tick h api st iv Hh Hterm) as Hgo.
      rewrite <- Hst1 in Hgo.
      pose proof (PollingProofs.setPollCount_consistent h iv
                    (S (pollCount iv)) st Hst Hh) as Hc.
      rewrite Hgo, (PollingProofs.render_consistent _ Hc).
      specialize (IH _ Hc). simpl in IH. rewrite lookup_insert_eq in IH.
      simpl in IH.
      destruct (ticks h rest (setPollCount h iv (S (pollCount iv)) st))
        as [st2 evs2].
      cbn [snd] in *. subst evs1.
      apply orb_false_iff in Hterm as [Hmax _]. rewrite Hmax.
      apply Nat.leb_gt in Hmax. simpl. unfold MAX_POLLS in *. lia.
  - rewrite PollingProofs.ticks_dead by done. simpl. lia.
Qed.

(** X2: whatever the backend answers, a poll loop calls [api_get_summary] at
    most [MAX_POLLS - 1] times, less the firings it has already counted, and
    reports to the callback at most once more than it polls. *)
Theorem polls_per_loop_bounded (st : PollSys) (h : positive) (iv : Interval)
  (apis : list (outcome SummaryResponse)) :
  reachable st ->
  intervals st !! h = Some iv ->
  let evs := (ticks h apis st).2 in
  length (List.filter isPoll evs) <= MAX_POLLS - 1 - pollCount iv
  /\ length (List.filter (fun ev => negb (isPoll ev)) evs)
     <= S (length (List.filter isPoll evs)).
Proof.
  intros Hreach Hh.
  pose proof (ticks_bounded h apis st
                (PollingProofs.reachable_consistent st Hreach)) as Hb.
  by rewrite Hh in Hb.
Qed.

Lemma polls_per_loop_bounded_witness :
  length (List.filter isPoll
            (ticks 1%positive
               (repeat (Resolved Examples.still_processing) 300)
               Examples.one_poll).2) <= MAX_POLLS - 1 - 0.
Proof.
  apply (polls_per_loop_bounded Examples.one_poll 1%positive
           {| i_meetingId := "m-1"; pollCount := 0 |}
           (repeat (Resolved Examples.still_processing) 300)).
  - apply (reach_step (OpStart "m-1" "p-1")), reach_initial.
  - vm_compute. reflexivity.
Defined.

(** X3: a backend that answers [idle] is tolerated on the first firing of an
    interval only: there the loop goes on and the registry is untouched; on
    any later firing the same answer ends the loop and unregisters the
    meeting. *)
Theorem idle_tolerated_on_first_poll_only (st : PollSys) (h : positive)
  (iv : Interval) (r : SummaryResponse) :
  reachable st ->
  intervals st !! h = Some iv ->
  status r = "idle" ->
  S (pollCount iv) < MAX_POLLS ->
  let st' := step (OpTick h (Resolved r)) st in
  (pollCount iv = 0 ->
   intervals st' !! h
   = Some {| i_meetingId := i_meetingId iv; pollCount := 1 |}
   /\ activeSummaryPolls st' = activeSummaryPolls st)
  /\ (0 < pollCount iv ->
      intervals st' !! h = None
      /\ activeSummaryPolls st' !! i_meetingId iv = None).
Proof.
  intros Hreach Hh Hidle Hlt st'.
  pose proof (PollingProofs.reachable_consistent st Hreach) as Hst.
  assert (Hmax : (MAX_POLLS <=? S (pollCount iv))%nat = false)
    by by apply Nat.leb_gt.
  split; intros Hc.
  - assert (Hterm : terminates (S (pollCount iv)) (Resolved r) = false).
    { unfold terminates. rewrite Hmax, Hidle, Hc. reflexivity. }
    unfold st', step.
    rewrite (PollingProofs.continuing_tick h _ st iv Hh Hterm).
    rewrite (PollingProofs.render_consistent _
               (PollingProofs.setPollCount_consistent h iv _ st Hst Hh)).
    simpl. rewrite lookup_insert_eq, Hc. done.
  - assert (Hterm : terminates (S (pollCount iv)) (Resolved r) = true).
    { apply PollingProofs.ends_loop_terminates. right. left.
      exists r. split; [done|]. do 4 right. split; [done|lia]. }
    unfold st', step.
    rewrite (PollingProofs.step_ending_tick h _ st iv Hst Hh Hterm).
    simpl. split; [done|]. apply lookup_delete_eq.
Qed.

Lemma idle_tolerated_on_first_poll_only_witness :
  intervals
    (step (OpTick 1%positive (Resolved MoreExamples.idle_answer))
       Examples.one_poll) !! 1%positive
  = Some {| i_meetingId := "m-1"; pollCount := 1 |}
  /\ intervals
       (step (OpTick 1%positive (Resolved MoreExamples.idle_answer))
          (step (OpTick 1%positive (Resolved MoreExamples.idle_answer))
             Examples.one_poll)) !! 1%positive
     = None.
Proof.
  split.
  - apply (idle_tolerated_on_first_poll_only Examples.one_poll 1%positive
             {| i_meetingId := "m-1"; pollCount := 0 |} MoreExamples.idle_answer).
    + apply (reach_step (OpStart "m-1" "p-1")), reach_initial.
    + vm_compute. reflexivity.
    + reflexivity.
    + vm_compute. lia.
    + reflexivity.
  - apply (idle_tolerated_on_first_poll_only
             (step (OpTick 1%positive (Resolved MoreExamples.idle_answer))
                Examples.one_poll)
             1%positive
             {| i_meetingId := "m-1"; pollCount := 1 |} MoreExamples.idle_answer).
    + apply (reach_step (OpTick _ _)),
        (reach_step (OpStart "m-1" "p-1")), reach_initial.
    + vm_compute. reflexivity.
    + reflexivity.
    + vm_compute. lia.
    + simpl. lia.
Defined.



End PollingMore.

(** ** Paginated transcripts, continued *)

Section SortedInput.
Context {A : Type} (key : A -> Q).

(** Sorting a list that is in order returns it. *)
Lemma array_sort_of_sorted (l : list A) :
  Sorted (fun a b => (key a <= key b)%Q) l ->
  array_sort (fun a b => (key a - key b)%Q) l = l.
Proof.
  induction 1 as [|x l Hl IH Hhd]; [done|].
  change (sort_insert (fun a b => (key a - key b)%Q) x
            (array_sort (fun a b => (key a - key b)%Q) l) = x :: l).
  rewrite IH. destruct Hhd as [|y r Hxy]; [done|]. simpl.
  apply (cmp_le key) in Hxy. by rewrite Hxy.
Qed.

End SortedInput.

Module PaginationMore.
Import Pagination PaginationHook.

Lemma appendPage_ids (prev page : list Transcript) (t : Transcript) :
  In t page -> id t ∈ map id (appendPage prev page).
Proof.
  intros Hin. change (id t ∈ id <$> appendPage prev page).
  rewrite PaginationProofs.appendPage_perm, fmap_app, elem_of_app.
  destruct (decide (id t ∈ map id prev)) as [Hold|Hnew]; [by left|].
  right. apply list_elem_of_fmap. exists t. split; [done|].
  apply list_elem_of_filter. split; [|by apply list_elem_of_In].
  by rewrite elem_of_list_to_set.
Qed.

Lemma filter_none {B : Type} (P : B -> Prop) `{!forall x, Decision (P x)}
  (l : list B) :
  (forall x, In x l -> ~ P x) -> filter P l = [].
Proof.
  induction l as [|x l IH]; intros Hall; [done|].
  rewrite filter_cons_False by (apply Hall; by left).
  apply IH. intros y Hy. apply Hall. by right.
Qed.

(** X5: appending a page a second time changes nothing: each of its entries
    is dropped as already loaded, and the list, being in order, is returned
    as it is. *)
Theorem reread_page_changes_nothing (prev page : list Transcript) :
  appendPage (appendPage prev page) page = appendPage prev page.
Proof.
  unfold appendPage at 1.
  rewrite filter_none, app_nil_r.
  - apply (array_sort_of_sorted start_or_zero).
    apply StronglySorted_Sorted, PaginationProofs.appendPage_sorted.
  - intros t Hin Hnew. apply Hnew, elem_of_list_to_set.
    by apply appendPage_ids.
Qed.

Lemma unique_new (prev page : list Transcript) :
  filter (fun u => id u ∉ (list_to_set (map id prev) : gset string)) page
  = filter (fun u => id u ∉ map id prev) page.
Proof.
  apply list_filter_iff. intros u. by rewrite elem_of_list_to_set.
Qed.

Lemma appendPage_length (prev page : list Transcript) :
  length (appendPage prev page)
  = length prev + length (filter (fun u => id u ∉ map id prev) page).
Proof.
  by rewrite (PaginationProofs.appendPage_perm prev page), length_app,
    unique_new.
Qed.

(** X6: the first arrival of an id wins: after an append the list holds the
    entries that were loaded and, of the page, those whose id was not loaded,
    and nothing else; an entry of the page with a loaded id is dropped
    whatever it contains. *)
Theorem first_arrival_wins (prev page : list Transcript) (t : Transcript) :
  (In t (appendPage prev page) <->
   In t prev \/ (In t page /\ id t ∉ map id prev))
  /\ length (appendPage prev page)
     = length prev
       + length (filter (fun u => id u ∉ map id prev) page).
Proof.
  split; [|apply appendPage_length].
  rewrite <- !list_elem_of_In, (PaginationProofs.appendPage_perm prev page).
  rewrite elem_of_app, list_elem_of_filter, elem_of_list_to_set. tauto.
Qed.

Lemma loadMore_bound (resp : outcome PaginatedTranscriptsResponse)
  (st : PageState) :
  length (transcripts st) <= offsetRef st ->
  length (transcripts (loadMore resp st)) <= offsetRef (loadMore resp st).
Proof.
  intros Hst. unfold loadMore. destruct (hasMore st); [|done].
  destruct resp as [response|e]; [|done]. simpl.
  rewrite appendPage_length.
  pose proof (length_filter
                (fun u => id u ∉ map id (transcripts st))
                (r_transcripts response)).
  lia.
Qed.

(** X7: from the first page on, the offset of the next read is the number of
    rows received so far, so it is never behind the number of transcripts on
    display, however many rows were dropped as repeats. *)
Theorem offset_never_behind_loaded {A : Type} (metadata : outcome A)
  (first : outcome PaginatedTranscriptsResponse)
  (more : list (outcome PaginatedTranscriptsResponse)) (st : PageState) :
  let final := loadMores more (loadInitial metadata first st) in
  length (transcripts final) <= offsetRef final.
Proof.
  simpl. unfold loadMores.
  assert (Hinit : length (transcripts (loadInitial metadata first st))
                  <= offsetRef (loadInitial metadata first st)).
  { unfold loadInitial. destruct first as [response|e], metadata; simpl; lia. }
  generalize dependent (loadInitial metadata first st).
  induction more as [|resp rest IH]; intros s Hs; [done|].
  simpl. apply IH. by apply loadMore_bound.
Qed.

(** X8: a rejected page read changes neither the list nor the offset nor what
    is known of further pages: the next [loadMore] reads at the same offset
    and yields the list and the offset it would have yielded without the
    failure. The error message, once set, is not cleared by a read that
    succeeds. *)
Theorem failed_read_is_retried_at_same_offset (e : Thrown)
  (resp : outcome PaginatedTranscriptsResponse) (st : PageState) :
  let failed := loadMore (Rejected e) st in
  transcripts failed = transcripts st
  /\ offsetRef failed = offsetRef st
  /\ hasMore failed = hasMore st
  /\ transcripts (loadMore resp failed) = transcripts (loadMore resp st)
  /\ offsetRef (loadMore resp failed) = offsetRef (loadMore resp st)
  /\ error (loadMore resp failed)
     = (if hasMore st then Some "Failed to load transcripts" else error st).
Proof.
  unfold loadMore. destruct (hasMore st) eqn:Hmore; simpl.
  - rewrite Hmore. simpl. by destruct resp.
  - rewrite Hmore. done.
Qed.

End PaginationMore.

(** ** The summary hook, continued *)

Module SummaryMore.
Import Api Polling SummaryGeneration Observations.

Lemma assign_keys {A : Type} (key : string) (v : A) (o : list (string * A)) :
  map fst (assign key v o)
  = if bool_decide (key ∈ map fst o) then map fst o else map fst o ++ [key].
Proof.
  induction o as [|[k w] rest IH]; [done|]. simpl.
  destruct (String.eqb k key) eqn:E.
  - apply String.eqb_eq in E as ->. simpl.
    rewrite bool_decide_true; [done|]. apply list_elem_of_here.
  - apply String.eqb_neq in E. simpl. rewrite IH.
    destruct (bool_decide (key ∈ map fst rest)) eqn:Hin.
    + apply bool_decide_eq_true in Hin.
      rewrite bool_decide_true; [done|]. by apply list_elem_of_further.
    + apply bool_decide_eq_false in Hin.
      rewrite bool_decide_false; [done|].
      intros [?|?]%elem_of_cons; congruence.
Qed.

Lemma assign_lookup {A : Type} (key : string) (v : A)
  (o : list (string * A)) k w :
  In (k, w) (assign key v o) -> (k = key /\ w = v) \/ In (k, w) o.
Proof.
  induction o as [|[k' w'] rest IH]; simpl.
  - intros [[= <- <-]|[]]. by left.
  - destruct (String.eqb k' key) eqn:E.
    + apply String.eqb_eq in E as ->.
      intros [[= <- <-]|Hin]; [by left|by right; right].
    + intros [[= <- <-]|Hin]; [by right; left|].
      destruct (IH Hin) as [?|?]; [by left|by right; right].
Qed.

Lemma assign_nodup {A : Type} (key : string) (v : A)
  (o : list (string * A)) :
  NoDup (map fst o) -> NoDup (map fst (assign key v o)).
Proof.
  intros Hnd. rewrite assign_keys.
  destruct (bool_decide (key ∈ map fst o)) eqn:Hin; [done|].
  apply bool_decide_eq_false in Hin.
  apply NoDup_app. split; [done|]. split; [|apply NoDup_singleton].
  intros x Hx ->%list_elem_of_singleton. done.
Qed.

Lemma formatSection_wellFormatted (d : SummaryData) (key : string) o :
  wellFormatted d o -> wellFormatted d (formatSection d key o).
Proof.
  intros [Hnd Hall]. unfold formatSection.
  destruct (lookup_property key (summarySections d))
    as [[| |[title|] [blocks|]]|] eqn:E; try by split.
  split; [by apply assign_nodup|].
  intros k s [[-> ->]|Hin]%assign_lookup; [|by apply Hall].
  exists title, blocks. split; [done|]. split; [done|]. simpl.
  destruct blocks as [bs|]; simpl.
  - split; [|by rewrite length_map].
    clear E. induction bs as [|c bs IHbs]; simpl; by constructor.
  - split; [by constructor|done].
Qed.

(** X9: the legacy formatting yields every section key once, only keys whose
    value is an object with a title and blocks, titled by that title (the key
    where the title is empty), with as many blocks as the section has and
    every colour reset. *)
Theorem formatLegacy_sections (d : SummaryData) :
  NoDup (map fst (formatLegacy d))
  /\ forall key s,
       In (key, s) (formatLegacy d) ->
       exists title blocks,
         lookup_property key (summarySections d)
         = Some (JSection (Some title) (Some blocks))
         /\ s_title s = (if truthy_str title then title else key)
         /\ Forall (fun b => fb_color b = "default") (s_blocks s)
         /\ length (s_blocks s)
            = match blocks with
              | BArray bs => length bs
              | BOther _ => 0
              end.
Proof.
  change (wellFormatted d (formatLegacy d)). unfold formatLegacy.
  generalize (match _section_order d with
              | Some order => order
              | None => map fst (summarySections d)
              end).
  intros keys.
  assert (Hgen : forall o, wellFormatted d o ->
                   wellFormatted d
                     (foldl (fun acc key => formatSection d key acc) o keys)).
  { induction keys as [|key rest IH]; intros o Ho; [done|].
    simpl. apply IH. by apply formatSection_wellFormatted. }
  apply Hgen. split; [apply NoDup_nil_2|]. intros ? ? [].
Qed.

(** X10: a request that does not reach the backend or that the backend
    rejects registers no poll: the registry is untouched, the status is
    [error] with the message of the failure, and the summary on display is
    kept. A blank transcript makes no backend call at all. *)
Theorem failed_request_registers_nothing (props : Props)
  (transcriptText customPrompt : string) (isRegeneration : bool)
  (backend : outcome string) (app : App) :
  let res :=
    processSummary props transcriptText customPrompt isRegeneration backend
      app in
  (truthy_str (trim transcriptText) = false ->
   polls res.1 = polls app
   /\ runs res.1 = runs app
   /\ summaryStatus (ui res.1) = Error
   /\ summaryError (ui res.1) = Some noTranscriptMessage
   /\ aiSummary (ui res.1) = aiSummary (ui app)
   /\ List.filter isInvoke res.2 = [])
  /\ (forall e,
        truthy_str (trim transcriptText) = true ->
        backend = Rejected e ->
        polls res.1 = polls app
        /\ runs res.1 = runs app
        /\ summaryStatus (ui res.1) = Error
        /\ summaryError (ui res.1) = Some (message_or_unknown e)
        /\ aiSummary (ui res.1) = aiSummary (ui app)).
Proof.
  unfold processSummary.
  destruct (truthy_str (trim transcriptText)) eqn:Hblank; simpl.
  - split; [done|]. intros e _ ->. simpl. by destruct isRegeneration.
  - split; [done|]. intros e [=].
Qed.

Lemma failed_request_registers_nothing_witness :
  polls (processSummary Examples.props1 "  " "" false (Resolved "p-1")
           Examples.regenerating_app).1
  = polls Examples.regenerating_app.
Proof.
  apply (proj1 (failed_request_registers_nothing Examples.props1 "  " ""
                  false (Resolved "p-1") Examples.regenerating_app)).
  vm_compute. reflexivity.
Defined.

(** X11: the transcript kept for regeneration is written by a first
    generation with a non-blank text and by nothing else: not by a
    regeneration, not by the polling callback, not by a stop. *)
Theorem original_transcript_set_only_by_first_generation (props : Props)
  (text customPrompt : string) (isRegeneration : bool)
  (backend : outcome string) (seen : gmap string positive)
  (cancel : outcome unit)
  (reload : outcome (option SummaryResponse)) (r : SummaryResponse)
  (app : App) :
  originalTranscript
    (ui (processSummary props text customPrompt isRegeneration backend app).1)
  = (if negb isRegeneration && truthy_str (trim text)
     then text else originalTranscript (ui app))
  /\ originalTranscript (ui (handleRegenerateSummary props backend app).1)
     = originalTranscript (ui app)
  /\ originalTranscript (ui (handleStopGeneration props seen cancel app).1)
     = originalTranscript (ui app)
  /\ originalTranscript
       (after (onUpdate props isRegeneration reload r (ui app)))
     = originalTranscript (ui app).
Proof.
  assert (Hprocess : forall t p b,
             originalTranscript (ui (processSummary props t p b backend app).1)
             = if negb b && truthy_str (trim t)
               then t else originalTranscript (ui app)).
  { intros t p b. unfold processSummary.
    destruct (truthy_str (trim t)), b, backend; reflexivity. }
  split; [apply Hprocess|]. split.
  { unfold handleRegenerateSummary.
    destruct (truthy_str (trim (originalTranscript (ui app)))); [|done].
    simpl. by rewrite Hprocess. }
  split; [done|].
  unfold onUpdate, onCancelled, onFailed, reportFailure, onCompleted.
  repeat match goal with
         | |- context [match ?x with _ => _ end] => destruct x; simpl; try done
         end.
Qed.

(** A completed legacy result can leave nothing to display: a section
    that has blocks but no title is not empty, so the result is accepted, and
    is then skipped by the formatting. *)
Lemma titleless_result_displays_no_section :
  aiSummary
    (after (onUpdate Examples.props1 false (Resolved None)
              MoreExamples.titleless_answer Examples.regenerating))
  = Some (LegacySummary []).
Proof. reflexivity. Qed.

(** X12: the polling callback never sets the summary on display to null, and
    it replaces it in two cases only: a result that is cancelled, or failed
    in a regeneration, whose reload answers with the stored summary puts that
    summary on display; a completed result with data puts its markdown on
    display or, when it has no markdown and a section that is not empty, its
    formatted sections, of which there may be none.  In every other case the
    summary on display stays as it was; neither a request nor a stop changes
    it. *)
Theorem summary_on_display_never_cleared (props : Props)
  (text customPrompt : string) (isRegeneration : bool)
  (backend : outcome string) (seen : gmap string positive)
  (cancel : outcome unit)
  (reload : outcome (option SummaryResponse)) (r : SummaryResponse)
  (app : App) :
  let run := onUpdate props isRegeneration reload r (ui app) in
  (aiSummary (ui app) <> None -> aiSummary (after run) <> None)
  /\ (aiSummary (after run) = aiSummary (ui app)
      \/ (exists d,
             (status r = "cancelled"
              \/ (isRegeneration = true
                  /\ (status r = "error" \/ status r = "failed")))
             /\ reloaded_data reload = Some d
             /\ aiSummary (after run) = Some (StoredSummary d))
      \/ (exists d,
             status r = "completed" /\ data r = Some d
             /\ ((truthy_ostr (markdown d) = true
                  /\ aiSummary (after run)
                     = Some (MarkdownSummary (default "" (markdown d))))
                 \/ (truthy_ostr (markdown d) = false
                     /\ every_noBlocks (summarySections d) = Some false
                     /\ aiSummary (after run)
                        = Some (LegacySummary (formatLegacy d))))))
  /\ aiSummary
       (ui (processSummary props text customPrompt isRegeneration backend
              app).1)
     = aiSummary (ui app)
  /\ aiSummary (ui (handleStopGeneration props seen cancel app).1)
     = aiSummary (ui app).
Proof.
  intros run.
  assert (Hcases :
            aiSummary (after run) = aiSummary (ui app)
            \/ (exists d,
                   (status r = "cancelled"
                    \/ (isRegeneration = true
                        /\ (status r = "error" \/ status r = "failed")))
                   /\ reloaded_data reload = Some d
                   /\ aiSummary (after run) = Some (StoredSummary d))
            \/ (exists d,
                   status r = "completed" /\ data r = Some d
                   /\ ((truthy_ostr (markdown d) = true
                        /\ aiSummary (after run)
                           = Some (MarkdownSummary (default "" (markdown d))))
                       \/ (truthy_ostr (markdown d) = false
                           /\ every_noBlocks (summarySections d) = Some false
                           /\ aiSummary (after run)
                              = Some (LegacySummary (formatLegacy d)))))).
  { unfold run, onUpdate.
    destruct (String.eqb (status r) "cancelled") eqn:Ec.
    { apply String.eqb_eq in Ec. unfold onCancelled.
      destruct reload as [x|e]; [|by left].
      destruct (reloaded_data (Resolved x)) as [d|] eqn:Ed; [|by left].
      right. left. exists d. split; [by left|]. by split. }
    destruct (String.eqb (status r) "error" || String.eqb (status r) "failed")
      eqn:Ef.
    { assert (Hs : status r = "error" \/ status r = "failed").
      { apply orb_true_iff in Ef as [?%String.eqb_eq|?%String.eqb_eq]; auto. }
      unfold onFailed, reportFailure.
      destruct isRegeneration; [|by left].
      destruct reload as [x|e]; [|by left].
      destruct (reloaded_data (Resolved x)) as [d|] eqn:Ed; [|by left].
      right. left. exists d. split; [by right|]. by split. }
    destruct (data r) as [d|]; [|by left].
    destruct (String.eqb (status r) "completed") eqn:Ed; [|by left].
    apply String.eqb_eq in Ed. unfold onCompleted.
    destruct (truthy_ostr (markdown d)) eqn:Hmd.
    { right. right. exists d. split; [done|]. split; [done|]. left.
      split; [done|].
      by destruct (truthy_ostr (if truthy_ostr (MeetingName d)
                                then MeetingName d else meetingName r)). }
    destruct (every_noBlocks (summarySections d)) as [[|]|] eqn:Hall.
    - left. simpl.
      by destruct (truthy_ostr (if truthy_ostr (MeetingName d)
                                then MeetingName d else meetingName r)).
    - right. right. exists d. split; [done|]. split; [done|]. right.
      split; [done|]. split; [done|].
      by destruct (truthy_ostr (if truthy_ostr (MeetingName d)
                                then MeetingName d else meetingName r)).
    - left. simpl.
      by destruct (truthy_ostr (if truthy_ostr (MeetingName d)
                                then MeetingName d else meetingName r)). }
  split; [|split; [exact Hcases|split; [|done]]].
  - intros Hshown.
    destruct Hcases as [-> |[(d & _ & _ & ->)|(d & _ & _ & [[_ ->]|(_ & _ & ->)])]];
      done.
  - unfold processSummary.
    destruct (truthy_str (trim text)), isRegeneration, backend; reflexivity.
Qed.

Lemma summary_on_display_never_cleared_witness :
  aiSummary
    (after (onUpdate Examples.props1 true (Rejected (ErrorObj "offline"))
              Examples.failed_answer (ui Examples.regenerating_app)))
  <> None.
Proof.
  apply (summary_on_display_never_cleared Examples.props1 "" "" true
           (Resolved "p-1") ∅ (Resolved tt)
           (Rejected (ErrorObj "offline")) Examples.failed_answer
           Examples.regenerating_app).
  vm_compute. discriminate.
Defined.

(** X13: a failure that is not followed by a restoration (a first generation,
    or a regeneration whose reload finds no summary or is rejected) ends in
    status [error] with the reported message, or the default one, and leaves
    summary and title as they were; a first generation does not reload. *)
Theorem failure_without_restoration (props : Props) (isRegeneration : bool)
  (reload : outcome (option SummaryResponse)) (r : SummaryResponse)
  (st : UiState) :
  status r = "error" \/ status r = "failed" ->
  isRegeneration = false \/ reloaded_data reload = None ->
  let run := onUpdate props isRegeneration reload r st in
  summaryStatus (after run) = Error
  /\ summaryError (after run)
     = Some (or_default (error r) (failureTitle isRegeneration))
  /\ aiSummary (after run) = aiSummary st
  /\ meetingTitle (after run) = meetingTitle st
  /\ thrown run = None
  /\ (isRegeneration = false -> List.filter isInvoke (effects run) = []).
Proof.
  intros Hstatus Hno run. unfold run, onUpdate.
  assert (E : String.eqb (status r) "cancelled" = false)
    by (by destruct Hstatus as [->| ->]).
  assert (E' : String.eqb (status r) "error"
               || String.eqb (status r) "failed" = true)
    by (by destruct Hstatus as [->| ->]).
  rewrite E, E'. unfold onFailed.
  destruct isRegeneration.
  - destruct Hno as [|Hno]; [done|].
    destruct reload as [existing|e].
    + rewrite Hno. simpl. repeat split; try done.
    + simpl. repeat split; try done.
  - simpl. repeat split; try done.
    destruct (isModelRequiredError _ && onOpenModelSettings props); done.
Qed.

Lemma failure_without_restoration_witness :
  summaryStatus
    (after (onUpdate Examples.props1 false (Resolved None)
              Examples.failed_answer Examples.regenerating))
  = Error.
Proof.
  apply (failure_without_restoration Examples.props1 false (Resolved None)
           Examples.failed_answer Examples.regenerating).
  - right. reflexivity.
  - left. reflexivity.
Defined.

(** X14: the meeting title changes only on a completed result that carries
    data and a non-empty name, the name of the data before the name of the
    response; it then changes even if the result is afterwards refused as
    empty. *)
Theorem title_changes_only_on_named_completion (props : Props)
  (isRegeneration : bool) (reload : outcome (option SummaryResponse))
  (r : SummaryResponse) (st : UiState) :
  meetingTitle (after (onUpdate props isRegeneration reload r st))
  = match data r with
    | Some d =>
        let name :=
          if truthy_ostr (MeetingName d) then MeetingName d
          else meetingName r in
        if String.eqb (status r) "completed" && truthy_ostr name
        then default "" name else meetingTitle st
    | None => meetingTitle st
    end.
Proof.
  unfold onUpdate, onCancelled, onFailed, reportFailure.
  destruct (String.eqb (status r) "cancelled") eqn:Ec.
  { apply String.eqb_eq in Ec. rewrite Ec.
    destruct reload as [[existing|]|e]; simpl;
      repeat match goal with
             | |- context [match ?x with _ => _ end] =>
                 destruct x; simpl; try done
             end. }
  destruct (String.eqb (status r) "error" || String.eqb (status r) "failed")
    eqn:Ef.
  { assert (Hnc : String.eqb (status r) "completed" = false).
    { apply orb_true_iff in Ef as [->%String.eqb_eq| ->%String.eqb_eq];
        reflexivity. }
    rewrite Hnc.
    destruct isRegeneration, reload as [[existing|]|e]; simpl;
      repeat match goal with
             | |- context [match ?x with _ => _ end] =>
                 destruct x; simpl; try done
             end. }
  destruct (data r) as [d|]; [|done].
  destruct (String.eqb (status r) "completed"); [|by destruct (truthy_ostr _)].
  unfold onCompleted. simpl.
  destruct (truthy_ostr (if truthy_ostr (MeetingName d)
                         then MeetingName d else meetingName r));
    destruct (truthy_ostr (markdown d));
    try destruct (every_noBlocks (summarySections d)) as [[]|]; done.
Qed.

Lemma onUpdate_ignores (props : Props) (isRegeneration : bool)
  (reload : outcome (option SummaryResponse)) (r : SummaryResponse)
  (st : UiState) :
  status r <> "cancelled" -> status r <> "error" -> status r <> "failed" ->
  status r <> "completed" \/ data r = None ->
  onUpdate props isRegeneration reload r st
  = {| after := st; effects := []; thrown := None |}.
Proof.
  intros Hc He Hf Hd. unfold onUpdate.
  apply String.eqb_neq in Hc, He, Hf. rewrite Hc, He, Hf. simpl.
  destruct (data r) as [d|]; [|done].
  destruct Hd as [Hd|]; [|done].
  apply String.eqb_neq in Hd. by rewrite Hd.
Qed.

(** X15: a result reported as completed but without data ends the poll loop
    (interval cleared, meeting unregistered) while the callback does nothing:
    status, error and summary of the hook stay as they were, nothing is
    shown, and only the poll itself has reached the backend. *)
Theorem completed_without_data_ends_poll_silently (props : Props)
  (h : positive) (iv : Interval) (r : SummaryResponse)
  (reload : outcome (option SummaryResponse)) (app : App) :
  reachable (polls app) ->
  intervals (polls app) !! h = Some iv ->
  S (pollCount iv) < MAX_POLLS ->
  status r = "completed" ->
  data r = None ->
  let res := fire props h (Resolved r) reload app in
  ui res.1 = ui app
  /\ intervals (polls res.1) !! h = None
  /\ activeSummaryPolls (polls res.1) !! i_meetingId iv = None
  /\ effects res.2 = [Invoke "api_get_summary" (i_meetingId iv)]
  /\ thrown res.2 = None.
Proof.
  intros Hreach Hh Hlt Hstatus Hdata res.
  pose proof (PollingProofs.reachable_consistent _ Hreach) as Hst.
  assert (Hmax : (MAX_POLLS <=? S (pollCount iv))%nat = false)
    by by apply Nat.leb_gt.
  assert (Hterm : terminates (S (pollCount iv)) (Resolved r) = true).
  { apply PollingProofs.ends_loop_terminates. right. left.
    exists r. split; [done|]. by left. }
  pose proof (PollingProofs.step_ending_tick h _ _ iv Hst Hh Hterm) as Hend.
  assert (Hevs : (tick h (Resolved r) (polls app)).2
                 = [ApiGetSummary h (i_meetingId iv); OnUpdate h r]).
  { unfold tick. rewrite Hh, Hmax, Hstatus. reflexivity. }
  unfold res, fire, firing.
  destruct (tick h (Resolved r) (polls app)) as [st1 evs].
  cbn [fst snd] in Hend, Hevs. rewrite Hend, Hevs. cbn [foldl deliver].
  rewrite onUpdate_ignores; [|by rewrite Hstatus..|by right].
  simpl. repeat split; try done. apply lookup_delete_eq.
Qed.

Lemma completed_without_data_ends_poll_silently_witness :
  ui (fire Examples.props1 1%positive
        (Resolved MoreExamples.completed_empty) (Resolved None)
        Examples.regenerating_app).1
  = ui Examples.regenerating_app.
Proof.
  apply (completed_without_data_ends_poll_silently Examples.props1 1%positive
           {| i_meetingId := "m-1"; pollCount := 0 |}
           MoreExamples.completed_empty (Resolved None)
           Examples.regenerating_app).
  - apply (reach_step (OpStart "m-1" "p-1")), reach_initial.
  - vm_compute. reflexivity.
  - vm_compute. lia.
  - reflexivity.
  - reflexivity.
Defined.

(** X16: when the render in which the stop handler was created had the
    meeting registered, [handleStopGeneration] leaves no live interval: a
    firing that begins after the stop makes no backend call, reports nothing
    to the callback and changes neither the hook nor the registry.  When that
    render had not seen the registration, the stop leaves the registry and
    the intervals as they were. *)
Theorem no_update_after_stop (props : Props) (seen : gmap string positive)
  (cancel : outcome unit) (h : positive) (api : outcome SummaryResponse)
  (reload : outcome (option SummaryResponse)) (app : App) :
  reachable (polls app) ->
  let stopped := (handleStopGeneration props seen cancel app).1 in
  (is_Some (seen !! meetingId props) ->
   fire props h api reload stopped
   = (stopped, {| after := ui stopped; effects := []; thrown := None |}))
  /\ (seen !! meetingId props = None -> polls stopped = polls app).
Proof.
  intros Hreach stopped.
  pose proof (PollingProofs.reachable_consistent _ Hreach) as Hst.
  split.
  - intros [h' E]. unfold fire.
    assert (Hpolls : intervals (polls stopped) = ∅
                     /\ updated (polls stopped) = false).
    { unfold stopped, handleStopGeneration, step. cbn [fst polls].
      by rewrite (PollingProofs.step_stop seen _ _ h' Hst E). }
    destruct Hpolls as [Hdead Hupd].
    rewrite PollingProofs.firing_dead; [done|done|].
    by rewrite Hdead.
  - intros E. unfold stopped, handleStopGeneration, step. cbn [fst polls].
    unfold stopSummaryPollingFrom. rewrite E.
    by apply PollingProofs.render_consistent.
Qed.

Lemma no_update_after_stop_witness :
  let stopped :=
    (handleStopGeneration Examples.props1
       (rendered (polls Examples.regenerating_app)) (Resolved tt)
       Examples.regenerating_app).1 in
  fire Examples.props1 1%positive (Resolved Examples.prior_answer)
    (Resolved None) stopped
  = (stopped, {| after := ui stopped; effects := []; thrown := None |}).
Proof.
  apply (no_update_after_stop Examples.props1
           (rendered (polls Examples.regenerating_app)) (Resolved tt)
           1%positive (Resolved Examples.prior_answer) (Resolved None)
           Examples.regenerating_app).
  - apply (reach_step (OpStart "m-1" "p-1")), reach_initial.
  - vm_compute. by eexists.
Defined.

End SummaryMore.

(** ** Transcript recovery, continued *)

Module RecoveryMore.
Import Recovery Observations.

(** *** The markers in [sessionStorage] *)

Lemma cleanMarkers_saved (now : Z) (ss : gmap string string) (k : string) :
  k = "just_saved_meeting_id" \/ k = "just_saved_meeting_timestamp" ->
  cleanMarkers now ss !! k
  = if olderThan SAVED_FLAG_MS now (ss !! "just_saved_meeting_timestamp")
    then None else ss !! k.
Proof.
  intros Hk. unfold cleanMarkers.
  destruct (olderThan SAVED_FLAG_MS now _),
    (olderThan STOP_WINDOW_MS now _);
    destruct Hk as [-> | ->];
    repeat first [ rewrite lookup_delete_eq | rewrite lookup_delete_ne by done ];
    reflexivity.
Qed.

Lemma cleanMarkers_stopped (now : Z) (ss : gmap string string) (k : string) :
  k = "just_stopped_meeting_key" \/ k = "just_stopped_meeting_timestamp" ->
  cleanMarkers now ss !! k
  = if olderThan STOP_WINDOW_MS now (ss !! "just_stopped_meeting_timestamp")
    then None else ss !! k.
Proof.
  intros Hk. unfold cleanMarkers.
  destruct (olderThan SAVED_FLAG_MS now _),
    (olderThan STOP_WINDOW_MS now _);
    destruct Hk as [-> | ->];
    repeat first [ rewrite lookup_delete_eq | rewrite lookup_delete_ne by done ];
    reflexivity.
Qed.

Lemma cleanMarkers_other (now : Z) (ss : gmap string string) (k : string) :
  k <> "just_saved_meeting_id" -> k <> "just_saved_meeting_timestamp" ->
  k <> "just_stopped_meeting_key" ->
  k <> "just_stopped_meeting_timestamp" ->
  cleanMarkers now ss !! k = ss !! k.
Proof.
  intros H1 H2 H3 H4. unfold cleanMarkers.
  destruct (olderThan SAVED_FLAG_MS now _),
    (olderThan STOP_WINDOW_MS now _);
    repeat rewrite lookup_delete_ne by done; reflexivity.
Qed.

(** X17: the scan removes a pair of markers exactly when the timestamp of the
    pair is stale (five minutes for the just-saved pair, two for the
    just-stopped pair), both entries of the pair together, and touches no
    other key of the session storage; a rejected read of the store removes
    nothing. *)
Theorem stale_markers_removed_in_pairs (env : ScanEnv)
  (ss : gmap string string) (st : HookState) (k : string) :
  let after := storage (checkForRecoverableTranscripts env ss st) in
  let savedStale :=
    olderThan SAVED_FLAG_MS (now env) (ss !! "just_saved_meeting_timestamp") in
  let stopStale :=
    olderThan STOP_WINDOW_MS (now env)
      (ss !! "just_stopped_meeting_timestamp") in
  match getAllMeetings env with
  | Resolved _ =>
      after !! k
      = if (String.eqb k "just_saved_meeting_id"
            || String.eqb k "just_saved_meeting_timestamp") && savedStale
        then None
        else if (String.eqb k "just_stopped_meeting_key"
                 || String.eqb k "just_stopped_meeting_timestamp")
                && stopStale
        then None
        else ss !! k
  | Rejected _ => after = ss
  end.
Proof.
  intros after savedStale stopStale. unfold after, savedStale, stopStale.
  unfold checkForRecoverableTranscripts.
  destruct (getAllMeetings env) as [meetings|e]; [|done].
  cbn [storage].
  destruct (String.eqb k "just_saved_meeting_id") eqn:E1.
  { apply String.eqb_eq in E1 as ->.
    rewrite cleanMarkers_saved by (by left). simpl.
    by destruct (olderThan SAVED_FLAG_MS _ _). }
  destruct (String.eqb k "just_saved_meeting_timestamp") eqn:E2.
  { apply String.eqb_eq in E2 as ->.
    rewrite cleanMarkers_saved by (by right). simpl.
    by destruct (olderThan SAVED_FLAG_MS _ _). }
  destruct (String.eqb k "just_stopped_meeting_key") eqn:E3.
  { apply String.eqb_eq in E3 as ->.
    rewrite cleanMarkers_stopped by (by left). simpl.
    by destruct (olderThan STOP_WINDOW_MS _ _). }
  destruct (String.eqb k "just_stopped_meeting_timestamp") eqn:E4.
  { apply String.eqb_eq in E4 as ->.
    rewrite cleanMarkers_stopped by (by right). simpl.
    by destruct (olderThan STOP_WINDOW_MS _ _). }
  apply String.eqb_neq in E1, E2, E3, E4. simpl.
  by apply cleanMarkers_other.
Qed.

Lemma stopInProgress_cleaned (now : Z) (ss : gmap string string)
  (m : MeetingMetadata) :
  stopInProgress now ss m = false ->
  stopInProgress now (cleanMarkers now ss) m = false.
Proof.
  unfold stopInProgress. intros Hstop.
  rewrite !cleanMarkers_stopped by auto.
  by destruct (olderThan STOP_WINDOW_MS now _).
Qed.

(** X18: a just-saved marker whose timestamp is older than five minutes still
    hides its meeting in the scan that finds it stale, because the filter
    uses the marker as read before the cleanup; the scan removes the marker,
    and the next scan lists the meeting. *)
Theorem stale_saved_marker_hides_once (env : ScanEnv)
  (ss : gmap string string) (st : HookState)
  (meetings : list MeetingMetadata) (m : MeetingMetadata) :
  getAllMeetings env = Resolved meetings ->
  In m meetings ->
  ss !! "just_saved_meeting_id" = Some (meetingId m) ->
  meetingId m <> "" ->
  olderThan SAVED_FLAG_MS (now env) (ss !! "just_saved_meeting_timestamp")
  = true ->
  stopInProgress (now env) ss m = false ->
  (now env - RETENTION_MS < lastUpdated m < now env - MIN_AGE_MS)%Z ->
  let first := checkForRecoverableTranscripts env ss st in
  let second :=
    checkForRecoverableTranscripts env (storage first) (scanned first) in
  listed m first = false
  /\ storage first !! "just_saved_meeting_id" = None
  /\ listed m second = true.
Proof.
  intros Hget Hin Hid Hne Hstale Hstop Hrange first second.
  assert (Hstorage : storage first = cleanMarkers (now env) ss).
  { unfold first, checkForRecoverableTranscripts. by rewrite Hget. }
  assert (Hgone : cleanMarkers (now env) ss !! "just_saved_meeting_id"
                  = None).
  { rewrite cleanMarkers_saved by (by left). by rewrite Hstale. }
  split; [|split].
  - unfold first.
    rewrite (RecoveryProofs.listed_iff_keep env ss st meetings m Hget Hin).
    unfold keepMeeting, justSaved. rewrite Hid, String.eqb_refl.
    by destruct (meetingId m).
  - by rewrite Hstorage.
  - unfold second.
    rewrite (RecoveryProofs.listed_iff_keep env _ _ meetings m Hget Hin).
    rewrite Hstorage. apply RecoveryProofs.keepMeeting_spec.
    split; [done|]. split; [|by apply stopInProgress_cleaned].
    unfold justSaved. by rewrite Hgone.
Qed.

Lemma stale_saved_marker_hides_once_witness :
  let first :=
    checkForRecoverableTranscripts Examples.scan_env
      MoreExamples.stale_saved_markers Examples.fresh_hook in
  listed Examples.minute_old first = false
  /\ storage first !! "just_saved_meeting_id" = None
  /\ listed Examples.minute_old
       (checkForRecoverableTranscripts Examples.scan_env (storage first)
          (scanned first)) = true.
Proof.
  apply (stale_saved_marker_hides_once Examples.scan_env
           MoreExamples.stale_saved_markers Examples.fresh_hook
           [Examples.minute_old] Examples.minute_old).
  - reflexivity.
  - left. reflexivity.
  - vm_compute. reflexivity.
  - discriminate.
  - vm_compute. reflexivity.
  - vm_compute. reflexivity.
  - vm_compute. split; reflexivity.
Defined.

(** *** Loading the stored transcripts *)

Lemma sort_insert_ext {A : Type} (cmp1 cmp2 : A -> A -> Q) (x : A)
  (l : list A) :
  (forall a b, Qle_bool (cmp1 a b) 0 = Qle_bool (cmp2 a b) 0) ->
  sort_insert cmp1 x l = sort_insert cmp2 x l.
Proof.
  intros Hext. induction l as [|y r IH]; simpl; [done|].
  by rewrite Hext, IH.
Qed.

Lemma array_sort_ext {A : Type} (cmp1 cmp2 : A -> A -> Q) (l : list A) :
  (forall a b, Qle_bool (cmp1 a b) 0 = Qle_bool (cmp2 a b) 0) ->
  array_sort cmp1 l = array_sort cmp2 l.
Proof.
  intros Hext. unfold array_sort.
  induction l as [|x l IH]; simpl; [done|].
  rewrite IH. by apply sort_insert_ext.
Qed.

Lemma StronglySorted_weaken {A : Type} (R R' : A -> A -> Prop)
  (l : list A) :
  (forall a b, R a b -> R' a b) ->
  StronglySorted R l -> StronglySorted R' l.
Proof.
  intros Himp. induction 1 as [|x l Hl IH Hall]; constructor; [done|].
  eapply Forall_impl; [exact Hall|]. intros b. apply Himp.
Qed.

Lemma bySequenceId_sorts (l : list StoredTranscript) :
  StronglySorted (fun a b => (sequence_or_zero a <= sequence_or_zero b)%Z)
    (array_sort bySequenceId l)
  /\ array_sort bySequenceId l ≡ₚ l.
Proof.
  set (key := fun t : StoredTranscript => inject_Z (sequence_or_zero t)).
  assert (E : array_sort bySequenceId l
              = array_sort (fun a b => (key a - key b)%Q) l).
  { apply array_sort_ext. intros a b. unfold bySequenceId, key.
    unfold sequence_or_zero, Qle_bool, Qminus, Qplus, Qopp, inject_Z. simpl.
    apply eq_true_iff_eq. rewrite !Z.leb_le. lia. }
  rewrite E. split; [|apply (array_sort_perm key)].
  eapply StronglySorted_weaken; [|apply (array_sort_strongly_sorted key)].
  intros a b. unfold key. by rewrite <- Zle_Qle.
Qed.

(** X19: [loadMeetingTranscripts] never rejects: it resolves with the stored
    transcripts of the meeting in ascending order of sequence number (a
    missing number counts as zero), nothing added and nothing lost, and with
    the empty list when the read of the store is rejected. It changes neither
    the hook nor the stores. *)
Theorem loadMeetingTranscripts_sorted (env : RecoverEnv) (meeting : string)
  (w : World) :
  let run := loadMeetingTranscripts env meeting w in
  exists loaded,
    run.1 = Resolved loaded
    /\ StronglySorted
         (fun a b => (sequence_or_zero a <= sequence_or_zero b)%Z) loaded
    /\ match getTranscripts env with
       | Resolved stored => loaded ≡ₚ stored
       | Rejected _ => loaded = []
       end
    /\ hook run.2 = hook w
    /\ markedSaved run.2 = markedSaved w
    /\ permanent run.2 = permanent w.
Proof.
  unfold loadMeetingTranscripts, tryCatch, andThen, await, pure. simpl.
  destruct (getTranscripts env) as [stored|e]; simpl.
  - exists (array_sort bySequenceId stored).
    destruct (bySequenceId_sorts stored) as [Hs Hp]. by repeat split.
  - exists []. repeat split; constructor.
Qed.

(** *** recoverMeeting *)

(** X20: once metadata and transcripts are loaded and the save and the mark
    go through, the recovery succeeds with the id the save returned whatever
    becomes of the best-effort steps (the folder lookup, the audio recovery,
    the checkpoint cleanup): a rejected audio recovery is only reported in
    the audio status. The meeting leaves the recoverable list, the other
    entries stay in order, and [isRecovering] is reset. *)
Theorem best_effort_steps_never_fail_recovery (env : RecoverEnv)
  (meeting : string) (w : World) (metadata : MeetingMetadata)
  (t : StoredTranscript) (ts : list StoredTranscript) (sid : string) :
  getMeetingMetadata env = Resolved (Some metadata) ->
  getTranscripts env = Resolved (t :: ts) ->
  saveMeeting env = Resolved sid ->
  markMeetingSaved env = Resolved tt ->
  let run := recoverMeeting env meeting w in
  (exists audio,
      run.1 = Resolved {| success := true;
                          audioRecoveryStatus := Some audio;
                          savedMeetingId := sid |}
      /\ ((exists e, recover_audio_from_checkpoints env = Rejected e) ->
          ar_status audio = "failed" \/ ar_status audio = "none"))
  /\ recoverableMeetings (hook run.2)
     = List.filter (fun m => negb (String.eqb (meetingId m) meeting))
         (recoverableMeetings (hook w))
  /\ isRecovering (hook run.2) = false.
Proof.
  intros Emeta Ets Esave Emark.
  RecoveryProofs.run_recovery. rewrite Emeta, Ets, Esave, Emark.
  RecoveryProofs.reduce_world.
  pose proof (array_sort_length bySequenceId (t :: ts)) as Hlen.
  destruct (array_sort bySequenceId (t :: ts)) as [|t' ts'] eqn:Esort;
    [done|]. RecoveryProofs.reduce_world.
  destruct (get_meeting_folder_path env) as [fp|?];
    destruct (recover_audio_from_checkpoints env) as [audio|?];
    destruct (cleanup_checkpoints env) as [[]|?];
    RecoveryProofs.reduce_world; RecoveryProofs.split_tests;
    (split; [eexists; split; [reflexivity|]|split; reflexivity]);
    intros Hrej; simpl;
    first [by left | by right | by destruct Hrej as [? [=]]].
Qed.

Lemma best_effort_steps_never_fail_recovery_witness :
  recoverableMeetings
    (hook (recoverMeeting MoreExamples.cleanup_fails "rec-1"
             Examples.listing).2)
  = [].
Proof.
  apply (best_effort_steps_never_fail_recovery MoreExamples.cleanup_fails
           "rec-1" Examples.listing Examples.minute_old Examples.stored_line
           [] "saved-1");
    reflexivity.
Defined.

(** X21: when the save resolves and [markMeetingSaved] is then rejected, the
    recovery is rejected with that error although the meeting has been saved:
    the mark was the last call made, no cleanup was attempted, the checkpoint
    is not marked and the meeting stays in the recoverable list. *)
Theorem mark_failure_leaves_saved_unmarked (env : RecoverEnv)
  (meeting : string) (w : World) (metadata : MeetingMetadata)
  (t : StoredTranscript) (ts : list StoredTranscript) (sid : string)
  (e : Thrown) :
  getMeetingMetadata env = Resolved (Some metadata) ->
  getTranscripts env = Resolved (t :: ts) ->
  saveMeeting env = Resolved sid ->
  markMeetingSaved env = Rejected e ->
  let run := recoverMeeting env meeting w in
  let new := newCalls w run.2 in
  run.1 = Rejected e
  /\ existsb isSaveMeeting new = true
  /\ last new = Some (MarkMeetingSaved meeting)
  /\ existsb isCleanupCheckpoints new = false
  /\ markedSaved run.2 = markedSaved w
  /\ recoverableMeetings (hook run.2) = recoverableMeetings (hook w)
  /\ isRecovering (hook run.2) = false.
Proof.
  intros Emeta Ets Esave Emark.
  RecoveryProofs.run_recovery. rewrite Emeta, Ets, Esave, Emark.
  RecoveryProofs.reduce_world.
  pose proof (array_sort_length bySequenceId (t :: ts)) as Hlen.
  destruct (array_sort bySequenceId (t :: ts)) as [|t' ts'] eqn:Esort;
    [done|]. RecoveryProofs.reduce_world.
  destruct (get_meeting_folder_path env) as [fp|?];
    destruct (recover_audio_from_checkpoints env) as [audio|?];
    RecoveryProofs.reduce_world; RecoveryProofs.split_tests;
    unfold newCalls; RecoveryProofs.reduce_world;
    rewrite <- ?app_assoc, ?drop_app_length;
    repeat split; reflexivity.
Qed.

Lemma mark_failure_leaves_saved_unmarked_witness :
  let run :=
    recoverMeeting MoreExamples.mark_fails "rec-1" Examples.listing in
  run.1 = Rejected (ErrorObj "store closed")
  /\ existsb isSaveMeeting (newCalls Examples.listing run.2) = true.
Proof.
  destruct (mark_failure_leaves_saved_unmarked MoreExamples.mark_fails
              "rec-1" Examples.listing Examples.minute_old
              Examples.stored_line [] "saved-1" (ErrorObj "store closed"))
    as (H1 & H2 & _); try reflexivity.
  split; assumption.
Defined.

(** *** The ids of the recovered transcripts *)

Lemma pretty_N_char_digit (x : N) : isDigit (pretty_N_char x) = true.
Proof.
  unfold pretty_N_char. destruct x as [|p]; [done|].
  by repeat (destruct p as [p|p|]; try done).
Qed.

Lemma pretty_N_go_digits (x : N) :
  forall s, allDigits s = true -> allDigits (pretty_N_go x s) = true.
Proof.
  induction (N.lt_wf_0 x) as [x _ IH]. intros s Hs.
  assert (x = 0 \/ 0 < x)%N as [->|Hpos] by lia; [done|].
  rewrite pretty_N_go_step by done. apply IH.
  - by apply N.div_lt.
  - simpl. by rewrite pretty_N_char_digit.
Qed.

Lemma pretty_N_go_length (x : N) :
  forall s, String.length s <= String.length (pretty_N_go x s).
Proof.
  induction (N.lt_wf_0 x) as [x _ IH]. intros s.
  assert (x = 0 \/ 0 < x)%N as [->|Hpos] by lia; [done|].
  rewrite pretty_N_go_step by done.
  etrans; [|apply IH; by apply N.div_lt]. simpl. lia.
Qed.

Lemma pretty_N_digits (x : N) :
  allDigits (pretty x) = true /\ pretty x <> "".
Proof.
  unfold pretty, pretty_N. destruct (decide (x = 0%N)) as [->|Hne]; [done|].
  split; [by apply pretty_N_go_digits|].
  rewrite pretty_N_go_step by lia. intros E.
  pose proof (pretty_N_go_length (x `div` 10)
                (String (pretty_N_char (x `mod` 10)) "")) as Hlen.
  rewrite E in Hlen. simpl in Hlen. lia.
Qed.

Lemma pretty_Z_digits (z : Z) :
  (0 <= z)%Z -> allDigits (pretty z) = true /\ pretty z <> "".
Proof.
  intros Hz. destruct z as [|p|p]; [done| |lia].
  apply (pretty_N_digits (Npos p)).
Qed.

Lemma allDigits_dash (s1 s2 : string) :
  allDigits (s1 +:+ "-" +:+ s2) = false.
Proof.
  induction s1 as [|a r IH]; [done|]. simpl. rewrite IH. apply andb_false_r.
Qed.

(** A stored id never reads like a generated one. *)
Lemma stored_id_not_generated (clock n : Z) (index : nat) :
  (0 <= clock)%Z ->
  pretty n <> pretty clock +:+ "-" +:+ pretty index.
Proof.
  intros Hclock E.
  destruct (pretty_Z_digits clock Hclock) as [Hdigits Hne].
  destruct (Z_lt_le_dec n 0) as [Hneg|Hpos].
  - destruct n as [|p|p]; try lia.
    change (pretty (Z.neg p)) with ("-" +:+ pretty p) in E.
    destruct (pretty clock) as [|a r]; [done|].
    simpl in E, Hdigits. injection E as <- _. done.
  - destruct (pretty_Z_digits n Hpos) as [Hn _].
    rewrite E, allDigits_dash in Hn. done.
Qed.

(** X22: the transcripts a recovery hands to [saveMeeting] have pairwise
    distinct ids whenever the stored ids are distinct and the clock is not
    negative: stored ids are kept, the ids generated for transcripts without
    one differ from each other and from every stored id. *)
Theorem recovered_ids_distinct (clock : Z) (ts : list StoredTranscript) :
  (0 <= clock)%Z ->
  (forall i j ti tj n,
     ts !! i = Some ti -> ts !! j = Some tj ->
     id ti = Some n -> id tj = Some n -> i = j) ->
  NoDup (map f_id (imap (formatTranscript clock) ts)).
Proof.
  intros Hclock Hstored.
  change (NoDup (f_id <$> imap (formatTranscript clock) ts)).
  apply NoDup_alt. intros i j x Hi Hj.
  rewrite list_lookup_fmap, list_lookup_imap in Hi, Hj.
  destruct (ts !! i) as [ti|] eqn:Eti; [|done].
  destruct (ts !! j) as [tj|] eqn:Etj; [|done].
  simpl in Hi, Hj. injection Hi as Hi. injection Hj as Hj.
  rewrite <- Hj in Hi. clear Hj x.
  destruct (id ti) as [n|] eqn:Ei, (id tj) as [n'|] eqn:Ej.
  - apply (inj pretty) in Hi as ->. by apply (Hstored i j ti tj n').
  - by destruct (stored_id_not_generated clock n j Hclock).
  - by destruct (stored_id_not_generated clock n' i Hclock).
  - apply (inj (String.append (pretty clock))) in Hi.
    apply (inj (String.append "-")) in Hi.
    by apply (inj pretty) in Hi.
Qed.

Lemma recovered_ids_distinct_witness :
  NoDup (map f_id
           (imap (formatTranscript Examples.scan_now)
              [Examples.stored_line; MoreExamples.unnumbered_line;
               MoreExamples.unnumbered_line])).
Proof.
  apply recovered_ids_distinct.
  - vm_compute. discriminate.
  - intros [|[|[|i]]] [|[|[|j]]] ti tj n Hi Hj; simpl in Hi, Hj;
      try discriminate; injection Hi as <-; injection Hj as <-;
      simpl; congruence.
Defined.

End RecoveryMore.

(** ** The meeting page *)

Module MeetingPageProofs.
Import Api MeetingPage.

(** X23: auto-generation is switched on only for a page that was opened from
    a recording, with the auto-summary preference on, and either a model in
    the stored configuration or [gemma3:1b] listed by Ollama and the fallback
    configuration saved; it is never switched off; a configuration is saved
    only when the stored one has no model; and every run leaves the check
    marked as done. *)
Theorem auto_generation_guarded (source : option string)
  (isAutoSummary : bool) (currentConfig : outcome (option ModelConfig))
  (models : outcome (option (list (option string))))
  (save : outcome unit) (st : AutoGen) :
  let run :=
    setupAutoGeneration source isAutoSummary currentConfig models save st in
  hasCheckedAutoGen run.1 = true
  /\ (shouldAutoGenerate st = true -> shouldAutoGenerate run.1 = true)
  /\ (shouldAutoGenerate st = false -> shouldAutoGenerate run.1 = true ->
      hasCheckedAutoGen st = false
      /\ source = Some "recording"
      /\ isAutoSummary = true
      /\ exists config,
           currentConfig = Resolved config
           /\ (hasModel config = true
               \/ (checkForGemmaModel models = true
                   /\ exists u, save = Resolved u)))
  /\ (existsb isSave run.2 = true ->
      exists config,
        currentConfig = Resolved config /\ hasModel config = false
        /\ checkForGemmaModel models = true).
Proof.
  unfold setupAutoGeneration.
  destruct (hasCheckedAutoGen st) eqn:Hchecked.
  { simpl. repeat split; try done; congruence. }
  destruct (bool_decide (source = Some "recording")) eqn:Hsource; simpl;
    [apply bool_decide_eq_true in Hsource|repeat split; try done; congruence].
  destruct isAutoSummary; simpl; [|repeat split; try done; congruence].
  destruct currentConfig as [config|e]; simpl;
    [|repeat split; try done; congruence].
  destruct (hasModel config) eqn:Hmodel; simpl.
  { repeat split; try done. exists config. split; [done|]. by left. }
  destruct (checkForGemmaModel models) eqn:Hgemma; simpl;
    [|repeat split; try done; congruence].
  destruct save as [u|e]; simpl;
    repeat split; try done; try congruence;
    exists config; split; try done.
  right. split; [done|]. by exists u.
Qed.

Lemma auto_generation_guarded_witness :
  hasCheckedAutoGen
    (setupAutoGeneration (Some "recording") true (Resolved None)
       (Resolved (Some [Some "gemma3:1b"])) (Resolved tt)
       (mkAutoGen false false)).1
  = true.
Proof.
  exact (proj1 (auto_generation_guarded (Some "recording") true
                  (Resolved None) (Resolved (Some [Some "gemma3:1b"]))
                  (Resolved tt) (mkAutoGen false false))).
Defined.

(** X24: the configuration the fallback saves names no model: read back from
    the database as it was saved, it counts as an empty configuration again,
    so a later check (of another meeting) lists the Ollama models and takes
    the fallback once more instead of using the stored configuration. *)
Theorem fallback_config_counts_as_empty (source : option string)
  (isAutoSummary : bool) (currentConfig : outcome (option ModelConfig))
  (models models' : outcome (option (list (option string))))
  (save save' : outcome unit) (st : AutoGen) (saved : ModelConfig) :
  In (ApiSaveModelConfig saved)
    (setupAutoGeneration source isAutoSummary currentConfig models save st).2
  ->
  hasModel (Some saved) = false
  /\ existsb isModelListing
       (setupAutoGeneration source isAutoSummary (Resolved (Some saved))
          models' save' st).2
     = true.
Proof.
  unfold setupAutoGeneration.
  destruct (hasCheckedAutoGen st); [intros []|].
  destruct (bool_decide (source = Some "recording")); simpl; [|intros []].
  destruct isAutoSummary; simpl; [|intros []].
  assert (Hsaved : saved = fallbackConfig ->
            hasModel (Some saved) = false
            /\ existsb isModelListing
                 (if hasModel (Some saved)
                  then (setHasCheckedAutoGen true
                          (setShouldAutoGenerate true st),
                        [ApiGetModelConfig])
                  else if checkForGemmaModel models'
                  then match save' with
                       | Resolved _ =>
                           (setHasCheckedAutoGen true
                              (setShouldAutoGenerate true st),
                            [ApiGetModelConfig; GetOllamaModels;
                             ApiSaveModelConfig fallbackConfig])
                       | Rejected _ =>
                           (setHasCheckedAutoGen true st,
                            [ApiGetModelConfig; GetOllamaModels;
                             ApiSaveModelConfig fallbackConfig])
                       end
                  else (setHasCheckedAutoGen true st,
                        [ApiGetModelConfig; GetOllamaModels])).2 = true).
  { intros ->. split; [done|]. simpl.
    by destruct (checkForGemmaModel models'), save'. }
  destruct currentConfig as [config|e]; simpl.
  - destruct (hasModel config); simpl.
    { intros [[=]|[]]. }
    destruct (checkForGemmaModel models); simpl.
    + destruct save; simpl;
        (intros [[=]|[[=]|[[= <-]|[]]]]; by apply Hsaved).
    + intros [[=]|[[=]|[]]].
  - intros [[=]|[]].
Qed.

Lemma fallback_config_counts_as_empty_witness :
  hasModel (Some fallbackConfig) = false
  /\ existsb isModelListing
       (setupAutoGeneration (Some "recording") true
          (Resolved (Some fallbackConfig))
          (Resolved (Some [Some "gemma3:1b"])) (Resolved tt)
          (mkAutoGen false false)).2
     = true.
Proof.
  apply (fallback_config_counts_as_empty (Some "recording") true
           (Resolved None) (Resolved (Some [Some "gemma3:1b"]))
           (Resolved (Some [Some "gemma3:1b"])) (Resolved tt) (Resolved tt)
           (mkAutoGen false false) fallbackConfig).
  vm_compute. right. right. left. reflexivity.
Defined.

Lemma lookup_rest (d : SummaryData) (key : string) :
  key <> "_section_order" ->
  SummaryGeneration.lookup_property key (SummaryGeneration.summarySections d)
  = SummaryGeneration.lookup_property key (restSummaryData d).
Proof.
  intros Hkey. apply not_eq_sym, String.eqb_neq in Hkey.
  unfold SummaryGeneration.summarySections, restSummaryData.
  destruct (markdown d) as [md|], (_section_order d) as [order|];
    cbn [app SummaryGeneration.lookup_property]; by rewrite ?Hkey.
Qed.

Lemma lookup_property_absent (key : string) (ps : list (string * JValue)) :
  ~ In key (map fst ps) -> SummaryGeneration.lookup_property key ps = None.
Proof.
  induction ps as [|[k v] rest IH]; intros Hnot; [done|]. simpl.
  destruct (String.eqb k key) eqn:E.
  - apply String.eqb_eq in E. destruct Hnot. by left.
  - apply IH. intros Hin. apply Hnot. by right.
Qed.

Lemma formatSection_alike (d : SummaryData) (key : string) acc :
  ~ In "_section_order" (map fst (properties d)) ->
  formatSectionPage d key acc = SummaryGeneration.formatSection d key acc.
Proof.
  intros Hfree. unfold formatSectionPage, SummaryGeneration.formatSection.
  destruct (decide (key = "_section_order")) as [->|Hkey].
  - assert (E1 : SummaryGeneration.lookup_property "_section_order"
                   (restSummaryData d) = None).
    { unfold restSummaryData.
      destruct (markdown d); cbn [app SummaryGeneration.lookup_property];
        rewrite ?(proj2 (String.eqb_neq "markdown" "_section_order"))
          by discriminate;
        by apply lookup_property_absent. }
    rewrite E1.
    unfold SummaryGeneration.summarySections.
    destruct (markdown d), (_section_order d);
      cbn [app SummaryGeneration.lookup_property];
      rewrite ?(proj2 (String.eqb_neq "markdown" "_section_order"))
        by discriminate;
      rewrite ?String.eqb_refl; try done;
      by rewrite lookup_property_absent.
  - by rewrite lookup_rest.
Qed.

(** X25: the page formats a stored legacy summary exactly as the polling
    callback of the hook formats a fresh one, [_section_order] not being
    among the other keys of the data: same sections, same order, same titles
    and blocks. *)
Theorem page_formats_like_the_hook (d : SummaryData) :
  ~ In "_section_order" (map fst (properties d)) ->
  formatLegacyPage d = SummaryGeneration.formatLegacy d.
Proof.
  intros Hfree. unfold formatLegacyPage, SummaryGeneration.formatLegacy.
  assert (Hkeys : match _section_order d with
                  | Some order => order
                  | None => map fst (restSummaryData d)
                  end
                  = match _section_order d with
                    | Some order => order
                    | None => map fst (SummaryGeneration.summarySections d)
                    end).
  { unfold restSummaryData, SummaryGeneration.summarySections.
    by destruct (_section_order d). }
  rewrite Hkeys.
  generalize (match _section_order d with
              | Some order => order
              | None => map fst (SummaryGeneration.summarySections d)
              end).
  intros keys. generalize (@nil (string * SummaryGeneration.FormattedSection)).
  induction keys as [|key rest IH]; intros acc; [done|].
  simpl. by rewrite formatSection_alike, IH.
Qed.

Lemma page_formats_like_the_hook_witness :
  formatLegacyPage MoreExamples.legacy
  = SummaryGeneration.formatLegacy MoreExamples.legacy.
Proof.
  apply page_formats_like_the_hook.
  vm_compute. intros [H|[H|[]]]; discriminate H.
Defined.

End MeetingPageProofs.

(** ** Generating a summary *)

Module GenerateProofs.
Import Api SummaryGeneration Generate Observations.

Lemma fetchAllTranscripts_steps (failure : string) (env : Env) :
  existsb isHook (fetchAllTranscripts failure env).2 = false
  /\ ((fetchAllTranscripts failure env).1 <> [] <->
      exists first all,
        firstPage env = Resolved first /\ total_count first <> 0
        /\ allData env = Resolved all /\ transcripts all <> [])
  /\ forall all,
       allData env = Resolved all ->
       (fetchAllTranscripts failure env).1 <> [] ->
       (fetchAllTranscripts failure env).1 = transcripts all.
Proof.
  unfold fetchAllTranscripts.
  destruct (firstPage env) as [first|e].
  - destruct (total_count first =? 0)%nat eqn:Hcount.
    + apply Nat.eqb_eq in Hcount. split; [done|]. split; [|done].
      split; [done|]. intros (f & a & [= <-] & Hne & _). done.
    + apply Nat.eqb_neq in Hcount.
      destruct (allData env) as [all|e].
      * split; [done|]. split; [|by intros ? [= <-]].
        split; [intros Hne; by exists first, all|].
        by intros (f & a & _ & _ & [= <-] & Hne).
      * split; [done|]. split; [|done].
        split; [done|]. by intros (f & a & _ & _ & [=] & _).
  - split; [done|]. split; [|done].
    split; [done|]. by intros (f & a & [=] & _).
Qed.

Lemma ollamaCheck_steps (props : Props) (env : Env) :
  existsb isHook (ollamaCheck props env).1 = false
  /\ ((ollamaCheck props env).2 = true <->
      (provider props = "ollama" ->
       exists m ms, ollamaModels env = Resolved (Some (m :: ms)))).
Proof.
  unfold ollamaCheck.
  destruct (String.eqb (provider props) "ollama") eqn:E.
  - apply String.eqb_eq in E.
    destruct (ollamaModels env) as [[[|m ms]|]|e]; (split; [|split]);
      try done;
      try (intros H; by destruct (H E) as (? & ? & [=])).
    + intros _ _. by exists m, ms.
    + simpl. by destruct (isOllamaNotInstalledError env _).
  - apply String.eqb_neq in E. by split.
Qed.

Lemma openSettings_steps (props : Props) :
  existsb isHook (openSettings props) = false.
Proof. unfold openSettings. by destruct (onOpenModelSettings props). Qed.

Lemma builtinCheck_steps (props : Props) (env : Env) :
  existsb isHook (builtinCheck props env).1 = false
  /\ ((builtinCheck props env).2 = true <->
      (provider props = "builtin-ai" ->
       model props <> "" /\ isModelReady env = Resolved true)).
Proof.
  unfold builtinCheck.
  destruct (String.eqb (provider props) "builtin-ai") eqn:E.
  - apply String.eqb_eq in E.
    destruct (truthy_str (model props)) eqn:Hmodel; simpl.
    + destruct (isModelReady env) as [[|]|e]; simpl.
      * split; [done|]. split; [|done]. intros _ _. split; [|done].
        intros Hnone. by rewrite Hnone in Hmodel.
      * destruct (modelInfo env) as [info|e]; cbn [fst snd].
        -- split; [|split; [done|intros H; by destruct (H E) as [_ [=]]]].
           simpl. unfold notReady.
           destruct info as [[| | | |]|]; simpl;
             try done; apply openSettings_steps.
        -- split; [done|]. split; [done|].
           intros H; by destruct (H E) as [_ [=]].
      * split; [done|]. split; [done|].
        intros H; by destruct (H E) as [_ [=]].
    + split; [apply openSettings_steps|]. split; [done|].
      intros H. destruct (H E) as [Hne _]. by destruct (model props).
  - apply String.eqb_neq in E. by split.
Qed.

Lemma hook_free_no_request (steps : list Step) :
  existsb isHook steps = false -> existsb isProcessRequest steps = false.
Proof.
  induction steps as [|s steps IH]; [done|]. simpl.
  intros [Hs Hrest]%orb_false_iff. rewrite (IH Hrest), orb_false_r.
  by destruct s.
Qed.

Lemma processSummary_requests (props : Props) (text prompt : string)
  (isRegeneration : bool) (backend : outcome string) (app : App) :
  let evs :=
    (processSummary props text prompt isRegeneration backend app).2 in
  evs <> []
  /\ existsb isProcessRequest (map Hook evs) = truthy_str (trim text).
Proof.
  unfold processSummary.
  destruct (truthy_str (trim text)); [|by split].
  destruct backend; simpl; destruct (truthy_str (trim prompt)); simpl;
    split; try done; by rewrite ?orb_true_r.
Qed.

(** X26: [handleGenerateSummary] sends [api_process_transcript] exactly when
    the model configuration is loaded, both reads of the transcripts resolve
    with a non-zero total and a non-empty list whose text is not blank, the
    Ollama provider lists at least one model, and the built-in provider has a
    model selected that is ready. A run that one of the guards stops leaves
    the hook as it was. *)
Theorem process_request_exactly_when (props : Props) (env : Env)
  (customPrompt : string) (app : App) :
  let run := handleGenerateSummary props env customPrompt app in
  (existsb isHook run.2 = false -> run.1 = app)
  /\ (existsb isProcessRequest run.2 = true <->
      isModelConfigLoading env = false
      /\ (exists first all,
             firstPage env = Resolved first /\ total_count first <> 0
             /\ allData env = Resolved all /\ transcripts all <> []
             /\ truthy_str (trim (fullTranscript (transcripts all)))
                = true)
      /\ (provider props = "ollama" ->
          exists m ms, ollamaModels env = Resolved (Some (m :: ms)))
      /\ (provider props = "builtin-ai" ->
          model props <> "" /\ isModelReady env = Resolved true)).
Proof.
  unfold handleGenerateSummary.
  destruct (isModelConfigLoading env) eqn:Hloading.
  { split; [done|]. split; [done|]. by intros [? _]. }
  destruct (fetchAllTranscripts_steps
              "要約生成用の文字起こしの取得に失敗しました" env)
    as (Hf1 & Hf2 & Hf4).
  destruct (fetchAllTranscripts _ env) as [allTranscripts fetched].
  cbn [fst snd] in Hf1, Hf2, Hf4.
  pose proof (hook_free_no_request _ Hf1) as Hf3.
  destruct (length allTranscripts =? 0)%nat eqn:Hlen.
  { split; [done|]. cbn [snd]. rewrite existsb_app, Hf3.
    split; [done|]. intros (_ & (f & a & E1 & E2 & E3 & E4 & _) & _).
    assert (Hread : allTranscripts <> [])
      by (apply Hf2; by exists f, a).
    by destruct allTranscripts. }
  assert (Hne : allTranscripts <> []) by (by intros ->).
  destruct (ollamaCheck_steps props env) as [Ho1 Ho2].
  destruct (ollamaCheck props env) as [asked1 go1]. cbn [fst snd] in Ho1, Ho2.
  pose proof (hook_free_no_request _ Ho1) as Ho3.
  destruct go1; simpl.
  2:{ split; [done|]. rewrite existsb_app, Hf3, Ho3.
      split; [done|]. intros (_ & _ & Hollama & _).
      by apply Ho2 in Hollama. }
  destruct (builtinCheck_steps props env) as [Hb1 Hb2].
  destruct (builtinCheck props env) as [asked2 go2].
  cbn [fst snd] in Hb1, Hb2.
  pose proof (hook_free_no_request _ Hb1) as Hb3.
  destruct go2; simpl.
  2:{ split; [done|]. rewrite !existsb_app, Hf3, Ho3, Hb3.
      split; [done|]. intros (_ & _ & _ & Hbuiltin).
      by apply Hb2 in Hbuiltin. }
  destruct (processSummary_requests props (fullTranscript allTranscripts)
              customPrompt false (backend env) app) as [Hevs Hreq].
  destruct (processSummary props (fullTranscript allTranscripts) customPrompt
              false (backend env) app) as [app' evs].
  cbn [fst snd] in Hevs, Hreq. simpl. split.
  - rewrite !existsb_app, Hf1, Ho1, Hb1. simpl.
    destruct evs as [|e evs]; done.
  - rewrite !existsb_app, Hf3, Ho3, Hb3, Hreq. simpl.
    destruct (proj1 Hf2 Hne) as (first & all & E1 & E2 & E3 & E4).
    rewrite (Hf4 all E3 Hne). split.
    + intros Htext. split; [done|]. split; [by exists first, all|].
      split; [by apply Ho2|by apply Hb2].
    + intros (_ & (f & a & _ & _ & Ea & _ & Htext) & _).
      rewrite E3 in Ea. by injection Ea as <-.
Qed.

Lemma process_request_exactly_when_witness :
  existsb isProcessRequest
    (handleGenerateSummary Examples.props1 MoreExamples.ready_env ""
       Examples.regenerating_app).2
  = true.
Proof.
  apply (process_request_exactly_when Examples.props1 MoreExamples.ready_env
           "" Examples.regenerating_app).
  split; [reflexivity|]. split; [|split].
  - exists (mkTranscriptsResponse [MoreExamples.line_a] 1),
      (mkTranscriptsResponse [MoreExamples.line_a] 1).
    repeat split; try discriminate; vm_compute; reflexivity.
  - intros _. by exists (Some "gemma3:1b"), [].
  - discriminate.
Defined.

(** *** A stamped transcript is never blank *)

Lemma isInk_ascii (a : ascii) :
  isInk a = true -> (N_of_ascii a < 128)%N /\ Ascii.is_space a = false.
Proof.
  unfold isInk. intros [Hlt Hsp]%andb_true_iff.
  split; [by apply N.ltb_lt|by apply negb_true_iff].
Qed.

Lemma white2_high (a b : ascii) :
  white2 a b = true -> isInk a = false /\ isInk b = false.
Proof.
  unfold white2, byte_is, isInk.
  intros [Ha Hb]%andb_true_iff. apply N.eqb_eq in Ha, Hb.
  split; apply andb_false_iff; left; apply N.ltb_ge; lia.
Qed.

Lemma white3_high (a b c : ascii) :
  white3 a b c = true ->
  isInk a = false /\ isInk b = false /\ isInk c = false.
Proof.
  unfold white3, byte_is, isInk.
  rewrite !orb_true_iff, !andb_true_iff, !orb_true_iff, !andb_true_iff,
    !N.eqb_eq, !N.leb_le.
  intros H. repeat split; apply andb_false_iff; left; apply N.ltb_ge; lia.
Qed.

Lemma trimStart_ink (a : ascii) (r : string) :
  isInk a = true -> trimStart (String a r) = String a r.
Proof.
  intros Ha. destruct (isInk_ascii a Ha) as [_ Hsp].
  cbn [trimStart]. rewrite Hsp.
  destruct r as [|b r']; [done|].
  destruct (white2 a b) eqn:E2.
  { apply white2_high in E2 as [E2 _]. congruence. }
  destruct r' as [|c r'']; [done|].
  destruct (white3 a b c) eqn:E3; [|done].
  apply white3_high in E3 as (E3 & _). congruence.
Qed.

Lemma trimStartReversed_ink (n : nat) :
  forall s,
    String.length s <= n -> hasInk s = true ->
    hasInk (trimStartReversed s) = true.
Proof.
  induction n as [|n IH]; intros s Hlen Hs.
  { destruct s; [done|simpl in Hlen; lia]. }
  destruct s as [|c r]; [done|]. cbn [trimStartReversed].
  cbn [hasInk] in Hs. simpl in Hlen.
  destruct (Ascii.is_space c) eqn:Hsp.
  { apply IH; [lia|]. unfold isInk in Hs. rewrite Hsp, andb_false_r in Hs.
    exact Hs. }
  destruct r as [|b r']; [by cbn [hasInk]|].
  destruct (white2 b c) eqn:E2.
  { apply white2_high in E2 as [Eb Ec]. cbn [hasInk] in Hs.
    rewrite Eb, Ec in Hs. simpl in Hlen, Hs. apply IH; [lia|exact Hs]. }
  destruct r' as [|a r'']; [by cbn [hasInk]|].
  destruct (white3 a b c) eqn:E3; [|by cbn [hasInk]].
  apply white3_high in E3 as (Ea & Eb & Ec). cbn [hasInk] in Hs.
  rewrite Ea, Eb, Ec in Hs. simpl in Hlen, Hs. apply IH; [lia|exact Hs].
Qed.

Lemma rev_app_ink (s acc : string) :
  hasInk s || hasInk acc = true -> hasInk (String.rev_app s acc) = true.
Proof.
  revert acc. induction s as [|a r IH]; intros acc; simpl; [done|].
  intros H. apply IH. simpl.
  destruct (isInk a), (hasInk r), (hasInk acc); done.
Qed.

(** A string that begins with an ASCII character that is no white space
    is not blank. *)
Lemma trim_ink (a : ascii) (r : string) :
  isInk a = true -> truthy_str (trim (String a r)) = true.
Proof.
  intros Ha. unfold trim. rewrite (trimStart_ink a r Ha). unfold String.rev.
  assert (H : hasInk (String.rev_app
                        (trimStartReversed
                           (String.rev_app (String a r) "")) "")
              = true).
  { apply rev_app_ink, orb_true_iff. left.
    apply (trimStartReversed_ink
             (String.length (String.rev_app (String a r) ""))); [done|].
    apply rev_app_ink. simpl. by rewrite Ha. }
  by destruct (String.rev_app _ _).
Qed.

(** X27: a transcript list whose first entry carries an audio start time (be
    it zero, be it [null]) is turned into a text that is not blank, whatever
    the entries say: the stamp in brackets is computed from the time and
    never replaced by the wall-clock timestamp. *)
Theorem stamped_text_is_not_blank (t : Transcript) (rest : list Transcript) :
  audio_start_time t <> Undefined ->
  truthy_str (trim (fullTranscript (t :: rest))) = true.
Proof.
  intros Htime. unfold fullTranscript. cbn [map String.concat].
  assert (Hstamp : exists z,
             formatTime (audio_start_time t) (timestamp t) = stamp z).
  { destruct (audio_start_time t) as [| |q]; [done|by exists 0%Z|].
    by exists (Qfloor q). }
  destruct Hstamp as [z ->].
  destruct (map _ rest); apply (trim_ink "["%char); reflexivity.
Qed.

Lemma stamped_text_is_not_blank_witness :
  truthy_str
    (trim (fullTranscript [MoreExamples.line_null; MoreExamples.line_old]))
  = true.
Proof.
  apply (stamped_text_is_not_blank MoreExamples.line_null
           [MoreExamples.line_old]).
  discriminate.
Defined.

(** *** From the request to the poll *)

Lemma handleGenerateSummary_shape (props : Props) (env : Env)
  (customPrompt : string) (app : App) :
  let run := handleGenerateSummary props env customPrompt app in
  (run.1 = app /\ existsb isHook run.2 = false)
  \/ exists all before,
       allData env = Resolved all
       /\ existsb isHook before = false
       /\ run.1
          = (processSummary props (fullTranscript (transcripts all))
               customPrompt false (backend env) app).1
       /\ run.2
          = before
            ++ map Hook
                 (processSummary props (fullTranscript (transcripts all))
                    customPrompt false (backend env) app).2.
Proof.
  unfold handleGenerateSummary.
  destruct (isModelConfigLoading env); [by left|].
  destruct (fetchAllTranscripts_steps
              "要約生成用の文字起こしの取得に失敗しました" env)
    as (Hf1 & Hf2 & Hf4).
  destruct (fetchAllTranscripts _ env) as [allTranscripts fetched].
  cbn [fst snd] in Hf1, Hf2, Hf4.
  destruct (length allTranscripts =? 0)%nat eqn:Hlen.
  { left. split; [done|]. cbn [snd]. by rewrite existsb_app, Hf1. }
  assert (Hne : allTranscripts <> []) by (by intros ->).
  destruct (ollamaCheck_steps props env) as [Ho1 _].
  destruct (ollamaCheck props env) as [asked1 go1]. cbn [fst] in Ho1.
  destruct go1; simpl;
    [|left; split; [done|]; by rewrite existsb_app, Hf1, Ho1].
  destruct (builtinCheck_steps props env) as [Hb1 _].
  destruct (builtinCheck props env) as [asked2 go2]. cbn [fst] in Hb1.
  destruct go2; simpl;
    [|left; split; [done|]; by rewrite !existsb_app, Hf1, Ho1, Hb1].
  right. destruct (proj1 Hf2 Hne) as (first & all & _ & _ & E3 & _).
  exists all, (fetched ++ asked1 ++ asked2).
  rewrite (Hf4 all E3 Hne).
  destruct (processSummary props (fullTranscript (transcripts all))
              customPrompt false (backend env) app) as [app' evs].
  split; [done|]. split; [by rewrite !existsb_app, Hf1, Ho1, Hb1|].
  split; [done|]. simpl. by rewrite <- !app_assoc.
Qed.

(** X28: a generation whose request the backend accepts is polled: the hook
    is in status [processing] with no error, the meeting is registered with a
    fresh interval that has not fired yet and is the only live one, and the
    callback of that interval is that of a first generation. A request the
    backend rejects registers nothing and ends in status [error]. *)
Theorem accepted_generation_is_polled (props : Props) (env : Env)
  (customPrompt : string) (app : App) :
  Polling.reachable (polls app) ->
  let run := handleGenerateSummary props env customPrompt app in
  let h := Polling.nextHandle (polls app) in
  existsb isProcessRequest run.2 = true ->
  match backend env with
  | Resolved _ =>
      summaryStatus (ui run.1) = Processing
      /\ summaryError (ui run.1) = None
      /\ Polling.activeSummaryPolls (polls run.1) !! meetingId props = Some h
      /\ Polling.intervals (polls run.1)
         = {[ h := {| Polling.i_meetingId := meetingId props;
                      Polling.pollCount := 0 |} ]}
      /\ runs run.1 !! h = Some false
  | Rejected e =>
      summaryStatus (ui run.1) = Error
      /\ summaryError (ui run.1) = Some (message_or_unknown e)
      /\ polls run.1 = polls app
  end.
Proof.
  intros Hreach run h Hrequest.
  pose proof (PollingProofs.reachable_consistent _ Hreach) as Hst.
  destruct (handleGenerateSummary_shape props env customPrompt app)
    as [[_ Hnone]|(all & before & _ & Hbefore & Happ & Hsteps)].
  { apply hook_free_no_request in Hnone. unfold run in Hrequest. congruence. }
  fold run in Happ, Hsteps.
  destruct (processSummary_requests props (fullTranscript (transcripts all))
              customPrompt false (backend env) app) as [_ Hreq].
  rewrite Hsteps, existsb_app, (hook_free_no_request _ Hbefore) in Hrequest.
  simpl in Hrequest. rewrite Hreq in Hrequest.
  rewrite Happ. unfold processSummary. rewrite Hrequest. cbn [negb].
  destruct (backend env) as [pid|e]; cbn [fst ui polls runs].
  - split; [done|]. split; [done|].
    unfold Polling.step, Polling.startSummaryPolling.
    rewrite (PollingProofs.step_start _ _ _ _ Hst). simpl.
    split; [apply lookup_insert_eq|]. split; [done|]. apply lookup_insert_eq.
  - done.
Qed.

Lemma accepted_generation_is_polled_witness :
  summaryStatus
    (ui (handleGenerateSummary Examples.props1 MoreExamples.ready_env ""
           Examples.regenerating_app).1)
  = Processing.
Proof.
  apply (accepted_generation_is_polled Examples.props1 MoreExamples.ready_env
           "" Examples.regenerating_app).
  - apply (Polling.reach_step (Polling.OpStart "m-1" "p-1")),
      Polling.reach_initial.
  - vm_compute. reflexivity.
Defined.

End GenerateProofs.

(** ** Title and summary of the meeting on display *)

Module MeetingDataProofs.
Import Api SummaryGeneration MeetingData.

Lemma handleSaveSummary_keeps (meeting : string) (summary : Summary)
  (save : outcome unit) (st : DataState) :
  let run := handleSaveSummary meeting summary save st in
  isSaving run.1 = isSaving st
  /\ isTitleDirty run.1 = isTitleDirty st
  /\ sidebarMeetings run.1 = sidebarMeetings st
  /\ existsb isSaveTitle run.2 = false.
Proof.
  unfold handleSaveSummary.
  destruct (isNewFormat summary); [|destruct (legacySections summary)];
    try destruct save; done.
Qed.

Ltac save_summary_facts :=
  try (destruct (d_aiSummary _) as [summary|]; cbn iota beta zeta;
       [match goal with
        | |- context [handleSaveSummary ?m ?s ?o ?x] =>
            let Hkeep := fresh "Hkeep" in
            pose proof (handleSaveSummary_keeps m s o x) as Hkeep;
            destruct (handleSaveSummary m s o x) as [s' evs'];
            cbn [fst snd] in Hkeep;
            destruct Hkeep as (Hsaving & Htitle & Hsidebar & Hcalls)
        end|]).

Lemma saveAllChanges_facts (meeting : string)
  (titleSave : outcome unit) (editor : option (bool * outcome unit))
  (summarySave : outcome unit) (st : DataState) :
  let run := saveAllChanges meeting titleSave editor summarySave st in
  isSaving run.1 = false
  /\ last run.2
     = Some (match editor with
             | Some (true, Rejected e) => SaveFailedToast (string_of_thrown e)
             | _ => SavedToast
             end)
  /\ (isTitleDirty st = true ->
      match titleSave with
      | Resolved _ => isTitleDirty run.1 = false
      | Rejected _ =>
          isTitleDirty run.1 = true
          /\ sidebarMeetings run.1 = sidebarMeetings st
      end)
  /\ (isTitleDirty st = false -> existsb isSaveTitle run.2 = false).
Proof.
  unfold saveAllChanges.
  destruct (isTitleDirty st) eqn:Hdirty.
  - unfold handleSaveMeetingTitle.
    destruct titleSave as [u|e]; cbn iota beta zeta;
      destruct editor as [[[|] [u'|e']]|]; cbn iota beta zeta;
      save_summary_facts;
      cbn [fst snd isSaving setIsSaving];
      rewrite ?app_assoc, ?last_snoc;
      repeat split; try done;
      cbn [isTitleDirty sidebarMeetings setIsSaving];
      rewrite ?Htitle, ?Hsidebar; done.
  - destruct editor as [[[|] [u'|e']]|]; cbn iota beta zeta;
      save_summary_facts;
      cbn [fst snd isSaving setIsSaving];
      rewrite ?app_assoc, ?last_snoc;
      repeat split; try done;
      rewrite ?existsb_app, ?Hcalls; done.
Qed.

(** X29: [saveAllChanges] announces success whenever the summary editor does
    not refuse its own save: a rejected [api_save_meeting_title] or
    [api_save_meeting_summary] is only recorded in the error state, and the
    success notice is shown all the same. A rejected title save leaves the
    title marked as unsaved and the sidebar as it was; [isSaving] is reset in
    every case. *)
Theorem save_all_announces_success_despite_rejections (meeting : string)
  (titleSave : outcome unit) (editor : option (bool * outcome unit))
  (summarySave : outcome unit) (st : DataState) :
  let run := saveAllChanges meeting titleSave editor summarySave st in
  isSaving run.1 = false
  /\ last run.2
     = Some (match editor with
             | Some (true, Rejected e) => SaveFailedToast (string_of_thrown e)
             | _ => SavedToast
             end)
  /\ (forall e,
        isTitleDirty st = true -> titleSave = Rejected e ->
        isTitleDirty run.1 = true
        /\ sidebarMeetings run.1 = sidebarMeetings st).
Proof.
  intros run.
  destruct (saveAllChanges_facts meeting titleSave editor summarySave st)
    as (H1 & H2 & H3 & _).
  split; [exact H1|]. split; [exact H2|].
  intros e Hdirty ->. exact (H3 Hdirty).
Qed.

Lemma save_all_announces_success_despite_rejections_witness :
  let run :=
    saveAllChanges "m-1" (Rejected (ErrorObj "offline")) None
      (Rejected (ErrorObj "offline")) MoreExamples.edited in
  last run.2 = Some SavedToast
  /\ isTitleDirty run.1 = true.
Proof.
  destruct (save_all_announces_success_despite_rejections "m-1"
              (Rejected (ErrorObj "offline")) None
              (Rejected (ErrorObj "offline")) MoreExamples.edited)
    as (_ & Hlast & Htitle).
  split; [exact Hlast|].
  apply (Htitle (ErrorObj "offline")); reflexivity.
Defined.


End MeetingDataProofs.
